(** * OAuth2 manager (oauth2_auth.py): a shallow embedding and its properties

    The development follows the module top to bottom:
    - the library routines the manager calls (base64, SHA-256, urlencode,
      datetime, JSON values), modelled as executable functions;
    - the dataclasses [OAuth2Config] and [OAuth2Token];
    - the class [OAuth2Manager], every method a computation in a small
      state-and-exception monad over the manager object, the heap of token
      objects, the disk, and a trace of the requests and log lines it emits;
    - the properties of the specification, one theorem each.

    Strings are byte strings: a Python [str] is carried as its UTF-8
    encoding, so [s.encode('utf-8')] is the list of its character codes. *)

From Stdlib Require Import ZArith Ascii String List Lia Bool.
From stdpp Require Import gmap strings list.

Open Scope string_scope.
Open Scope list_scope.
Open Scope Z_scope.

(* ===================================================================== *)
(** ** Bytes and strings *)
(* ===================================================================== *)

Definition byte_of_ascii (c : ascii) : Z := Z.of_N (N_of_ascii c).
Definition ascii_of_byte (b : Z) : ascii := ascii_of_N (Z.to_N (b mod 256)).

(** [s.encode('utf-8')] / [b.decode('utf-8')] on byte strings. *)
Fixpoint str_encode (s : string) : list Z :=
  match s with
  | EmptyString => []
  | String c s' => byte_of_ascii c :: str_encode s'
  end.

Fixpoint bytes_decode (bs : list Z) : string :=
  match bs with
  | [] => EmptyString
  | b :: bs' => String (ascii_of_byte b) (bytes_decode bs')
  end.

Fixpoint str_rev_onto (s acc : string) : string :=
  match s with
  | EmptyString => acc
  | String c s' => str_rev_onto s' (String c acc)
  end.

Definition str_rev (s : string) : string := str_rev_onto s EmptyString.

Fixpoint drop_leading (c : ascii) (s : string) : string :=
  match s with
  | EmptyString => EmptyString
  | String d s' => if Ascii.eqb d c then drop_leading c s' else s
  end.

(** [s.rstrip(c)] for a one-character argument. *)
Definition rstrip (c : ascii) (s : string) : string :=
  str_rev (drop_leading c (str_rev s)).

(** [c in s] for a character. *)
Fixpoint has_char (c : ascii) (s : string) : bool :=
  match s with
  | EmptyString => false
  | String d s' => Ascii.eqb d c || has_char c s'
  end.

(** Python truthiness of a [str]. *)
Definition str_truthy (s : string) : bool :=
  match s with EmptyString => false | _ => true end.

(* ===================================================================== *)
(** ** base64.urlsafe_b64encode *)
(* ===================================================================== *)

Module Base64.

Definition alphabet : string :=
  "ABCDEFGHIJKLMNOPQRSTUVWXYZabcdefghijklmnopqrstuvwxyz0123456789-_".

Definition sextet (n : Z) : ascii :=
  match String.get (Z.to_nat (n mod 64)) alphabet with
  | Some c => c
  | None => "="%char
  end.

(** Three input bytes give four characters; a final group of one or two
    bytes is padded with [=]. *)
Fixpoint urlsafe_b64encode (bs : list Z) : string :=
  match bs with
  | [] => EmptyString
  | [a] =>
      String (sextet (Z.shiftr a 2))
     (String (sextet (Z.shiftl (Z.land a 3) 4)) "==")
  | [a; b] =>
      String (sextet (Z.shiftr a 2))
     (String (sextet (Z.lor (Z.shiftl (Z.land a 3) 4) (Z.shiftr b 4)))
     (String (sextet (Z.shiftl (Z.land b 15) 2)) "="))
  | a :: b :: c :: rest =>
      String (sextet (Z.shiftr a 2))
     (String (sextet (Z.lor (Z.shiftl (Z.land a 3) 4) (Z.shiftr b 4)))
     (String (sextet (Z.lor (Z.shiftl (Z.land b 15) 2) (Z.shiftr c 6)))
     (String (sextet (Z.land c 63)) (urlsafe_b64encode rest))))
  end.

(** [base64.urlsafe_b64encode(bs).decode('utf-8').rstrip('=')] *)
Definition b64url_nopad (bs : list Z) : string :=
  rstrip "="%char (urlsafe_b64encode bs).

End Base64.

(* ===================================================================== *)
(** ** hashlib.sha256 (FIPS 180-4) on 32-bit words carried in [Z] *)
(* ===================================================================== *)

Module SHA256.

Definition w32 (x : Z) : Z := x mod 2 ^ 32.
Definition add32 (x y : Z) : Z := w32 (x + y).
Definition rotr (n x : Z) : Z :=
  w32 (Z.lor (Z.shiftr x n) (Z.shiftl x (32 - n))).
Definition shr (n x : Z) : Z := Z.shiftr x n.

Definition Ch (x y z : Z) : Z :=
  Z.lxor (Z.land x y) (Z.land (Z.lxor x (2 ^ 32 - 1)) z).
Definition Maj (x y z : Z) : Z :=
  Z.lxor (Z.lxor (Z.land x y) (Z.land x z)) (Z.land y z).
Definition Sigma0 (x : Z) : Z := Z.lxor (Z.lxor (rotr 2 x) (rotr 13 x)) (rotr 22 x).
Definition Sigma1 (x : Z) : Z := Z.lxor (Z.lxor (rotr 6 x) (rotr 11 x)) (rotr 25 x).
Definition sigma0 (x : Z) : Z := Z.lxor (Z.lxor (rotr 7 x) (rotr 18 x)) (shr 3 x).
Definition sigma1 (x : Z) : Z := Z.lxor (Z.lxor (rotr 17 x) (rotr 19 x)) (shr 10 x).

(** The constants are fractional bits of roots of the first primes: the
    initial hash from the square roots of the first 8 primes, the round
    constants from the cube roots of the first 64. *)
Definition is_prime (n : Z) : bool :=
  (2 <=? n) && forallb (fun d => negb (n mod Z.of_nat d =? 0)) (seq 2 (Z.to_nat n - 2)).

Definition primes : list Z :=
  filter (fun n => is_prime n = true) (map Z.of_nat (seq 2 310)).

(** The integer cube root below [2^bits], one bit at a time. *)
Fixpoint icbrt (bits : nat) (n r : Z) : Z :=
  match bits with
  | O => r
  | S b =>
      let r' := r + 2 ^ Z.of_nat b in
      icbrt b n (if r' * r' * r' <=? n then r' else r)
  end.

Definition H0 : list Z :=
  Eval vm_compute in map (fun p => w32 (Z.sqrt (p * 2 ^ 64))) (firstn 8 primes).

Definition K : list Z :=
  Eval vm_compute in map (fun p => w32 (icbrt 36 (p * 2 ^ 96) 0)) (firstn 64 primes).

(** Big-endian bytes of [x], most significant first, [n] of them. *)
Fixpoint be_bytes (n : nat) (x : Z) : list Z :=
  match n with
  | O => []
  | S n' => ((Z.shiftr x (8 * Z.of_nat n')) mod 256) :: be_bytes n' x
  end.

Definition pad (msg : list Z) : list Z :=
  let len := Z.of_nat (length msg) in
  let zeros := Z.to_nat ((55 - len) mod 64) in
  msg ++ [0x80] ++ repeat 0 zeros ++ be_bytes 8 (8 * len).

Fixpoint words_of_bytes (bs : list Z) : list Z :=
  match bs with
  | a :: b :: c :: d :: rest =>
      (Z.shiftl a 24 + Z.shiftl b 16 + Z.shiftl c 8 + d) :: words_of_bytes rest
  | _ => []
  end.

Fixpoint blocks (n : nat) (ws : list Z) : list (list Z) :=
  match n with
  | O => []
  | S n' => firstn 16 ws :: blocks n' (skipn 16 ws)
  end.

(** The message schedule, newest word first: [extend k w] adds [k] words. *)
Fixpoint extend (k : nat) (w : list Z) : list Z :=
  match k with
  | O => w
  | S k' =>
      let x := add32 (add32 (sigma1 (nth 1 w 0)) (nth 6 w 0))
                     (add32 (sigma0 (nth 14 w 0)) (nth 15 w 0)) in
      extend k' (x :: w)
  end.

Definition schedule (block : list Z) : list Z := rev (extend 48 (rev block)).

Definition round (st : list Z) (kw : Z * Z) : list Z :=
  match st with
  | [a; b; c; d; e; f; g; h] =>
      let t1 := add32 (add32 (add32 h (Sigma1 e)) (add32 (Ch e f g) (fst kw))) (snd kw) in
      let t2 := add32 (Sigma0 a) (Maj a b c) in
      [add32 t1 t2; a; b; c; add32 d t1; e; f; g]
  | _ => st
  end.

Definition compress (h : list Z) (block : list Z) : list Z :=
  let st := fold_left round (combine K (schedule block)) h in
  map (fun p => add32 (fst p) (snd p)) (combine h st).

Definition sha256 (msg : list Z) : list Z :=
  let ws := words_of_bytes (pad msg) in
  let h := fold_left compress (blocks (length ws / 16) ws) H0 in
  concat (map (be_bytes 4) h).

End SHA256.

(* ===================================================================== *)
(** ** urllib.parse: quote_plus, urlencode, and the reading of a query *)
(* ===================================================================== *)

Module UrlParse.

Definition hex_digit (n : Z) : ascii :=
  match String.get (Z.to_nat (n mod 16)) "0123456789ABCDEF" with
  | Some c => c
  | None => "0"%char
  end.

Definition in_range (lo hi c : Z) : bool := (lo <=? c) && (c <=? hi).

(** The characters [quote] never escapes: letters, digits and [_.-~]. *)
Definition always_safe (c : ascii) : bool :=
  let n := byte_of_ascii c in
  in_range 65 90 n || in_range 97 122 n || in_range 48 57 n
  || (n =? 95) || (n =? 46) || (n =? 45) || (n =? 126).

Definition quote_char (c : ascii) : string :=
  if always_safe c then String c EmptyString
  else if Ascii.eqb c " "%char then "+"
  else let n := byte_of_ascii c in
       String "%"%char (String (hex_digit (n / 16)) (String (hex_digit n) EmptyString)).

Fixpoint quote_plus (s : string) : string :=
  match s with
  | EmptyString => EmptyString
  | String c s' => quote_char c +:+ quote_plus s'
  end.

Fixpoint join (sep : string) (xs : list string) : string :=
  match xs with
  | [] => EmptyString
  | [x] => x
  | x :: rest => x +:+ sep +:+ join sep rest
  end.

Definition encode_pair (kv : string * string) : string :=
  quote_plus (fst kv) +:+ "=" +:+ quote_plus (snd kv).

(** [urllib.parse.urlencode(params)] for a dict of [str] keys and values,
    in insertion order. *)
Definition urlencode (params : list (string * string)) : string :=
  join "&" (map encode_pair params).

(** Reading a query string back (the inverse direction, used to say what a
    query parameter of a URL is): [unquote_plus] and [parse_qsl] with blank
    values kept. *)
Definition hex_value (c : ascii) : option Z :=
  let n := byte_of_ascii c in
  if in_range 48 57 n then Some (n - 48)
  else if in_range 65 70 n then Some (n - 55)
  else if in_range 97 102 n then Some (n - 87)
  else None.

Fixpoint unquote_plus (s : string) : string :=
  match s with
  | EmptyString => EmptyString
  | String c s' =>
      if Ascii.eqb c "%"%char then
        match s' with
        | String a (String b t) =>
            match hex_value a, hex_value b with
            | Some x, Some y => String (ascii_of_byte (16 * x + y)) (unquote_plus t)
            | _, _ => String c (unquote_plus s')
            end
        | _ => String c (unquote_plus s')
        end
      else if Ascii.eqb c "+"%char then String " "%char (unquote_plus s')
      else String c (unquote_plus s')
  end.

(** [s.split(sep)] for a one-character separator. *)
Fixpoint split_on (sep : ascii) (s : string) : list string :=
  match s with
  | EmptyString => [EmptyString]
  | String c s' =>
      if Ascii.eqb c sep then EmptyString :: split_on sep s'
      else match split_on sep s' with
           | x :: rest => String c x :: rest
           | [] => [String c EmptyString]
           end
  end.

(** [s.split(sep, 1)]: the text before the first [sep], and the text after
    it when there is one. *)
Fixpoint split_first (sep : ascii) (s : string) : string * option string :=
  match s with
  | EmptyString => (EmptyString, None)
  | String c s' =>
      if Ascii.eqb c sep then (EmptyString, Some s')
      else let '(a, b) := split_first sep s' in (String c a, b)
  end.

Definition parse_pair (nv : string) : string * string :=
  let '(n, v) := split_first "="%char nv in
  (unquote_plus n, unquote_plus (default EmptyString v)).

Definition parse_qsl (qs : string) : list (string * string) :=
  map parse_pair (filter (fun nv => str_truthy nv = true) (split_on "&"%char qs)).

(** The query component of a URL, as [urlsplit] cuts it: the fragment
    starts at the first [#], the query at the first [?] before it. *)
Definition url_query (url : string) : string :=
  match split_first "?"%char (fst (split_first "#"%char url)) with
  | (_, Some q) => q
  | (_, None) => EmptyString
  end.

(** The characters that delimit the parts of a URL and of a query. *)
Definition is_delimiter (c : ascii) : bool := has_char c "&=#?".

(** All the values a query string carries for one parameter name. *)
Definition query_values (name : string) (qs : string) : list string :=
  map snd (filter (fun kv => fst kv = name) (parse_qsl qs)).

End UrlParse.

(* ===================================================================== *)
(** ** Python values: what [json.load] and [response.json()] return *)
(* ===================================================================== *)

(** A decoded float, kept exact: a finite float is [m * 2^e]. *)
Inductive pyfloat :=
  | FNan
  | FInf (negative : bool)
  | FFinite (m e : Z).

(** [JNull] is Python's [None]; [JDict] carries the items of a dict in
    insertion order (a dict decoded by [json] has pairwise distinct keys). *)
#[warnings="-register-all"]
Inductive json :=
  | JNull
  | JBool (b : bool)
  | JInt (z : Z)
  | JFloat (f : pyfloat)
  | JStr (s : string)
  | JList (l : list json)
  | JDict (d : list (string * json)).

(** Exceptions, by class. [HTTPError], [ConnectionError] and the
    [JSONDecodeError] of [response.json()] derive from
    [requests.RequestException]; all derive from [Exception]. *)
Inductive exn :=
  | ValueError (msg : string)
  | KeyError (key : string)
  | TypeError
  | AttributeError
  | OverflowError
  | OSError
  | JSONDecodeError
  | HTTPError (status : Z)
  | ConnectionError.

Definition is_RequestException (e : exn) : bool :=
  match e with
  | HTTPError _ | ConnectionError | JSONDecodeError => true
  | _ => false
  end.

Inductive Res (A : Type) :=
  | Ok (a : A)
  | Raise (e : exn).
Arguments Ok {A} a.
Arguments Raise {A} e.

(** Python dicts keyed by [str], in insertion order. *)
Module Dict.
Section Dict.
Context {V : Type}.

Fixpoint get (k : string) (d : list (string * V)) : option V :=
  match d with
  | [] => None
  | (k', v) :: d' => if String.eqb k' k then Some v else get k d'
  end.

Definition mem (k : string) (d : list (string * V)) : bool :=
  match get k d with Some _ => true | None => false end.

(** [d[k] = v]: an existing key keeps its place, a new one goes last. *)
Fixpoint set (k : string) (v : V) (d : list (string * V)) : list (string * V) :=
  match d with
  | [] => [(k, v)]
  | (k', v') :: d' =>
      if String.eqb k' k then (k', v) :: d' else (k', v') :: set k v d'
  end.

(** [del d[k]] *)
Fixpoint del (k : string) (d : list (string * V)) : list (string * V) :=
  match d with
  | [] => []
  | (k', v') :: d' =>
      if String.eqb k' k then del k d' else (k', v') :: del k d'
  end.

Definition keys (d : list (string * V)) : list string := map fst d.
End Dict.
End Dict.

Definition float_truthy (f : pyfloat) : bool :=
  match f with
  | FFinite m _ => negb (m =? 0)
  | _ => true
  end.

(** Truth value of a Python object ([if x], [not x]). *)
Definition py_truthy (v : json) : bool :=
  match v with
  | JNull => false
  | JBool b => b
  | JInt z => negb (z =? 0)
  | JFloat f => float_truthy f
  | JStr s => str_truthy s
  | JList l => match l with [] => false | _ => true end
  | JDict d => match d with [] => false | _ => true end
  end.

Definition is_space (c : ascii) : bool :=
  let n := byte_of_ascii c in ((9 <=? n) && (n <=? 13)) || (n =? 32).

Fixpoint lstrip_space (s : string) : string :=
  match s with
  | String c s' => if is_space c then lstrip_space s' else s
  | EmptyString => EmptyString
  end.

Definition strip_space (s : string) : string :=
  str_rev (lstrip_space (str_rev (lstrip_space s))).

Definition digit_value (c : ascii) : option Z :=
  let n := byte_of_ascii c in
  if (48 <=? n) && (n <=? 57) then Some (n - 48) else None.

(** Decimal digits with single underscores allowed between digits.
    [after_digit] tells whether the previous character was a digit. *)
Fixpoint int_digits (s : string) (acc : Z) (after_digit : bool) : option Z :=
  match s with
  | EmptyString => if after_digit then Some acc else None
  | String c s' =>
      match digit_value c with
      | Some d => int_digits s' (10 * acc + d) true
      | None =>
          if Ascii.eqb c "_"%char && after_digit
          then match s' with
               | EmptyString => None
               | String c' _ =>
                   match digit_value c' with
                   | Some _ => int_digits s' acc false
                   | None => None
                   end
               end
          else None
      end
  end.

Definition int_of_str (s : string) : option Z :=
  match strip_space s with
  | String c s' =>
      if Ascii.eqb c "-"%char then option_map Z.opp (int_digits s' 0 false)
      else if Ascii.eqb c "+"%char then int_digits s' 0 false
      else int_digits (String c s') 0 false
  | EmptyString => None
  end.

(** The builtin [int(x)]. *)
Definition py_int (v : json) : Res Z :=
  match v with
  | JInt z => Ok z
  | JBool b => Ok (if b then 1 else 0)
  | JFloat FNan => Raise (ValueError "cannot convert float NaN to integer")
  | JFloat (FInf _) => Raise OverflowError
  | JFloat (FFinite m e) =>
      Ok (if 0 <=? e then m * 2 ^ e else Z.quot m (2 ^ (- e)))
  | JStr s =>
      match int_of_str s with
      | Some z => Ok z
      | None => Raise (ValueError "invalid literal for int() with base 10")
      end
  | JNull | JList _ | JDict _ => Raise TypeError
  end.

Definition is_substring (pat s : string) : bool :=
  match String.index 0 pat s with Some _ => true | None => false end.

(** [key in x] *)
Definition py_contains (key : string) (x : json) : Res bool :=
  match x with
  | JDict d => Ok (Dict.mem key d)
  | JList l =>
      Ok (existsb (fun v => match v with JStr s => String.eqb s key | _ => false end) l)
  | JStr s => Ok (is_substring key s)
  | _ => Raise TypeError
  end.

(** [x[key]] for a [str] key *)
Definition py_getitem (key : string) (x : json) : Res json :=
  match x with
  | JDict d =>
      match Dict.get key d with
      | Some v => Ok v
      | None => Raise (KeyError key)
      end
  | _ => Raise TypeError
  end.

(** [x.get(key, dflt)] *)
Definition py_get (key : string) (dflt : json) (x : json) : Res json :=
  match x with
  | JDict d => Ok (default dflt (Dict.get key d))
  | _ => Raise AttributeError
  end.

(** [x.items()] *)
Definition py_items (x : json) : Res (list (string * json)) :=
  match x with
  | JDict d => Ok d
  | _ => Raise AttributeError
  end.

(* ===================================================================== *)
(** ** datetime: naive timestamps, timedelta arithmetic, ISO format *)
(* ===================================================================== *)

Module Datetime.

(** A naive [datetime.datetime]: its seven fields. *)
Record t := mk {
  year : Z; month : Z; day : Z;
  hour : Z; minute : Z; second : Z; microsecond : Z
}.

Definition is_leap (y : Z) : bool :=
  (y mod 4 =? 0) && (negb (y mod 100 =? 0) || (y mod 400 =? 0)).

Definition days_in_month (y m : Z) : Z :=
  if (m =? 2) then (if is_leap y then 29 else 28)
  else if (m =? 4) || (m =? 6) || (m =? 9) || (m =? 11) then 30
  else 31.

(** The range checks of the [datetime(...)] constructor. *)
Definition fields_ok (y mo d h mi s us : Z) : bool :=
  (1 <=? y) && (y <=? 9999) && (1 <=? mo) && (mo <=? 12)
  && (1 <=? d) && (d <=? days_in_month y mo)
  && (0 <=? h) && (h <=? 23) && (0 <=? mi) && (mi <=? 59)
  && (0 <=? s) && (s <=? 59) && (0 <=? us) && (us <=? 999999).

Definition valid (d : t) : bool :=
  fields_ok (year d) (month d) (day d) (hour d) (minute d) (second d) (microsecond d).

(** [datetime(y, mo, d, h, mi, s, us)] *)
Definition make (y mo d h mi s us : Z) : Res t :=
  if fields_ok y mo d h mi s us then Ok (mk y mo d h mi s us)
  else Raise (ValueError "datetime field out of range").

(** Field-by-field comparison, most significant first. *)
Fixpoint lex_compare (xs ys : list Z) : comparison :=
  match xs, ys with
  | x :: xs', y :: ys' =>
      match x ?= y with
      | Eq => lex_compare xs' ys'
      | c => c
      end
  | _, _ => Eq
  end.

Definition fields (d : t) : list Z :=
  [year d; month d; day d; hour d; minute d; second d; microsecond d].

Definition compare (a b : t) : comparison := lex_compare (fields a) (fields b).

(** [a >= b] *)
Definition ge (a b : t) : bool :=
  match compare a b with Lt => false | _ => true end.

(** Proleptic Gregorian ordinals, 0001-01-01 being day 1. *)
Definition days_before_year (y : Z) : Z :=
  let p := y - 1 in p * 365 + p / 4 - p / 100 + p / 400.

Definition days_before_month (y m : Z) : Z :=
  nth (Z.to_nat m) [0; 0; 31; 59; 90; 120; 151; 181; 212; 243; 273; 304; 334] 0
  + (if (2 <? m) && is_leap y then 1 else 0).

Definition ymd2ord (y m d : Z) : Z :=
  days_before_year y + days_before_month y m + d.

Definition MAXORDINAL : Z := 3652059.

Definition ord2ymd (ordinal : Z) : Z * Z * Z :=
  let n := ordinal - 1 in
  let n400 := n / 146097 in let n := n mod 146097 in
  let n100 := n / 36524 in let n := n mod 36524 in
  let n4 := n / 1461 in let n := n mod 1461 in
  let n1 := n / 365 in let n := n mod 365 in
  let y := n400 * 400 + 1 + n100 * 100 + n4 * 4 + n1 in
  if (n1 =? 4) || (n100 =? 4) then (y - 1, 12, 31)
  else
    let leapyear := (n1 =? 3) && (negb (n4 =? 24) || (n100 =? 3)) in
    let m := Z.shiftr (n + 50) 5 in
    let preceding :=
      nth (Z.to_nat m) [0; 0; 31; 59; 90; 120; 151; 181; 212; 243; 273; 304; 334] 0
      + (if (2 <? m) && leapyear then 1 else 0) in
    if n <? preceding then
      let m' := m - 1 in
      let dim := (if (m' =? 2) && leapyear then 29
                  else nth (Z.to_nat m') [0; 31; 28; 31; 30; 31; 30; 31; 31; 30; 31; 30; 31] 0) in
      (y, m', n - (preceding - dim) + 1)
    else (y, m, n - preceding + 1).

(** [now + timedelta(seconds=n)]: [timedelta] refuses more than 999999999
    days, the sum refuses a date outside years 1..9999. *)
Definition add_seconds (now : t) (n : Z) : Res t :=
  if 999999999 <? Z.abs (n / 86400) then Raise OverflowError
  else
    let secs := hour now * 3600 + minute now * 60 + second now + n mod 86400 in
    let days := ymd2ord (year now) (month now) (day now) + n / 86400 + secs / 86400 in
    let secs := secs mod 86400 in
    if (0 <? days) && (days <=? MAXORDINAL) then
      let '(y, m, d) := ord2ymd days in
      make y m d (secs / 3600) (secs mod 3600 / 60) (secs mod 60) (microsecond now)
    else Raise OverflowError.

Definition digit (n : Z) : ascii := ascii_of_byte (48 + n mod 10).

(** [n] as [w] decimal digits, zero-padded, followed by [rest]. *)
Fixpoint digits_onto (w : nat) (n : Z) (rest : string) : string :=
  match w with
  | O => rest
  | S w' => digits_onto w' (n / 10) (String (digit n) rest)
  end.

(** [d.isoformat()]: [YYYY-MM-DDTHH:MM:SS], with [.ffffff] appended when
    the microsecond field is not zero. *)
Definition isoformat (d : t) : string :=
  digits_onto 4 (year d) (String "-"%char
  (digits_onto 2 (month d) (String "-"%char
  (digits_onto 2 (day d) (String "T"%char
  (digits_onto 2 (hour d) (String ":"%char
  (digits_onto 2 (minute d) (String ":"%char
  (digits_onto 2 (second d)
    (if microsecond d =? 0 then EmptyString
     else String "."%char (digits_onto 6 (microsecond d) EmptyString)))))))))))).

(** Reads exactly [w] decimal digits. *)
Fixpoint read_digits (w : nat) (s : string) (acc : Z) : option (Z * string) :=
  match w with
  | O => Some (acc, s)
  | S w' =>
      match s with
      | String c s' =>
          match digit_value c with
          | Some v => read_digits w' s' (10 * acc + v)
          | None => None
          end
      | EmptyString => None
      end
  end.

Definition expect (c : ascii) (s : string) : option string :=
  match s with
  | String c' s' => if Ascii.eqb c' c then Some s' else None
  | EmptyString => None
  end.

(** The fraction after the seconds: absent, [.fff] or [.ffffff]. *)
Definition read_fraction (s : string) : option Z :=
  match s with
  | EmptyString => Some 0
  | String c s' =>
      if Ascii.eqb c "."%char then
        match read_digits 6 s' 0 with
        | Some (us, EmptyString) => Some us
        | Some (_, String _ _) => None
        | None =>
            match read_digits 3 s' 0 with
            | Some (ms, EmptyString) => Some (ms * 1000)
            | _ => None
            end
        end
      else None
  end.

(** The time of day after the separator: [HH], [HH:MM], [HH:MM:SS] and an
    optional fraction. *)
Definition read_time (s : string) : option (Z * Z * Z * Z) :=
  match read_digits 2 s 0 with
  | None => None
  | Some (h, EmptyString) => Some (h, 0, 0, 0)
  | Some (h, s1) =>
      match expect ":"%char s1 with
      | None => None
      | Some s2 =>
          match read_digits 2 s2 0 with
          | None => None
          | Some (mi, EmptyString) => Some (h, mi, 0, 0)
          | Some (mi, s3) =>
              match expect ":"%char s3 with
              | None => None
              | Some s4 =>
                  match read_digits 2 s4 0 with
                  | None => None
                  | Some (sec, s5) =>
                      match read_fraction s5 with
                      | Some us => Some (h, mi, sec, us)
                      | None => None
                      end
                  end
              end
          end
      end
  end.

Definition read_iso (s : string) : option (Z * Z * Z * (Z * Z * Z * Z)) :=
  match read_digits 4 s 0 with
  | None => None
  | Some (y, s1) =>
  match expect "-"%char s1 with
  | None => None
  | Some s2 =>
  match read_digits 2 s2 0 with
  | None => None
  | Some (mo, s3) =>
  match expect "-"%char s3 with
  | None => None
  | Some s4 =>
  match read_digits 2 s4 0 with
  | None => None
  | Some (d, EmptyString) => Some (y, mo, d, (0, 0, 0, 0))
  | Some (d, String _ s5) =>
      match read_time s5 with
      | Some tm => Some (y, mo, d, tm)
      | None => None
      end
  end end end end end.

(** [datetime.fromisoformat(x)] on the naive layouts
    [YYYY-MM-DD[*HH[:MM[:SS[.fff[fff]]]]]]: the ones every Python since 3.7
    reads, among them every string [isoformat] produces. A non-[str]
    argument is a [TypeError]; text outside these layouts is taken as an
    "Invalid isoformat string" [ValueError] (UTC offsets, and the further
    layouts Python 3.11 reads, are outside this model). *)
Definition fromisoformat (x : json) : Res t :=
  match x with
  | JStr s =>
      match read_iso s with
      | Some (y, mo, d, (h, mi, sec, us)) => make y mo d h mi sec us
      | None => Raise (ValueError "Invalid isoformat string")
      end
  | _ => Raise TypeError
  end.

End Datetime.

(* ===================================================================== *)
(** ** The dataclasses *)
(* ===================================================================== *)

Module OAuth2Config.
Record t := mk {
  client_id : string;
  client_secret : string;
  authorization_url : string;
  token_url : string;
  redirect_uri : string;
  scope : string;
  service_name : string
}.
End OAuth2Config.

(** The fields hold whatever the token endpoint or the token file gave:
    any decoded value, [JNull] being [None]. *)
Module OAuth2Token.
Record t := mk {
  access_token : json;
  refresh_token : json;
  expires_at : option Datetime.t;
  token_type : json;
  scope : json
}.
End OAuth2Token.

(* ===================================================================== *)
(** ** The world the manager runs in *)
(* ===================================================================== *)

(** What [requests.post] comes back with: an exception of the transport
    (connection refused, timeout), or a response with its status code and
    its body as [response.json()] decodes it ([None]: not JSON). *)
Inductive http_outcome :=
  | TransportFailure
  | Response (status_code : Z) (body : option json).

(** A file holds a JSON document or text that [json.load] rejects. *)
Inductive file_content :=
  | Garbage (raw : string)
  | JsonDoc (doc : json).

Inductive loglevel := INFO | WARNING | ERROR.

(** What a log line interpolates besides the service name. *)
Inductive log_detail :=
  | NoDetail
  | Cause (e : exn)
  | Services (names : list string).

Inductive event :=
  | EvPost (url : string) (data : list (string * json)) (headers : list (string * string))
  | EvLog (level : loglevel) (msg : string) (detail : log_detail).

(** The inputs the module does not control: the answer to the [n]-th POST
    (counting from 0), the [n]-th reading of the clock, the [n]-th byte of
    [secrets] entropy, the [OAUTH2_TOKEN_STORE] variable, and which paths
    can be opened for writing. *)
Record Env := {
  env_http : nat -> string -> list (string * json) -> http_outcome;
  env_clock : nat -> Datetime.t;
  env_entropy : nat -> Z;
  env_token_store : option string;
  env_writable : string -> bool
}.

Definition loc := nat.

(** The attributes of an [OAuth2Manager] instance. [tokens] maps a service
    to a reference into the heap of token objects; [_code_verifiers] is
    [None] until [_store_code_verifier] first creates the attribute. *)
Record Manager := {
  tokens : list (string * loc);
  configs : gmap string OAuth2Config.t;
  token_store_path : string;
  _code_verifiers : option (gmap string string)
}.

Record State := {
  self : Manager;
  heap : list OAuth2Token.t;
  disk : gmap string file_content;
  trace : list event;          (* most recent first *)
  ticks : nat;                 (* clock readings taken *)
  drawn : nat;                 (* entropy bytes taken *)
  env : Env
}.

Definition with_self (f : Manager -> Manager) (st : State) : State :=
  {| self := f (self st); heap := heap st; disk := disk st; trace := trace st;
     ticks := ticks st; drawn := drawn st; env := env st |}.
Definition with_heap (f : list OAuth2Token.t -> list OAuth2Token.t) (st : State) : State :=
  {| self := self st; heap := f (heap st); disk := disk st; trace := trace st;
     ticks := ticks st; drawn := drawn st; env := env st |}.
Definition with_disk (f : gmap string file_content -> gmap string file_content) (st : State) : State :=
  {| self := self st; heap := heap st; disk := f (disk st); trace := trace st;
     ticks := ticks st; drawn := drawn st; env := env st |}.
Definition with_trace (f : list event -> list event) (st : State) : State :=
  {| self := self st; heap := heap st; disk := disk st; trace := f (trace st);
     ticks := ticks st; drawn := drawn st; env := env st |}.
Definition with_ticks (f : nat -> nat) (st : State) : State :=
  {| self := self st; heap := heap st; disk := disk st; trace := trace st;
     ticks := f (ticks st); drawn := drawn st; env := env st |}.
Definition with_drawn (f : nat -> nat) (st : State) : State :=
  {| self := self st; heap := heap st; disk := disk st; trace := trace st;
     ticks := ticks st; drawn := f (drawn st); env := env st |}.

Definition set_tokens (d : list (string * loc)) (m : Manager) : Manager :=
  {| tokens := d; configs := configs m; token_store_path := token_store_path m;
     _code_verifiers := _code_verifiers m |}.
Definition set_configs (c : gmap string OAuth2Config.t) (m : Manager) : Manager :=
  {| tokens := tokens m; configs := c; token_store_path := token_store_path m;
     _code_verifiers := _code_verifiers m |}.
Definition set_code_verifiers (v : option (gmap string string)) (m : Manager) : Manager :=
  {| tokens := tokens m; configs := configs m; token_store_path := token_store_path m;
     _code_verifiers := v |}.

(* ===================================================================== *)
(** ** Computations: state threaded through, exceptions propagated *)
(* ===================================================================== *)

(** A raised exception keeps the state reached so far, as in Python. *)
Definition M (A : Type) : Type := State -> Res A * State.

Definition ret {A} (a : A) : M A := fun st => (Ok a, st).
Definition raise {A} (e : exn) : M A := fun st => (Raise e, st).
Definition bind {A B} (m : M A) (k : A -> M B) : M B :=
  fun st => match m st with
            | (Ok a, st') => k a st'
            | (Raise e, st') => (Raise e, st')
            end.
Definition lift {A} (r : Res A) : M A := fun st => (r, st).
Definition gets {A} (f : State -> A) : M A := fun st => (Ok (f st), st).
Definition modify (f : State -> State) : M unit := fun st => (Ok tt, f st).

(** [try: body except <classes>: handler] *)
Definition try_except {A} (body : M A) (catches : exn -> bool) (handler : exn -> M A) : M A :=
  fun st => match body st with
            | (Raise e, st') => if catches e then handler e st' else (Raise e, st')
            | r => r
            end.

Declare Scope monad_scope.
Delimit Scope monad_scope with monad.
Notation "x <- m ;; k" := (bind m (fun x => k))
  (at level 100, m at next level, right associativity) : monad_scope.
Notation "m ;; k" := (bind m (fun _ => k))
  (at level 100, right associativity) : monad_scope.
Open Scope monad_scope.

(** [for x in xs: body(x)] *)
Fixpoint for_each {A} (xs : list A) (body : A -> M unit) : M unit :=
  match xs with
  | [] => ret tt
  | x :: xs' => body x ;; for_each xs' body
  end.

Definition any_exception (e : exn) : bool := true.

(** The effects. *)
Definition log (level : loglevel) (msg : string) (detail : log_detail) : M unit :=
  modify (with_trace (cons (EvLog level msg detail))).

Definition is_post (ev : event) : bool :=
  match ev with EvPost _ _ _ => true | _ => false end.

(** How many POST requests a trace records. *)
Definition posts (tr : list event) : nat := length (filter (fun ev => is_post ev = true) tr).

Definition form_headers : list (string * string) :=
  [("Content-Type", "application/x-www-form-urlencoded"); ("Accept", "application/json")].

(** [requests.post(url, data=data, headers=headers)] *)
Definition requests_post (url : string) (data : list (string * json)) : M http_outcome :=
  fun st =>
    let answer := env_http (env st) (posts (trace st)) url data in
    let st' := with_trace (cons (EvPost url data form_headers)) st in
    match answer with
    | TransportFailure => (Raise ConnectionError, st')
    | _ => (Ok answer, st')
    end.

(** The statuses [raise_for_status] refuses: client and server errors. *)
Definition error_status (status : Z) : bool := (400 <=? status) && (status <? 600).

(** [response.raise_for_status()] *)
Definition raise_for_status (r : http_outcome) : M unit :=
  match r with
  | Response status _ =>
      if error_status status then raise (HTTPError status) else ret tt
  | TransportFailure => raise ConnectionError
  end.

(** [response.json()] *)
Definition response_json (r : http_outcome) : M json :=
  match r with
  | Response _ (Some v) => ret v
  | _ => raise JSONDecodeError
  end.

(** [datetime.now()] *)
Definition datetime_now : M Datetime.t :=
  fun st => (Ok (env_clock (env st) (ticks st)), with_ticks S st).

(** [secrets.token_bytes(n)] *)
Definition token_bytes (n : nat) : M (list Z) :=
  fun st =>
    (Ok (map (fun i => env_entropy (env st) (drawn st + i)%nat mod 256) (seq 0 n)),
     with_drawn (fun d => (d + n)%nat) st).

(** [secrets.token_urlsafe(n)] *)
Definition token_urlsafe (n : nat) : M string :=
  raw <- token_bytes n ;;
  ret (Base64.b64url_nopad raw).

(** Allocation of a token object, and access through a reference. A
    reference the heap does not hold cannot arise from the methods below;
    the model reports it as an [AttributeError]. *)
Definition new_token (tok : OAuth2Token.t) : M loc :=
  fun st => (Ok (length (heap st)), with_heap (fun h => h ++ [tok]) st).

Definition deref (l : loc) : M OAuth2Token.t :=
  fun st => match heap st !! l with
            | Some tok => (Ok tok, st)
            | None => (Raise AttributeError, st)
            end.

Definition assign (l : loc) (f : OAuth2Token.t -> OAuth2Token.t) : M unit :=
  modify (with_heap (fun h => match h !! l with
                              | Some tok => <[l := f tok]> h
                              | None => h
                              end)).

(* ===================================================================== *)
(** ** class OAuth2Manager *)
(* ===================================================================== *)

Module OAuth2Manager.

Definition get_attr {A} (f : Manager -> A) : M A := gets (fun st => f (self st)).
Definition set_attr (f : Manager -> Manager) : M unit := modify (with_self f).

(** [with open(path, 'w') as f: json.dump(doc, f, indent=2)] *)
Definition write_json (path : string) (doc : json) : M unit :=
  fun st =>
    if env_writable (env st) path
    then (Ok tt, with_disk (insert path (JsonDoc doc)) st)
    else (Raise OSError, st).

(** [with open(path, 'r') as f: json.load(f)] *)
Definition read_json (path : string) : M json :=
  fun st =>
    match disk st !! path with
    | Some (JsonDoc doc) => (Ok doc, st)
    | Some (Garbage _) => (Raise JSONDecodeError, st)
    | None => (Raise OSError, st)
    end.

Definition opt_json {A} (f : A -> json) (o : option A) : json :=
  match o with Some a => f a | None => JNull end.

(** The record [_save_tokens] writes for one token. *)
Definition token_record (tok : OAuth2Token.t) : json :=
  JDict [ ("access_token", OAuth2Token.access_token tok);
          ("refresh_token", OAuth2Token.refresh_token tok);
          ("expires_at",
            opt_json (fun d => JStr (Datetime.isoformat d)) (OAuth2Token.expires_at tok));
          ("token_type", OAuth2Token.token_type tok);
          ("scope", OAuth2Token.scope tok) ].

Fixpoint serialize (items : list (string * loc)) (serializable : list (string * json))
  : M (list (string * json)) :=
  match items with
  | [] => ret serializable
  | (svc, l) :: rest =>
      tok <- deref l ;;
      serialize rest (Dict.set svc (token_record tok) serializable)
  end.

Definition _save_tokens : M unit :=
  path <- get_attr token_store_path ;;
  if negb (str_truthy path) then ret tt
  else
    try_except
      (items <- get_attr tokens ;;
       serializable <- serialize items [] ;;
       write_json path (JDict serializable))
      any_exception
      (fun e => log WARNING "Failed to save OAuth2 tokens: " (Cause e)).

(** The body of the loop of [_load_tokens] for one item of the file. *)
Definition load_entry (item : string * json) : M unit :=
  let '(svc, tok) := item in
  expires_at <- lift (py_get "expires_at" JNull tok) ;;
  access <- lift (py_get "access_token" JNull tok) ;;
  refresh <- lift (py_get "refresh_token" JNull tok) ;;
  expiry <- (if py_truthy expires_at
             then d <- lift (Datetime.fromisoformat expires_at) ;; ret (Some d)
             else ret None) ;;
  ttype <- lift (py_get "token_type" (JStr "Bearer") tok) ;;
  scope <- lift (py_get "scope" JNull tok) ;;
  l <- new_token (OAuth2Token.mk access refresh expiry ttype scope) ;;
  set_attr (fun m => set_tokens (Dict.set svc l (tokens m)) m).

Definition _load_tokens : M unit :=
  path <- get_attr token_store_path ;;
  present <- gets (fun st => disk st !! path) ;;
  if negb (str_truthy path) || negb (bool_decide (is_Some present)) then ret tt
  else
    try_except
      (data <- read_json path ;;
       items <- lift (py_items data) ;;
       for_each items load_entry ;;
       names <- get_attr (fun m => Dict.keys (tokens m)) ;;
       log INFO "Loaded persisted OAuth2 tokens for services: " (Services names))
      any_exception
      (fun e => log WARNING "Failed to load persisted OAuth2 tokens: " (Cause e)).

(** [token_store_path or os.getenv("OAUTH2_TOKEN_STORE", ".oauth_tokens.json")] *)
Definition resolve_store_path (token_store_path store : option string) : string :=
  match token_store_path with
  | Some p => if str_truthy p then p else default ".oauth_tokens.json" store
  | None => default ".oauth_tokens.json" store
  end.

(** [OAuth2Manager(token_store_path)]: a fresh instance replaces [self]. *)
Definition __init__ (token_store_path : option string) : M unit :=
  store <- gets (fun st => env_token_store (env st)) ;;
  let path := resolve_store_path token_store_path store in
  modify (with_self (fun _ =>
    {| tokens := []; configs := ∅; token_store_path := path; _code_verifiers := None |})) ;;
  _load_tokens.

Definition add_service_config (service_name : string) (config : OAuth2Config.t) : M unit :=
  set_attr (fun m => set_configs (<[service_name := config]> (configs m)) m).

(** The key [f"{service_name}:{state}"] of the verifier cache. *)
Definition verifier_key (service_name state : string) : string :=
  service_name +:+ ":" +:+ state.

Definition _store_code_verifier (service_name state code_verifier : string) : M unit :=
  set_attr (fun m =>
    set_code_verifiers
      (Some (<[verifier_key service_name state := code_verifier]>
               (default ∅ (_code_verifiers m)))) m).

Definition _get_code_verifier (service_name state : string) : M string :=
  cache <- get_attr _code_verifiers ;;
  match cache with
  | None => raise (ValueError "No code verifier found")
  | Some verifiers =>
      let key := verifier_key service_name state in
      match verifiers !! key with
      | None => raise (ValueError "Invalid state parameter")
      | Some v =>
          set_attr (set_code_verifiers (Some (delete key verifiers))) ;;
          ret v
      end
  end.

Definition not_configured (service_name : string) : exn :=
  ValueError ("Service " +:+ service_name +:+ " not configured").

(** The query parameters of the authorization request, in dict order. *)
Definition authorization_params (config : OAuth2Config.t) (state code_challenge : string)
  : list (string * string) :=
  [ ("response_type", "code");
    ("client_id", OAuth2Config.client_id config);
    ("redirect_uri", OAuth2Config.redirect_uri config);
    ("scope", OAuth2Config.scope config);
    ("state", state);
    ("code_challenge", code_challenge);
    ("code_challenge_method", "S256") ].

Definition generate_authorization_url (service_name : string) (state : option string)
  : M (string * string) :=
  cfgs <- get_attr configs ;;
  match cfgs !! service_name with
  | None => raise (not_configured service_name)
  | Some config =>
      state <- (match state with
                | Some s => if str_truthy s then ret s else token_urlsafe 32
                | None => token_urlsafe 32
                end) ;;
      raw <- token_bytes 32 ;;
      let code_verifier := Base64.b64url_nopad raw in
      let code_challenge :=
        Base64.b64url_nopad (SHA256.sha256 (str_encode code_verifier)) in
      let params := authorization_params config state code_challenge in
      _store_code_verifier service_name state code_verifier ;;
      ret (OAuth2Config.authorization_url config +:+ "?" +:+ UrlParse.urlencode params,
           state)
  end.

(** The lines both [exchange_code_for_token] and [refresh_token] spell out:
    [expires_at = None], then, if ['expires_in' in token_data],
    [datetime.now() + timedelta(seconds=int(token_data['expires_in']))]. *)
Definition compute_expires_at (token_data : json) : M (option Datetime.t) :=
  has <- lift (py_contains "expires_in" token_data) ;;
  if has : bool then
    now <- datetime_now ;;
    raw <- lift (py_getitem "expires_in" token_data) ;;
    seconds <- lift (py_int raw) ;;
    d <- lift (Datetime.add_seconds now seconds) ;;
    ret (Some d)
  else ret None.

(** The form [data] of the code exchange. *)
Definition authorization_code_grant (config : OAuth2Config.t)
    (authorization_code code_verifier : string) : list (string * json) :=
  [ ("grant_type", JStr "authorization_code");
    ("client_id", JStr (OAuth2Config.client_id config));
    ("client_secret", JStr (OAuth2Config.client_secret config));
    ("code", JStr authorization_code);
    ("redirect_uri", JStr (OAuth2Config.redirect_uri config));
    ("code_verifier", JStr code_verifier) ].

Definition exchange_code_for_token (service_name authorization_code state : string)
  : M loc :=
  cfgs <- get_attr configs ;;
  match cfgs !! service_name with
  | None => raise (not_configured service_name)
  | Some config =>
      code_verifier <- _get_code_verifier service_name state ;;
      let data := authorization_code_grant config authorization_code code_verifier in
      try_except
        (response <- requests_post (OAuth2Config.token_url config) data ;;
         raise_for_status response ;;
         token_data <- response_json response ;;
         expires_at <- compute_expires_at token_data ;;
         access <- lift (py_getitem "access_token" token_data) ;;
         refresh <- lift (py_get "refresh_token" JNull token_data) ;;
         ttype <- lift (py_get "token_type" (JStr "Bearer") token_data) ;;
         scope <- lift (py_get "scope" JNull token_data) ;;
         token <- new_token (OAuth2Token.mk access refresh expires_at ttype scope) ;;
         set_attr (fun m => set_tokens (Dict.set service_name token (tokens m)) m) ;;
         _save_tokens ;;
         log INFO ("Successfully obtained OAuth2 token for " +:+ service_name) NoDetail ;;
         ret token)
        is_RequestException
        (fun e =>
           log ERROR ("Failed to exchange code for token for " +:+ service_name +:+ ": ")
               (Cause e) ;;
           raise e)
  end.

Definition set_access_token (v : json) (tok : OAuth2Token.t) : OAuth2Token.t :=
  OAuth2Token.mk v (OAuth2Token.refresh_token tok) (OAuth2Token.expires_at tok)
                 (OAuth2Token.token_type tok) (OAuth2Token.scope tok).
Definition set_expires_at (v : option Datetime.t) (tok : OAuth2Token.t) : OAuth2Token.t :=
  OAuth2Token.mk (OAuth2Token.access_token tok) (OAuth2Token.refresh_token tok) v
                 (OAuth2Token.token_type tok) (OAuth2Token.scope tok).
Definition set_refresh_token (v : json) (tok : OAuth2Token.t) : OAuth2Token.t :=
  OAuth2Token.mk (OAuth2Token.access_token tok) v (OAuth2Token.expires_at tok)
                 (OAuth2Token.token_type tok) (OAuth2Token.scope tok).

(** The form [data] of the refresh. *)
Definition refresh_token_grant (config : OAuth2Config.t) (current_refresh_token : json)
  : list (string * json) :=
  [ ("grant_type", JStr "refresh_token");
    ("client_id", JStr (OAuth2Config.client_id config));
    ("client_secret", JStr (OAuth2Config.client_secret config));
    ("refresh_token", current_refresh_token) ].

Definition refresh_token (service_name : string) : M loc :=
  cfgs <- get_attr configs ;;
  match cfgs !! service_name with
  | None => raise (not_configured service_name)
  | Some config =>
      toks <- get_attr tokens ;;
      match Dict.get service_name toks with
      | None => raise (ValueError ("No token available for " +:+ service_name))
      | Some current_token =>
          tok <- deref current_token ;;
          if negb (py_truthy (OAuth2Token.refresh_token tok))
          then raise (ValueError ("No refresh token available for " +:+ service_name))
          else
            let data := refresh_token_grant config (OAuth2Token.refresh_token tok) in
            try_except
              (response <- requests_post (OAuth2Config.token_url config) data ;;
               raise_for_status response ;;
               token_data <- response_json response ;;
               expires_at <- compute_expires_at token_data ;;
               access <- lift (py_getitem "access_token" token_data) ;;
               assign current_token (set_access_token access) ;;
               assign current_token (set_expires_at expires_at) ;;
               has <- lift (py_contains "refresh_token" token_data) ;;
               (if has : bool then
                  fresh <- lift (py_getitem "refresh_token" token_data) ;;
                  assign current_token (set_refresh_token fresh)
                else ret tt) ;;
               log INFO ("Successfully refreshed OAuth2 token for " +:+ service_name) NoDetail ;;
               _save_tokens ;;
               ret current_token)
              is_RequestException
              (fun e =>
                 log ERROR ("Failed to refresh token for " +:+ service_name +:+ ": ")
                     (Cause e) ;;
                 raise e)
      end
  end.

Definition get_valid_token (service_name : string) : M (option loc) :=
  toks <- get_attr tokens ;;
  match Dict.get service_name toks with
  | None => ret None
  | Some token =>
      tok <- deref token ;;
      expired <- (match OAuth2Token.expires_at tok with
                  | None => ret false
                  | Some expiry => now <- datetime_now ;; ret (Datetime.ge now expiry)
                  end) ;;
      if expired : bool then
        try_except
          (t <- refresh_token service_name ;; ret (Some t))
          any_exception
          (fun e =>
             log ERROR ("Failed to refresh expired token for " +:+ service_name +:+ ": ")
                 (Cause e) ;;
             ret None)
      else ret (Some token)
  end.

Definition is_authenticated (service_name : string) : M bool :=
  token <- get_valid_token service_name ;;
  ret (match token with Some _ => true | None => false end).

Definition revoke_token (service_name : string) : M unit :=
  toks <- get_attr tokens ;;
  if Dict.mem service_name toks then
    set_attr (fun m => set_tokens (Dict.del service_name (tokens m)) m) ;;
    log INFO ("Revoked token for " +:+ service_name) NoDetail ;;
    _save_tokens
  else ret tt.

End OAuth2Manager.

(* ===================================================================== *)
(** ** class ServiceOAuth2Configs *)
(* ===================================================================== *)

Module ServiceOAuth2Configs.

Definition salesforce (client_id client_secret redirect_uri : string) (is_sandbox : bool)
  : OAuth2Config.t :=
  let base_url := if is_sandbox then "https://test.salesforce.com"
                  else "https://login.salesforce.com" in
  OAuth2Config.mk client_id client_secret
    (base_url +:+ "/services/oauth2/authorize")
    (base_url +:+ "/services/oauth2/token")
    redirect_uri "api refresh_token offline_access" "salesforce".

Definition shopify (client_id client_secret redirect_uri shop_domain : string)
  : OAuth2Config.t :=
  OAuth2Config.mk client_id client_secret
    ("https://" +:+ shop_domain +:+ "/admin/oauth/authorize")
    ("https://" +:+ shop_domain +:+ "/admin/oauth/access_token")
    redirect_uri
    "read_orders,write_orders,read_products,write_products,read_customers,write_customers"
    "shopify".

Definition hubspot (client_id client_secret redirect_uri : string) : OAuth2Config.t :=
  OAuth2Config.mk client_id client_secret
    "https://app.hubspot.com/oauth/authorize"
    "https://api.hubapi.com/oauth/v1/token"
    redirect_uri "contacts,crm.objects.contacts.read,crm.objects.contacts.write" "hubspot".

Definition slack (client_id client_secret redirect_uri : string) : OAuth2Config.t :=
  OAuth2Config.mk client_id client_secret
    "https://slack.com/oauth/v2/authorize"
    "https://slack.com/api/oauth.v2.access"
    redirect_uri "chat:write,channels:read,files:write" "slack".

Definition calendly (client_id client_secret redirect_uri : string) : OAuth2Config.t :=
  OAuth2Config.mk client_id client_secret
    "https://auth.calendly.com/oauth/authorize"
    "https://auth.calendly.com/oauth/token"
    redirect_uri "default" "calendly".

Definition zendesk (client_id client_secret redirect_uri subdomain : string)
  : OAuth2Config.t :=
  OAuth2Config.mk client_id client_secret
    ("https://" +:+ subdomain +:+ ".zendesk.com/oauth/authorizations/new")
    ("https://" +:+ subdomain +:+ ".zendesk.com/oauth/tokens")
    redirect_uri "read write" "zendesk".

End ServiceOAuth2Configs.

(* ===================================================================== *)
(** ** oauth2_integration.py: the callers of the manager *)
(* ===================================================================== *)

(** Truth value of an [Optional[str]]. *)
Definition opt_truthy (o : option string) : bool :=
  match o with Some s => str_truthy s | None => false end.

(** The string of an [Optional[str]] that was found truthy. *)
Definition opt_str (o : option string) : string := default EmptyString o.

(** The dataclass [OAuth2APIConfig]. Its field [oauth2_manager] is the
    manager object of the state: [default_factory=OAuth2Manager] builds it
    when the dataclass is instantiated. *)
Module OAuth2APIConfig.

Record t := mk {
  redirect_uri : string;
  crm_client_id : option string;
  crm_client_secret : option string;
  crm_is_sandbox : bool;
  crm_base_url : string;
  erp_api_key : option string;
  erp_client_id : option string;
  erp_base_url : option string;
  erp_db : option string;
  erp_username : option string;
  erp_password : option string;
  shopify_client_id : option string;
  shopify_client_secret : option string;
  shopify_shop_domain : option string;
  calendly_client_id : option string;
  calendly_client_secret : option string;
  learning_base_url : option string;
  learning_api_key : option string;
  hubspot_client_id : option string;
  hubspot_client_secret : option string;
  zendesk_client_id : option string;
  zendesk_client_secret : option string;
  zendesk_subdomain : option string;
  slack_client_id : option string;
  slack_client_secret : option string;
  slack_channel : string
}.

(** [if cond: body] *)
Definition when (cond : bool) (body : M unit) : M unit :=
  if cond then body else ret tt.

Definition setup_oauth2_configs (c : t) : M unit :=
  when (opt_truthy (crm_client_id c) && opt_truthy (crm_client_secret c))
    (OAuth2Manager.add_service_config "salesforce"
       (ServiceOAuth2Configs.salesforce (opt_str (crm_client_id c)) (opt_str (crm_client_secret c))
          (redirect_uri c +:+ "/salesforce") (crm_is_sandbox c))) ;;
  when (opt_truthy (shopify_client_id c) && opt_truthy (shopify_client_secret c)
        && opt_truthy (shopify_shop_domain c))
    (OAuth2Manager.add_service_config "shopify"
       (ServiceOAuth2Configs.shopify (opt_str (shopify_client_id c)) (opt_str (shopify_client_secret c))
          (redirect_uri c +:+ "/shopify") (opt_str (shopify_shop_domain c)))) ;;
  when (opt_truthy (hubspot_client_id c) && opt_truthy (hubspot_client_secret c))
    (OAuth2Manager.add_service_config "hubspot"
       (ServiceOAuth2Configs.hubspot (opt_str (hubspot_client_id c)) (opt_str (hubspot_client_secret c))
          (redirect_uri c +:+ "/hubspot"))) ;;
  when (opt_truthy (slack_client_id c) && opt_truthy (slack_client_secret c))
    (OAuth2Manager.add_service_config "slack"
       (ServiceOAuth2Configs.slack (opt_str (slack_client_id c)) (opt_str (slack_client_secret c))
          (redirect_uri c +:+ "/slack"))) ;;
  when (opt_truthy (calendly_client_id c) && opt_truthy (calendly_client_secret c))
    (OAuth2Manager.add_service_config "calendly"
       (ServiceOAuth2Configs.calendly (opt_str (calendly_client_id c)) (opt_str (calendly_client_secret c))
          (redirect_uri c +:+ "/calendly"))) ;;
  when (opt_truthy (zendesk_client_id c) && opt_truthy (zendesk_client_secret c)
        && opt_truthy (zendesk_subdomain c))
    (OAuth2Manager.add_service_config "zendesk"
       (ServiceOAuth2Configs.zendesk (opt_str (zendesk_client_id c)) (opt_str (zendesk_client_secret c))
          (redirect_uri c +:+ "/zendesk") (opt_str (zendesk_subdomain c)))).

(** [OAuth2APIConfig(...)] without an [oauth2_manager] argument: the
    default factory builds a manager, then [__post_init__] runs
    [setup_oauth2_configs]. *)
Definition __init__ (c : t) : M unit :=
  OAuth2Manager.__init__ None ;;
  setup_oauth2_configs c.

End OAuth2APIConfig.

(** class OAuth2BaseIntegration. An integration object is told by the
    [service_name] it was built with; its [config.oauth2_manager] is the
    manager of the state. *)
Module OAuth2BaseIntegration.

(** [format] renders a token field inside the f-string of the header:
    [str(v)], which for a [str] is the string itself. *)
Definition _get_oauth2_headers (format : json -> string) (service_name : string)
  : M (list (string * string)) :=
  token <- OAuth2Manager.get_valid_token service_name ;;
  match token with
  | None =>
      raise (ValueError ("No valid OAuth2 token for " +:+ service_name
                         +:+ ". Please authenticate first."))
  | Some l =>
      tok <- deref l ;;
      ret [ ("Authorization",
              format (OAuth2Token.token_type tok) +:+ " "
              +:+ format (OAuth2Token.access_token tok));
            ("Content-Type", "application/json") ]
  end.

Definition get_authorization_url (service_name : string) : M string :=
  issued <- OAuth2Manager.generate_authorization_url service_name None ;;
  ret (fst issued).

End OAuth2BaseIntegration.

(** class OAuth2SlackIntegration: [client] is the attribute [self.client],
    [WebClient] the constructor of the Slack SDK applied to the access
    token. *)
Module OAuth2SlackIntegration.

Definition _refresh_slack_client {C} (WebClient : json -> Res C) (client : option C)
  : M (option C) :=
  token <- OAuth2Manager.get_valid_token "slack" ;;
  match token with
  | Some l =>
      tok <- deref l ;;
      fresh <- lift (WebClient (OAuth2Token.access_token tok)) ;;
      ret (Some fresh)
  | None => ret client
  end.

End OAuth2SlackIntegration.

(** class OAuth2DashboardManager. The attribute [slack.client] is passed
    in and handed back by the methods that may replace it. *)
Module OAuth2DashboardManager.

(** The integrations, by the service each is built for. *)
Definition crm : string := "salesforce".
Definition store : string := "shopify".
Definition appointments : string := "calendly".
Definition marketing : string := "hubspot".
Definition support : string := "zendesk".
Definition slack : string := "slack".

(** The loop of [get_authorization_urls] over [(service_name, integration)]
    pairs, filling the dict [urls]. *)
Fixpoint collect_authorization_urls (services : list (string * string))
    (urls : list (string * string)) : M (list (string * string)) :=
  match services with
  | [] => ret urls
  | (service_name, integration) :: rest =>
      urls <- try_except
                (url <- OAuth2BaseIntegration.get_authorization_url integration ;;
                 ret (Dict.set service_name url urls))
                any_exception
                (fun e =>
                   log ERROR ("Failed to get auth URL for " +:+ service_name +:+ ": ")
                       (Cause e) ;;
                   ret urls) ;;
      collect_authorization_urls rest urls
  end.

Definition get_authorization_urls : M (list (string * string)) :=
  collect_authorization_urls
    [ ("salesforce", crm); ("shopify", store); ("calendly", appointments);
      ("hubspot", marketing); ("zendesk", support); ("slack", slack) ] [].

Definition complete_oauth2_flow {C} (WebClient : json -> Res C)
    (service_name authorization_code state : string) (slack_client : option C)
  : M (bool * option C) :=
  try_except
    (OAuth2Manager.exchange_code_for_token service_name authorization_code state ;;
     client <- (if String.eqb service_name "slack"
                then OAuth2SlackIntegration._refresh_slack_client WebClient slack_client
                else ret slack_client) ;;
     log INFO ("Successfully completed OAuth2 flow for " +:+ service_name) NoDetail ;;
     ret (true, client))
    any_exception
    (fun e =>
       log ERROR ("Failed to complete OAuth2 flow for " +:+ service_name +:+ ": ") (Cause e) ;;
       ret (false, slack_client)).

(** The dict comprehension of [get_authentication_status]. *)
Fixpoint authentication_status (services : list string) (status : list (string * bool))
  : M (list (string * bool)) :=
  match services with
  | [] => ret status
  | service :: rest =>
      ok <- OAuth2Manager.is_authenticated service ;;
      authentication_status rest (Dict.set service ok status)
  end.

Definition get_authentication_status : M (list (string * bool)) :=
  authentication_status ["salesforce"; "shopify"; "calendly"; "hubspot"; "zendesk"; "slack"] [].

End OAuth2DashboardManager.

(* ===================================================================== *)
(** ** What the specification talks about *)
(* ===================================================================== *)

(** The tokens a dict of references stands for, given the heap. *)
Definition view (h : list OAuth2Token.t) (toks : list (string * loc))
  : list (string * option OAuth2Token.t) :=
  map (fun kl => (fst kl, h !! snd kl)) toks.

(** The token set as an observer sees it: each service with the fields of
    the token object it refers to. *)
Definition token_set (st : State) : list (string * option OAuth2Token.t) :=
  view (heap st) (tokens (self st)).

(** The token on record for a service. *)
Definition stored_token (service_name : string) (st : State) : option OAuth2Token.t :=
  match Dict.get service_name (tokens (self st)) with
  | Some l => heap st !! l
  | None => None
  end.

(** The verifier cached for [(service, state)], if any. *)
Definition cached_verifier (service_name state : string) (st : State) : option string :=
  match _code_verifiers (self st) with
  | Some verifiers => verifiers !! OAuth2Manager.verifier_key service_name state
  | None => None
  end.

(** The error kinds of the specification, as the module raises them: all
    three are [ValueError]s told apart by their message. *)
Definition ConfigurationError (service_name : string) (e : exn) : Prop :=
  e = OAuth2Manager.not_configured service_name.

Definition StateMismatchError (e : exn) : Prop :=
  e = ValueError "Invalid state parameter" \/ e = ValueError "No code verifier found".

(** [TokenExchangeError]: what [exchange_code_for_token] lets out once the
    request has been sent: the [requests] exceptions, and the errors of
    reading the fields of the body. *)
Definition TokenExchangeError (e : exn) : Prop :=
  match e with
  | HTTPError _ | ConnectionError | JSONDecodeError => True
  | KeyError key => key = "access_token"
  | TypeError | OverflowError => True
  | ValueError msg =>
      msg = "invalid literal for int() with base 10"
      \/ msg = "cannot convert float NaN to integer"
      \/ msg = "datetime field out of range"
  | _ => False
  end.

(** A token response the module cannot read: not JSON, not an object, an
    object without [access_token], or one whose [expires_in] is not a
    number of seconds. *)
Definition malformed_body (body : option json) : Prop :=
  match body with
  | None => True
  | Some (JDict d) =>
      Dict.get "access_token" d = None
      \/ (exists v e, Dict.get "expires_in" d = Some v /\ py_int v = Raise e)
  | Some _ => True
  end.

(** Every reference of the token dict points into the heap, and the dict
    has one item per key: what holds of any Python dict of objects. *)
Definition well_formed (st : State) : Prop :=
  NoDup (Dict.keys (tokens (self st)))
  /\ Forall (fun kl => is_Some (heap st !! snd kl)) (tokens (self st)).

(** An expiry is a [datetime] its constructor accepts. *)
Definition expiry_valid (tok : OAuth2Token.t) : Prop :=
  match OAuth2Token.expires_at tok with
  | Some d => Datetime.valid d = true
  | None => True
  end.

Definition expiries_valid (st : State) : Prop :=
  Forall (fun e => match snd e with Some tok => expiry_valid tok | None => True end)
         (token_set st).

(** What holds of the token dict of every manager the methods can reach
    (proved below, method by method). *)
Definition invariant (st : State) : Prop := well_formed st /\ expiries_valid st.

(** The same, of a heap and a dict of references. *)
Definition dict_invariant (h : list OAuth2Token.t) (toks : list (string * loc)) : Prop :=
  NoDup (Dict.keys toks)
  /\ Forall (fun kl => is_Some (h !! snd kl)) toks
  /\ Forall (fun kl => match h !! snd kl with
                       | Some tok => expiry_valid tok
                       | None => True
                       end) toks.

(** [expiry] lies before the clock reading [now]. *)
Definition in_the_past (expiry now : Datetime.t) : Prop :=
  Datetime.compare expiry now = Lt.

(** The test of [get_valid_token]: an expiry is set and [now >= expiry]. *)
Definition token_expired (now : Datetime.t) (tok : OAuth2Token.t) : bool :=
  match OAuth2Token.expires_at tok with
  | Some expiry => Datetime.ge now expiry
  | None => false
  end.

(** The dict [_save_tokens] builds, when every reference is live. *)
Fixpoint serialized (h : list OAuth2Token.t) (items : list (string * loc))
    (acc : list (string * json)) : option (list (string * json)) :=
  match items with
  | [] => Some acc
  | (svc, l) :: rest =>
      match h !! l with
      | Some tok => serialized h rest (Dict.set svc (OAuth2Manager.token_record tok) acc)
      | None => None
      end
  end.

Definition save_warning (e : exn) : event :=
  EvLog WARNING "Failed to save OAuth2 tokens: " (Cause e).

(** The state [_save_tokens] leaves. *)
Definition saved (st : State) : State :=
  let path := token_store_path (self st) in
  if negb (str_truthy path) then st
  else match serialized (heap st) (tokens (self st)) [] with
       | Some d =>
           if env_writable (env st) path
           then with_disk (insert path (JsonDoc (JDict d))) st
           else with_trace (cons (save_warning OSError)) st
       | None => with_trace (cons (save_warning AttributeError)) st
       end.

(** The token file holds what [_save_tokens] writes for the current token
    set, whenever the store path is set and writable. *)
Definition persisted (st : State) : Prop :=
  let path := token_store_path (self st) in
  str_truthy path = true ->
  env_writable (env st) path = true ->
  forall d, serialized (heap st) (tokens (self st)) [] = Some d ->
            disk st !! path = Some (JsonDoc (JDict d)).

Definition record_item (p : string * OAuth2Token.t) : string * json :=
  (fst p, OAuth2Manager.token_record (snd p)).

(** What [load_entry] makes of the value stored for one service. *)
Definition read_entry (tok : json) : Res OAuth2Token.t :=
  match tok with
  | JDict d =>
      let expires_at := default JNull (Dict.get "expires_at" d) in
      match (if py_truthy expires_at
             then match Datetime.fromisoformat expires_at with
                  | Ok dt => Ok (Some dt)
                  | Raise e => Raise e
                  end
             else Ok None) with
      | Ok expiry =>
          Ok (OAuth2Token.mk (default JNull (Dict.get "access_token" d))
                             (default JNull (Dict.get "refresh_token" d))
                             expiry
                             (default (JStr "Bearer") (Dict.get "token_type" d))
                             (default JNull (Dict.get "scope" d)))
      | Raise e => Raise e
      end
  | _ => Raise AttributeError
  end.

Definition entry_token (tok : json) : option OAuth2Token.t :=
  match read_entry tok with Ok t => Some t | Raise _ => None end.

(** The loop of [_load_tokens] over the items of the file: the token dict
    and heap it reaches, and the exception that stopped it, if any. *)
Fixpoint load_all (items : list (string * json)) (toks : list (string * loc))
    (h : list OAuth2Token.t) : option exn * list (string * loc) * list OAuth2Token.t :=
  match items with
  | [] => (None, toks, h)
  | (svc, tok) :: rest =>
      match read_entry tok with
      | Ok t => load_all rest (Dict.set svc (length h) toks) (h ++ [t])
      | Raise e => (Some e, toks, h)
      end
  end.

(** Everything but the token dict and the heap is the same. *)
Definition same_elsewhere (st st' : State) : Prop :=
  configs (self st') = configs (self st)
  /\ token_store_path (self st') = token_store_path (self st)
  /\ _code_verifiers (self st') = _code_verifiers (self st)
  /\ disk st' = disk st /\ trace st' = trace st /\ ticks st' = ticks st
  /\ drawn st' = drawn st /\ env st' = env st.

(** What [_load_tokens] finds at the store path. *)
Definition file_items (st : State) : option (list (string * json)) :=
  let path := token_store_path (self st) in
  if str_truthy path then
    match disk st !! path with
    | Some (JsonDoc (JDict items)) => Some items
    | _ => None
    end
  else None.

(** What [compute_expires_at] returns for a body, the clock reading [now]. *)
Definition expiry_read (now : Datetime.t) (token_data : json) (expiry : option Datetime.t) : Prop :=
  (py_contains "expires_in" token_data = Ok false /\ expiry = None)
  \/ (py_contains "expires_in" token_data = Ok true
      /\ exists raw seconds d,
           py_getitem "expires_in" token_data = Ok raw
           /\ py_int raw = Ok seconds
           /\ Datetime.add_seconds now seconds = Ok d
           /\ expiry = Some d).

(** The token object after a successful refresh: access token and expiry
    from the response, the refresh token from the response when it has
    the field, token type and scope as they were. *)
Definition refreshed (tok : OAuth2Token.t) (token_data access : json)
    (expiry : option Datetime.t) : OAuth2Token.t :=
  OAuth2Token.mk access
    (match token_data with
     | JDict d => default (OAuth2Token.refresh_token tok) (Dict.get "refresh_token" d)
     | _ => OAuth2Token.refresh_token tok
     end)
    expiry (OAuth2Token.token_type tok) (OAuth2Token.scope tok).

(** The line [get_valid_token] logs when the refresh fails. *)
Definition refresh_failure_logged (service_name : string) (e : exn) : event :=
  EvLog ERROR ("Failed to refresh expired token for " +:+ service_name +:+ ": ") (Cause e).

(** A process that has just started: nothing on the heap or the disk. *)
Definition fresh_process (m : Manager) (e : Env) : State :=
  {| self := m; heap := []; disk := ∅; trace := []; ticks := 0; drawn := 0; env := e |}.

Definition no_manager : Manager :=
  {| tokens := []; configs := ∅; token_store_path := EmptyString; _code_verifiers := None |}.

(** A sample world: every POST gets [answer], the clock stands at [now],
    the entropy bytes count up, every path is writable. *)
Definition sample_env (answer : http_outcome) (now : Datetime.t) : Env :=
  {| env_http := fun _ _ _ => answer;
     env_clock := fun _ => now;
     env_entropy := fun n => Z.of_nat n;
     env_token_store := None;
     env_writable := fun _ => true |}.

Definition sample_config : OAuth2Config.t :=
  OAuth2Config.mk "cid" "sec" "https://auth.example.com/authorize"
    "https://auth.example.com/token" "http://localhost:8000/cb" "api" "svc".

Definition noon : Datetime.t := Datetime.mk 2024 1 1 12 0 0 0.

(** A token that expired a second before [noon], and one that never
    expires. *)
Definition stale_token : OAuth2Token.t :=
  OAuth2Token.mk (JStr "tok1") (JStr "ref1") (Some (Datetime.mk 2024 1 1 11 59 59 0))
                 (JStr "Bearer") JNull.

Definition lasting_token : OAuth2Token.t :=
  OAuth2Token.mk (JStr "tok1") (JStr "ref1") None (JStr "Bearer") JNull.

(** A manager configured for ["svc"] holding [tok] for it. *)
Definition authenticated (tok : OAuth2Token.t) (answer : http_outcome) : State :=
  {| self := {| tokens := [("svc", 0%nat)];
                configs := {[ "svc" := sample_config ]};
                token_store_path := ".oauth_tokens.json";
                _code_verifiers := None |};
     heap := [tok]; disk := ∅; trace := []; ticks := 0; drawn := 0;
     env := sample_env answer noon |}.

(** A manager configured for ["svc"] with an authorization pending under
    state ["xyz"]. *)
Definition pending (answer : http_outcome) : State :=
  fresh_process
    (set_code_verifiers (Some {[ "svc:xyz" := "verifier" ]})
       (set_configs {[ "svc" := sample_config ]} no_manager))
    (sample_env answer noon).

(** A process starting over a token file whose second entry is not an
    object. *)
Definition damaged_file : list (string * json) :=
  [ ("crm", JDict [("access_token", JStr "tok1"); ("expires_at", JNull)]);
    ("shop", JInt 5);
    ("chat", JDict [("access_token", JStr "tok3")]) ].

Definition restarting (doc : file_content) : State :=
  {| self := no_manager; heap := []; disk := {[ "tokens.json" := doc ]}; trace := [];
     ticks := 0; drawn := 0; env := sample_env TransportFailure noon |}.

(** A world that answers the POSTs and the clock readings from lists. *)
Definition scripted_env (answers : list http_outcome) (clock : list Datetime.t) : Env :=
  {| env_http := fun n _ _ => nth n answers TransportFailure;
     env_clock := fun n => nth n clock noon;
     env_entropy := fun n => Z.of_nat n;
     env_token_store := None;
     env_writable := fun _ => true |}.

Definition token_response : http_outcome :=
  Response 200 (Some (JDict [("access_token", JStr "tok1"); ("refresh_token", JStr "ref1");
                             ("expires_in", JInt 3600)])).

Definition refresh_response : http_outcome :=
  Response 200 (Some (JDict [("access_token", JStr "tok2"); ("expires_in", JInt 3600)])).

(** Register a config, ask for an authorization URL, exchange the code
    that comes back with the returned state, then ask for the token
    [checks] times. *)
Definition login_then_check (checks : nat) : M (bool * list (option loc)) :=
  OAuth2Manager.__init__ (Some "tokens.json") ;;
  OAuth2Manager.add_service_config "svc" sample_config ;;
  issued <- OAuth2Manager.generate_authorization_url "svc" None ;;
  OAuth2Manager.exchange_code_for_token "svc" "abc123" (snd issued) ;;
  ok <- OAuth2Manager.is_authenticated "svc" ;;
  seen <- (fix ask (n : nat) : M (list (option loc)) :=
             match n with
             | O => ret []
             | S n' => t <- OAuth2Manager.get_valid_token "svc" ;;
                       rest <- ask n' ;;
                       ret (t :: rest)
             end) checks ;;
  ret (ok, seen).

(** *** Further notions: tokens as issued, lifetimes, restarts *)

(** [p] holds of every character of [s]. *)
Fixpoint all_chars (p : ascii -> bool) (s : string) : bool :=
  match s with
  | EmptyString => true
  | String c s' => p c && all_chars p s'
  end.

(** A character of the URL-safe base64 alphabet. *)
Definition is_urlsafe_char (c : ascii) : bool := has_char c Base64.alphabet.

(** What 32 random bytes encode to: 43 characters of that alphabet. *)
Definition urlsafe_token (s : string) : Prop :=
  String.length s = 43%nat /\ all_chars is_urlsafe_char s = true.

(** The bytes [secrets.token_bytes(n)] returns when [from] bytes have been
    drawn before. *)
Definition entropy_bytes (e : Env) (from n : nat) : list Z :=
  map (fun i => env_entropy e (from + i)%nat mod 256) (seq 0 n).

(** The token object [exchange_code_for_token] builds from the object [d]
    of the response: the fields that are not there default to [None],
    the token type to ["Bearer"]. *)
Definition issued_token (d : list (string * json)) (access : json)
    (expiry : option Datetime.t) : OAuth2Token.t :=
  OAuth2Token.mk access (default JNull (Dict.get "refresh_token" d)) expiry
    (default (JStr "Bearer") (Dict.get "token_type" d))
    (default JNull (Dict.get "scope" d)).

(** What no method changes: the store path, the environment, and every
    file but the token store (no file at all when the store path is
    empty). *)
Definition store_frame (st st' : State) : Prop :=
  token_store_path (self st') = token_store_path (self st)
  /\ env st' = env st
  /\ (forall p, p <> token_store_path (self st) -> disk st' !! p = disk st !! p)
  /\ (str_truthy (token_store_path (self st)) = false -> disk st' = disk st).

(** A call of one of the public methods of a manager. *)
Inductive call :=
  | CallAddServiceConfig (service_name : string) (config : OAuth2Config.t)
  | CallGenerateAuthorizationUrl (service_name : string) (state : option string)
  | CallExchangeCodeForToken (service_name authorization_code state : string)
  | CallRefreshToken (service_name : string)
  | CallGetValidToken (service_name : string)
  | CallIsAuthenticated (service_name : string)
  | CallRevokeToken (service_name : string).

(** The state a call leaves behind, whether it returns or raises: a
    caller that catches the exception goes on from there. *)
Definition after (c : call) (st : State) : State :=
  match c with
  | CallAddServiceConfig service_name config =>
      snd (OAuth2Manager.add_service_config service_name config st)
  | CallGenerateAuthorizationUrl service_name state =>
      snd (OAuth2Manager.generate_authorization_url service_name state st)
  | CallExchangeCodeForToken service_name authorization_code state =>
      snd (OAuth2Manager.exchange_code_for_token service_name authorization_code state st)
  | CallRefreshToken service_name => snd (OAuth2Manager.refresh_token service_name st)
  | CallGetValidToken service_name => snd (OAuth2Manager.get_valid_token service_name st)
  | CallIsAuthenticated service_name => snd (OAuth2Manager.is_authenticated service_name st)
  | CallRevokeToken service_name => snd (OAuth2Manager.revoke_token service_name st)
  end.

(** The life of a manager: [OAuth2Manager(token_store_path)], then any
    calls of its methods, in any order. *)
Definition lifetime (token_store_path : option string) (calls : list call) (st : State) : State :=
  fold_left (fun st c => after c st) calls (snd (OAuth2Manager.__init__ token_store_path st)).

(** The token set the loop of [_load_tokens] reaches over the items of a
    file, told without the heap. *)
Fixpoint load_view (items : list (string * json)) (v : list (string * option OAuth2Token.t))
  : list (string * option OAuth2Token.t) :=
  match items with
  | [] => v
  | (svc, tok) :: rest =>
      match read_entry tok with
      | Ok t => load_view rest (Dict.set svc (Some t) v)
      | Raise _ => v
      end
  end.

(** What a call does to the token set and the token file: it leaves both
    alone, or it ends by saving a token set that satisfies the invariant. *)
Definition settles (st st' : State) : Prop :=
  (token_set st' = token_set st /\ disk st' = disk st)
  \/ (exists x, invariant x
        /\ token_store_path (self x) = token_store_path (self st)
        /\ env x = env st
        /\ token_set st' = token_set x
        /\ disk st' = disk (saved x)).

(** A restart would find the token set of [st]. *)
Definition durable (store_arg : option string) (st : State) : Prop :=
  token_set (snd (OAuth2Manager.__init__ store_arg st)) = token_set st.

(** The line [_load_tokens] logs: nothing when there is no store path or
    no file, a warning when the file cannot be read to the end, else the
    services loaded. *)
Definition load_report (st : State) (names : list string) : list event :=
  let path := token_store_path (self st) in
  if str_truthy path then
    match disk st !! path with
    | None => []
    | Some (Garbage _) =>
        [EvLog WARNING "Failed to load persisted OAuth2 tokens: " (Cause JSONDecodeError)]
    | Some (JsonDoc (JDict items)) =>
        match fst (fst (load_all items (tokens (self st)) (heap st))) with
        | None => [EvLog INFO "Loaded persisted OAuth2 tokens for services: " (Services names)]
        | Some e => [EvLog WARNING "Failed to load persisted OAuth2 tokens: " (Cause e)]
        end
    | Some (JsonDoc _) =>
        [EvLog WARNING "Failed to load persisted OAuth2 tokens: " (Cause AttributeError)]
    end
  else [].

(** [if cond: configs[k] = v] *)
Definition put (cond : bool) (k : string) (v : OAuth2Config.t)
    (m : gmap string OAuth2Config.t) : gmap string OAuth2Config.t :=
  if cond then <[k := v]> m else m.

(** The configs [ServiceOAuth2Configs] builds, for a shop domain or
    subdomain without [?] and [#]. *)
Inductive predefined : OAuth2Config.t -> Prop :=
  | predefined_salesforce client_id client_secret redirect_uri is_sandbox :
      predefined (ServiceOAuth2Configs.salesforce client_id client_secret redirect_uri is_sandbox)
  | predefined_shopify client_id client_secret redirect_uri shop_domain :
      has_char "?" shop_domain = false -> has_char "#" shop_domain = false ->
      predefined (ServiceOAuth2Configs.shopify client_id client_secret redirect_uri shop_domain)
  | predefined_hubspot client_id client_secret redirect_uri :
      predefined (ServiceOAuth2Configs.hubspot client_id client_secret redirect_uri)
  | predefined_slack client_id client_secret redirect_uri :
      predefined (ServiceOAuth2Configs.slack client_id client_secret redirect_uri)
  | predefined_calendly client_id client_secret redirect_uri :
      predefined (ServiceOAuth2Configs.calendly client_id client_secret redirect_uri)
  | predefined_zendesk client_id client_secret redirect_uri subdomain :
      has_char "?" subdomain = false -> has_char "#" subdomain = false ->
      predefined (ServiceOAuth2Configs.zendesk client_id client_secret redirect_uri subdomain).

(** What one URL of [get_authorization_urls] stands for: the
    authorization URL of the service's config, with the state and the
    challenge of a verifier now pending for (service, state). *)
Definition pending_authorization (st st' : State) (service_name url : string) : Prop :=
  exists config state verifier,
    configs (self st) !! service_name = Some config
    /\ cached_verifier service_name state st' = Some verifier
    /\ url = OAuth2Config.authorization_url config +:+ "?"
             +:+ UrlParse.urlencode
                   (OAuth2Manager.authorization_params config state
                      (Base64.b64url_nopad (SHA256.sha256 (str_encode verifier)))).

(* ===================================================================== *)
(** ** Dicts *)
(* ===================================================================== *)

Section DictFacts.
Context {V : Type}.
Implicit Types (d : list (string * V)) (k : string).

Lemma dict_mem_get k d : Dict.mem k d = true <-> is_Some (Dict.get k d).
Proof.
  unfold Dict.mem. destruct (Dict.get k d); split; intros H; eauto.
  - discriminate.
  - destruct H; discriminate.
Qed.

Lemma dict_get_del_eq k d : Dict.get k (Dict.del k d) = None.
Proof.
  induction d as [|[k' v] d IH]; simpl; [reflexivity|].
  destruct (String.eqb k' k) eqn:E; [exact IH|].
  simpl. rewrite E. exact IH.
Qed.

Lemma dict_get_del_ne k k' d : k <> k' -> Dict.get k' (Dict.del k d) = Dict.get k' d.
Proof.
  intros Hne. induction d as [|[k0 v] d IH]; simpl; [reflexivity|].
  destruct (String.eqb k0 k) eqn:E.
  - apply String.eqb_eq in E. subst k0.
    destruct (String.eqb k k') eqn:E'; [apply String.eqb_eq in E'; contradiction|].
    exact IH.
  - simpl. destruct (String.eqb k0 k'); [reflexivity | exact IH].
Qed.

Lemma dict_del_absent k d : Dict.get k d = None -> Dict.del k d = d.
Proof.
  induction d as [|[k' v] d IH]; simpl; [reflexivity|].
  destruct (String.eqb k' k); [discriminate|].
  intros H. rewrite (IH H). reflexivity.
Qed.

Lemma dict_get_set_eq k v d : Dict.get k (Dict.set k v d) = Some v.
Proof.
  induction d as [|[k' v'] d IH]; simpl.
  - rewrite String.eqb_refl. reflexivity.
  - destruct (String.eqb k' k) eqn:E; simpl; rewrite E; [reflexivity | exact IH].
Qed.

Lemma dict_get_set_ne k k' v d : k <> k' -> Dict.get k' (Dict.set k v d) = Dict.get k' d.
Proof.
  intros Hne. induction d as [|[k0 v0] d IH]; simpl.
  - destruct (String.eqb k k') eqn:E; [apply String.eqb_eq in E; contradiction | reflexivity].
  - destruct (String.eqb k0 k) eqn:E; simpl.
    + apply String.eqb_eq in E. subst k0.
      destruct (String.eqb k k') eqn:E'; [apply String.eqb_eq in E'; contradiction | reflexivity].
    + destruct (String.eqb k0 k'); [reflexivity | exact IH].
Qed.

Lemma dict_get_None_keys k d : Dict.get k d = None <-> ~ In k (Dict.keys d).
Proof.
  induction d as [|[k' v] d IH]; simpl.
  - split; [intros _ [] | reflexivity].
  - destruct (String.eqb k' k) eqn:E.
    + apply String.eqb_eq in E. split; [discriminate | intros H; exfalso; apply H; left; exact E].
    + apply String.eqb_neq in E. rewrite IH. split.
      * intros H [H1|H1]; [contradiction | exact (H H1)].
      * intros H H1. apply H. right. exact H1.
Qed.

(** Appending an item under a new key is what [d[k] = v] does. *)
Lemma dict_set_fresh k v d : Dict.get k d = None -> Dict.set k v d = d ++ [(k, v)].
Proof.
  induction d as [|[k' v'] d IH]; simpl; [reflexivity|].
  destruct (String.eqb k' k); [discriminate|].
  intros H. rewrite (IH H). reflexivity.
Qed.

Lemma dict_keys_set_present k v d :
  is_Some (Dict.get k d) -> Dict.keys (Dict.set k v d) = Dict.keys d.
Proof.
  induction d as [|[k' v'] d IH]; simpl.
  - intros [x Hx]. discriminate.
  - destruct (String.eqb k' k) eqn:E; [reflexivity|].
    intros H. unfold Dict.keys in *. simpl. f_equal. exact (IH H).
Qed.
End DictFacts.

(* ===================================================================== *)
(** ** Running computations *)
(* ===================================================================== *)

Lemma bind_ok {A B} (m : M A) (k : A -> M B) st a st1 :
  m st = (Ok a, st1) -> bind m k st = k a st1.
Proof. intros H. unfold bind. rewrite H. reflexivity. Qed.

Lemma bind_raise {A B} (m : M A) (k : A -> M B) st e st1 :
  m st = (Raise e, st1) -> bind m k st = (Raise e, st1).
Proof. intros H. unfold bind. rewrite H. reflexivity. Qed.

Lemma bind_inv {A B} (m : M A) (k : A -> M B) st r st' :
  bind m k st = (r, st') ->
  (exists a st1, m st = (Ok a, st1) /\ k a st1 = (r, st'))
  \/ (exists e, m st = (Raise e, st') /\ r = Raise e).
Proof.
  unfold bind. destruct (m st) as [[a|e] st1]; intros H.
  - left. eauto.
  - right. inversion H; subst. eauto.
Qed.

(** Unfolds the plumbing of the monad, leaving the methods folded. *)
Ltac mrun :=
  unfold OAuth2Manager.get_attr, OAuth2Manager.set_attr, bind, ret, raise, lift,
         gets, modify, try_except, log in *; simpl in *.

(** ** Persistence, in closed form *)

Lemma serialize_eq items acc st :
  OAuth2Manager.serialize items acc st =
  (match serialized (heap st) items acc with
   | Some d => Ok d
   | None => Raise AttributeError
   end, st).
Proof.
  revert acc. induction items as [|[svc l] rest IH]; intros acc; simpl; [reflexivity|].
  unfold bind, deref. destruct (heap st !! l) as [tok|]; [apply IH | reflexivity].
Qed.

Lemma save_tokens_eq st : OAuth2Manager._save_tokens st = (Ok tt, saved st).
Proof.
  unfold OAuth2Manager._save_tokens, saved. mrun.
  destruct (str_truthy (token_store_path (self st))); simpl; [|reflexivity].
  rewrite serialize_eq.
  destruct (serialized (heap st) (tokens (self st)) []) as [d|]; simpl; [|reflexivity].
  unfold OAuth2Manager.write_json.
  destruct (env_writable (env st) (token_store_path (self st))); reflexivity.
Qed.

Lemma saved_frame st :
  self (saved st) = self st /\ heap (saved st) = heap st /\ env (saved st) = env st
  /\ ticks (saved st) = ticks st /\ drawn (saved st) = drawn st
  /\ posts (trace (saved st)) = posts (trace st).
Proof.
  unfold saved.
  destruct (negb (str_truthy (token_store_path (self st)))); [tauto|].
  destruct (serialized (heap st) (tokens (self st)) []); [|simpl; tauto].
  destruct (env_writable (env st) (token_store_path (self st))); simpl; tauto.
Qed.

(** ** revoke_token *)

Lemma revoke_token_eq service_name st :
  OAuth2Manager.revoke_token service_name st =
  (Ok tt,
   if Dict.mem service_name (tokens (self st))
   then saved (with_trace (cons (EvLog INFO ("Revoked token for " +:+ service_name) NoDetail))
                 (with_self (fun m => set_tokens (Dict.del service_name (tokens m)) m) st))
   else st).
Proof.
  unfold OAuth2Manager.revoke_token. mrun.
  destruct (Dict.mem service_name (tokens (self st))); [|reflexivity].
  mrun. apply save_tokens_eq.
Qed.

Ltac each_ascii c :=
  destruct c as [[] [] [] [] [] [] [] []].

(** ** urlencode read back *)

Section UrlFacts.
Import UrlParse.

Lemma unquote_quote_char c t :
  unquote_plus (quote_char c +:+ t) = String c (unquote_plus t).
Proof. each_ascii c; reflexivity. Qed.

Lemma is_delimiter_cases x :
  is_delimiter x = true ->
  x = "&"%char \/ x = "="%char \/ x = "#"%char \/ x = "?"%char.
Proof.
  unfold is_delimiter. cbn [has_char]. rewrite !orb_true_iff, !Ascii.eqb_eq.
  intros [H | [H | [H | [H | H]]]]; auto. discriminate H.
Qed.

Lemma quote_char_clean c x : is_delimiter x = true -> has_char x (quote_char c) = false.
Proof.
  intros Hx. destruct (is_delimiter_cases x Hx) as [-> | [-> | [-> | ->]]];
    each_ascii c; reflexivity.
Qed.

Lemma has_char_app c a b : has_char c (a +:+ b) = has_char c a || has_char c b.
Proof. induction a as [|d a IH]; simpl; [reflexivity|]. rewrite IH. apply orb_assoc. Qed.

Lemma unquote_quote_plus s : unquote_plus (quote_plus s) = s.
Proof.
  induction s as [|c s IH]; [reflexivity|].
  cbn [quote_plus]. rewrite unquote_quote_char, IH. reflexivity.
Qed.

Lemma quote_plus_clean s x : is_delimiter x = true -> has_char x (quote_plus s) = false.
Proof.
  intros Hx. induction s as [|c s IH]; [reflexivity|].
  cbn [quote_plus]. rewrite has_char_app, IH, (quote_char_clean c x Hx). reflexivity.
Qed.

Lemma split_first_app sep a b :
  has_char sep a = false -> split_first sep (a +:+ String sep b) = (a, Some b).
Proof.
  induction a as [|c a IH]; simpl.
  - intros _. rewrite Ascii.eqb_refl. reflexivity.
  - intros H. apply orb_false_iff in H as [H1 H2]. rewrite H1, (IH H2). reflexivity.
Qed.

Lemma split_on_clean sep a : has_char sep a = false -> split_on sep a = [a].
Proof.
  induction a as [|c a IH]; simpl; [reflexivity|].
  intros H. apply orb_false_iff in H as [H1 H2]. rewrite H1, (IH H2). reflexivity.
Qed.

Lemma split_on_app sep a b :
  has_char sep a = false -> split_on sep (a +:+ String sep b) = a :: split_on sep b.
Proof.
  induction a as [|c a IH]; simpl.
  - intros _. rewrite Ascii.eqb_refl. reflexivity.
  - intros H. apply orb_false_iff in H as [H1 H2]. rewrite H1, (IH H2). reflexivity.
Qed.

Lemma encode_pair_clean kv x :
  is_delimiter x = true -> x <> "="%char -> has_char x (encode_pair kv) = false.
Proof.
  intros Hx Hne. unfold encode_pair. rewrite !has_char_app, !quote_plus_clean by exact Hx.
  cbn [has_char]. apply Ascii.eqb_neq in Hne. rewrite Ascii.eqb_sym, Hne. reflexivity.
Qed.

Lemma encode_pair_truthy kv : str_truthy (encode_pair kv) = true.
Proof. unfold encode_pair. destruct (quote_plus (fst kv)); reflexivity. Qed.

Lemma parse_encode_pair kv : parse_pair (encode_pair kv) = kv.
Proof.
  unfold parse_pair, encode_pair.
  change (quote_plus (fst kv) +:+ "=" +:+ quote_plus (snd kv))
    with (quote_plus (fst kv) +:+ String "="%char (quote_plus (snd kv))).
  rewrite split_first_app by (apply quote_plus_clean; reflexivity).
  destruct kv as [k v]. simpl. rewrite !unquote_quote_plus. reflexivity.
Qed.

Lemma split_join_encoded (l : list (string * string)) :
  l <> [] -> split_on "&" (join "&" (map encode_pair l)) = map encode_pair l.
Proof.
  induction l as [|kv l IH]; [congruence|]. intros _.
  destruct l as [|kv' l].
  - simpl. apply split_on_clean, encode_pair_clean; [reflexivity | discriminate].
  - change (join "&" (map encode_pair (kv :: kv' :: l)))
      with (encode_pair kv +:+ String "&" (join "&" (map encode_pair (kv' :: l)))).
    rewrite split_on_app by (apply encode_pair_clean; [reflexivity | discriminate]).
    rewrite IH by congruence. reflexivity.
Qed.

Lemma parse_qsl_urlencode (l : list (string * string)) : parse_qsl (urlencode l) = l.
Proof.
  unfold parse_qsl, urlencode.
  destruct l as [|kv l]; [reflexivity|].
  rewrite split_join_encoded by congruence.
  induction (kv :: l) as [|x xs IH]; [reflexivity|].
  simpl map at 1. rewrite filter_cons_True by apply encode_pair_truthy.
  simpl. rewrite parse_encode_pair. f_equal. exact IH.
Qed.

Lemma split_first_clean sep a : has_char sep a = false -> split_first sep a = (a, None).
Proof.
  induction a as [|c a IH]; simpl; [reflexivity|].
  intros H. apply orb_false_iff in H as [H1 H2]. rewrite H1, (IH H2). reflexivity.
Qed.

Lemma urlencode_clean l x :
  is_delimiter x = true -> x <> "="%char -> x <> "&"%char -> has_char x (urlencode l) = false.
Proof.
  intros Hx Heq Hamp. unfold urlencode.
  induction l as [|kv l IH]; [reflexivity|].
  destruct l as [|kv' l]; [apply encode_pair_clean; assumption|].
  change (join "&" (map encode_pair (kv :: kv' :: l)))
    with (encode_pair kv +:+ String "&" (join "&" (map encode_pair (kv' :: l)))).
  rewrite has_char_app, encode_pair_clean by assumption.
  cbn [has_char orb]. rewrite IH. apply Ascii.eqb_neq in Hamp.
  rewrite Ascii.eqb_sym, Hamp. reflexivity.
Qed.

(** A URL made of an endpoint without [?] and [#], a [?] and encoded
    parameters has these parameters as its query. *)
Lemma url_query_urlencode endpoint l :
  has_char "?" endpoint = false ->
  has_char "#" endpoint = false ->
  url_query (endpoint +:+ "?" +:+ urlencode l) = urlencode l.
Proof.
  intros Hq Hf. unfold url_query.
  rewrite (split_first_clean "#"%char).
  - change (endpoint +:+ "?" +:+ urlencode l) with (endpoint +:+ String "?" (urlencode l)).
    cbn [fst]. rewrite split_first_app by exact Hq. reflexivity.
  - rewrite !has_char_app, Hf, urlencode_clean by (reflexivity || discriminate). reflexivity.
Qed.

End UrlFacts.

(** ** Symbolic execution of a method *)

Lemma assign_eq l f st tok :
  heap st !! l = Some tok ->
  assign l f st = (Ok tt, with_heap (fun h => <[l := f tok]> h) st).
Proof. intros H. unfold assign, modify, with_heap. rewrite H. reflexivity. Qed.

Opaque assign.

(** [scrutinee t k] hands to [k] a scrutinee of [t] that scrutinises
    nothing itself: the test the run reaches first. *)
Ltac scrutinee t k :=
  lazymatch t with
  | context [match ?x with _ => _ end] => scrutinee x k
  | _ => k t
  end.

(** One step of a run: split on the test reached first. *)
Ltac step :=
  match goal with
  | |- context [match ?x with _ => _ end] =>
      scrutinee x ltac:(fun y => destruct y eqn:?)
  end.

Ltac heap_lookup :=
  simpl;
  first [ eassumption
        | rewrite list_lookup_insert_eq;
          [reflexivity | rewrite ?length_insert; eapply lookup_lt_Some; eassumption] ].

(** Replaces the runs of [_save_tokens] and of the assignments to a token
    object by their closed forms. *)
Ltac tidy :=
  repeat match goal with
  | H : OAuth2Manager._save_tokens _ = _ |- _ =>
      rewrite save_tokens_eq in H; inversion H; subst; clear H
  | H : assign _ _ _ = _ |- _ =>
      erewrite assign_eq in H by heap_lookup; inversion H; subst; clear H
  end.

(** Follows a run to its end, in the order the statements execute. *)
Ltac crunch := repeat (step; tidy; simpl).

Lemma posts_log level msg detail tr : posts (EvLog level msg detail :: tr) = posts tr.
Proof. reflexivity. Qed.

Lemma posts_post url data headers tr : posts (EvPost url data headers :: tr) = S (posts tr).
Proof. reflexivity. Qed.

Ltac use_saved :=
  try match goal with
  | |- context [saved ?X] =>
      let Hs := fresh "Hs" in
      let Hh := fresh "Hh" in
      let He := fresh "He" in
      let Ht := fresh "Ht" in
      let Hd := fresh "Hd" in
      let Hp := fresh "Hp" in
      destruct (saved_frame X) as (Hs & Hh & He & Ht & Hd & Hp);
      rewrite ?posts_log, ?Hs, ?Hh, ?He, ?Ht, ?Hd, ?Hp; clear Hs Hh He Ht Hd Hp
  end.

(** ** What reading a token response can raise *)

Lemma py_int_error v e : py_int v = Raise e -> TokenExchangeError e.
Proof.
  destruct v as [| | |[]| | |]; simpl; intros H; try (inversion H; subst; simpl; tauto).
  destruct (int_of_str s); inversion H; subst; simpl; tauto.
Qed.

Lemma add_seconds_error now n e : Datetime.add_seconds now n = Raise e -> TokenExchangeError e.
Proof.
  unfold Datetime.add_seconds, Datetime.make.
  repeat match goal with |- context [match ?x with _ => _ end] => destruct x end;
  intros H; inversion H; subst; simpl; tauto.
Qed.

Lemma py_contains_error k v e : py_contains k v = Raise e -> e = TypeError.
Proof. destruct v; simpl; congruence. Qed.

Lemma py_getitem_after_contains k v e :
  py_contains k v = Ok true -> py_getitem k v = Raise e -> e = TypeError.
Proof.
  destruct v; simpl; try congruence. unfold Dict.mem.
  destruct (Dict.get k d); congruence.
Qed.

Lemma py_getitem_error k v e : py_getitem k v = Raise e -> e = TypeError \/ e = KeyError k.
Proof. destruct v; simpl; try (intros [= <-]; tauto). destruct (Dict.get k d); intros [= <-]; tauto. Qed.

Lemma saved_trace st : exists evs, trace (saved st) = evs ++ trace st.
Proof.
  unfold saved.
  destruct (negb (str_truthy (token_store_path (self st)))); [by exists []|].
  destruct (serialized (heap st) (tokens (self st)) []); [|by eexists [_]].
  destruct (env_writable (env st) (token_store_path (self st))); [by exists [] | by eexists [_]].
Qed.

Lemma refresh_field_present k token_data (fresh old : json) :
  py_contains k token_data = Ok true ->
  py_getitem k token_data = Ok fresh ->
  match token_data with
  | JDict d => default old (Dict.get k d)
  | _ => old
  end = fresh.
Proof.
  destruct token_data; simpl; try discriminate.
  destruct (Dict.get k d); simpl; congruence.
Qed.

Lemma refresh_field_absent k token_data access (old : json) :
  py_getitem "access_token" token_data = Ok access ->
  py_contains k token_data = Ok false ->
  match token_data with
  | JDict d => default old (Dict.get k d)
  | _ => old
  end = old.
Proof.
  destruct token_data; simpl; try discriminate.
  unfold Dict.mem. destruct (Dict.get k d); simpl; congruence.
Qed.

Lemma py_contains_after_getitem k k' v a e :
  py_getitem k v = Ok a -> py_contains k' v = Raise e -> False.
Proof. destruct v; simpl; discriminate. Qed.

Lemma py_getitem_present k v e :
  py_getitem "access_token" v = Ok e -> py_contains k v = Ok true ->
  exists x, py_getitem k v = Ok x.
Proof.
  destruct v; simpl; try discriminate. unfold Dict.mem.
  destruct (Dict.get k d); [eauto | discriminate].
Qed.

Ltac raised :=
  simpl;
  match goal with
  | |- True => exact I
  | H : py_int _ = Raise ?e |- TokenExchangeError ?e => exact (py_int_error _ _ H)
  | H : Datetime.add_seconds _ _ = Raise ?e |- TokenExchangeError ?e =>
      exact (add_seconds_error _ _ _ H)
  | H : py_contains _ _ = Raise ?e |- TokenExchangeError ?e =>
      rewrite (py_contains_error _ _ _ H); exact I
  | H1 : py_contains ?k ?v = Ok true, H : py_getitem ?k ?v = Raise ?e |- TokenExchangeError ?e =>
      rewrite (py_getitem_after_contains _ _ _ H1 H); exact I
  | H : py_getitem "access_token" _ = Raise ?e |- TokenExchangeError ?e =>
      destruct (py_getitem_error _ _ _ H) as [-> | ->]; simpl; solve [exact I | reflexivity]
  | H1 : py_getitem _ ?v = Ok _, H : py_get _ _ ?v = Raise _ |- _ =>
      destruct v; simpl in *; discriminate
  end.

(** ** exchange_code_for_token, once the verifier is found *)

Lemma exchange_outcome svc code state st config v :
  configs (self st) !! svc = Some config ->
  cached_verifier svc state st = Some v ->
  let out := env_http (env st) (posts (trace st)) (OAuth2Config.token_url config)
               (OAuth2Manager.authorization_code_grant config code v) in
  let '(r, st') := OAuth2Manager.exchange_code_for_token svc code state st in
  configs (self st') = configs (self st)
  /\ cached_verifier svc state st' = None
  /\ env st' = env st
  /\ posts (trace st') = S (posts (trace st))
  /\ match r with
     | Raise e =>
         tokens (self st') = tokens (self st) /\ heap st' = heap st /\ disk st' = disk st
         /\ TokenExchangeError e
     | Ok l =>
         exists status token_data tok,
           out = Response status (Some token_data)
           /\ error_status status = false
           /\ py_getitem "access_token" token_data = Ok (OAuth2Token.access_token tok)
           /\ expiry_read (env_clock (env st) (ticks st)) token_data (OAuth2Token.expires_at tok)
           /\ l = length (heap st)
           /\ heap st' = heap st ++ [tok]
           /\ tokens (self st') = Dict.set svc l (tokens (self st))
     end.
Proof.
  intros Hcfg Hv.
  unfold cached_verifier in Hv.
  destruct (_code_verifiers (self st)) as [verifiers|] eqn:Hcache; [|discriminate].
  unfold OAuth2Manager.exchange_code_for_token. mrun. rewrite Hcfg.
  unfold OAuth2Manager._get_code_verifier. mrun. rewrite Hcache, Hv. simpl.
  unfold requests_post. simpl.
  unfold OAuth2Manager.compute_expires_at, raise_for_status, response_json, datetime_now, new_token. mrun.
  crunch.
  all: unfold cached_verifier; simpl; use_saved; simpl.
  all: (split; [reflexivity|]).
  all: (split; [apply lookup_delete_eq|]).
  all: (split; [reflexivity|]).
  all: (split; [reflexivity|]).
  all: try (repeat (split; [reflexivity|]); raised).
  all: eexists _, _, (OAuth2Token.mk _ _ _ _ _); simpl.
  all: repeat (split; [solve [reflexivity | eassumption]|]).
  all: (split; [|repeat split; reflexivity]).
  - right. split; [assumption|]. eauto 10.
  - left. split; [assumption | reflexivity].
Qed.

(** ** exchange_code_for_token, before the request *)

Lemma exchange_missing_verifier service_name code state st :
  is_Some (configs (self st) !! service_name) ->
  cached_verifier service_name state st = None ->
  exists e,
    OAuth2Manager.exchange_code_for_token service_name code state st = (Raise e, st)
    /\ StateMismatchError e.
Proof.
  intros [config Hcfg] Hnone. unfold cached_verifier in Hnone.
  unfold OAuth2Manager.exchange_code_for_token. mrun. rewrite Hcfg.
  unfold OAuth2Manager._get_code_verifier. mrun.
  destruct (_code_verifiers (self st)) as [verifiers|]; simpl.
  - rewrite Hnone. simpl. eexists. split; [reflexivity | left; reflexivity].
  - eexists. split; [reflexivity | right; reflexivity].
Qed.

Lemma exchange_unconfigured service_name code state st :
  configs (self st) !! service_name = None ->
  OAuth2Manager.exchange_code_for_token service_name code state st
  = (Raise (OAuth2Manager.not_configured service_name), st).
Proof.
  intros Hcfg. unfold OAuth2Manager.exchange_code_for_token. mrun. rewrite Hcfg. reflexivity.
Qed.

(** ** refresh_token, once a refresh token is found *)

Lemma refresh_outcome svc st config l tok :
  configs (self st) !! svc = Some config ->
  Dict.get svc (tokens (self st)) = Some l ->
  heap st !! l = Some tok ->
  py_truthy (OAuth2Token.refresh_token tok) = true ->
  let data := OAuth2Manager.refresh_token_grant config (OAuth2Token.refresh_token tok) in
  let out := env_http (env st) (posts (trace st)) (OAuth2Config.token_url config) data in
  let '(r, st') := OAuth2Manager.refresh_token svc st in
  self st' = self st
  /\ env st' = env st
  /\ posts (trace st') = S (posts (trace st))
  /\ (exists evs, trace st' = evs ++ EvPost (OAuth2Config.token_url config) data form_headers :: trace st)
  /\ match r with
     | Raise e => heap st' = heap st /\ disk st' = disk st
     | Ok l' =>
         exists status token_data access expiry,
           out = Response status (Some token_data)
           /\ error_status status = false
           /\ py_getitem "access_token" token_data = Ok access
           /\ expiry_read (env_clock (env st) (ticks st)) token_data expiry
           /\ l' = l
           /\ heap st' = <[l := refreshed tok token_data access expiry]> (heap st)
           /\ exists st2, heap st2 = heap st' /\ self st2 = self st /\ disk st2 = disk st
                /\ env st2 = env st /\ st' = saved st2
     end.
Proof.
  intros Hcfg Htok Hheap Hrt.
  unfold OAuth2Manager.refresh_token. mrun. rewrite Hcfg, Htok.
  unfold deref. simpl. rewrite Hheap, Hrt. simpl.
  unfold requests_post. simpl.
  unfold OAuth2Manager.compute_expires_at, raise_for_status, response_json, datetime_now. mrun.
  crunch.
  all: try match goal with
       | H1 : py_getitem _ ?v = Ok _, H : py_contains _ ?v = Raise _ |- _ =>
           exfalso; exact (py_contains_after_getitem _ _ _ _ _ H1 H)
       | H1 : py_getitem "access_token" ?v = Ok _, H2 : py_contains ?k ?v = Ok true,
         H : py_getitem ?k ?v = Raise _ |- _ =>
           exfalso; destruct (py_getitem_present _ _ _ H1 H2) as [? ?]; congruence
       end.
  all: rewrite ?list_insert_insert_eq.
  all: try match goal with
       | |- context [saved ?X] => destruct (saved_trace X) as [evs Hevs]; simpl in Hevs
       end.
  all: use_saved; simpl.
  all: (split; [reflexivity|]).
  all: (split; [reflexivity|]).
  all: (split; [reflexivity|]).
  all: try (split; [first [ by exists [] | by eexists [_] | by eexists [_; _]
                      | rewrite Hevs; eexists (_ ++ [_]); rewrite <- app_assoc; reflexivity ]|]).
  all: try (split; reflexivity).
  all: eexists status_code, j, _, _.
  all: (split; [reflexivity|]); (split; [assumption|]); (split; [eassumption|]).
  all: (split; [first [ left; split; [assumption | reflexivity]
                      | right; split; [assumption | eauto 10] ]|]).
  all: (split; [reflexivity|]).
  all: rewrite ?list_insert_insert_eq.
  all: (split; [f_equal; unfold refreshed, OAuth2Manager.set_refresh_token,
                  OAuth2Manager.set_expires_at, OAuth2Manager.set_access_token;
                simpl; f_equal; symmetry;
                first [ eapply refresh_field_present; eassumption
                      | eapply refresh_field_absent; eassumption ]|]).
  all: eexists; (split; [|split; [|split; [|split; [|reflexivity]]]]); simpl;
       rewrite ?list_insert_insert_eq; reflexivity.
Qed.

(** ** ISO timestamps read back *)

Section DatetimeFacts.
Import Datetime.


Lemma digit_value_digit n : digit_value (digit n) = Some (n mod 10).
Proof.
  unfold digit. pose proof (Z.mod_pos_bound n 10 ltac:(lia)) as Hk.
  remember (n mod 10) as k eqn:Ek. clear Ek.
  assert (Hc : k = 0 \/ k = 1 \/ k = 2 \/ k = 3 \/ k = 4 \/ k = 5 \/ k = 6 \/ k = 7
               \/ k = 8 \/ k = 9) by lia.
  repeat (destruct Hc as [-> | Hc]; [reflexivity|]). subst k. reflexivity.
Qed.

Lemma read_digits_2 n rest :
  0 <= n < 100 -> read_digits 2 (digits_onto 2 n rest) 0 = Some (n, rest).
Proof.
  intros Hn. cbn [digits_onto read_digits]. rewrite !digit_value_digit.
  cbn [read_digits]. do 2 f_equal. Z.div_mod_to_equations. lia.
Qed.

Lemma read_digits_4 n rest :
  0 <= n < 10000 -> read_digits 4 (digits_onto 4 n rest) 0 = Some (n, rest).
Proof.
  intros Hn. cbn [digits_onto read_digits]. rewrite !digit_value_digit.
  cbn [read_digits]. do 2 f_equal. Z.div_mod_to_equations. lia.
Qed.

Lemma read_digits_6 n rest :
  0 <= n < 1000000 -> read_digits 6 (digits_onto 6 n rest) 0 = Some (n, rest).
Proof.
  intros Hn. cbn [digits_onto read_digits]. rewrite !digit_value_digit.
  cbn [read_digits]. do 2 f_equal. Z.div_mod_to_equations. lia.
Qed.

Lemma days_in_month_le y m : days_in_month y m <= 31.
Proof. unfold days_in_month. repeat match goal with |- context [if ?b then _ else _] => destruct b end; lia. Qed.

Lemma fromisoformat_isoformat d :
  valid d = true -> fromisoformat (JStr (isoformat d)) = Ok d.
Proof.
  destruct d as [y mo dd h mi s us]. unfold valid, fields_ok. cbn [year month day hour minute second microsecond].
  intros Hv. pose proof Hv as Hok.
  repeat (apply andb_true_iff in Hv as [Hv ?]).
  repeat match goal with H : (_ <=? _) = true |- _ => apply Z.leb_le in H end.
  pose proof (days_in_month_le y mo).
  unfold fromisoformat, isoformat, read_iso.
  cbn [year month day hour minute second microsecond].
  rewrite read_digits_4 by lia. cbn [expect]. rewrite Ascii.eqb_refl.
  rewrite read_digits_2 by lia. cbn [expect]. rewrite Ascii.eqb_refl.
  rewrite read_digits_2 by lia.
  unfold read_time.
  rewrite read_digits_2 by lia. cbn [expect]. rewrite Ascii.eqb_refl.
  rewrite read_digits_2 by lia. cbn [expect]. rewrite Ascii.eqb_refl.
  rewrite read_digits_2 by lia.
  unfold make.
  destruct (us =? 0) eqn:Hus.
  - apply Z.eqb_eq in Hus. subst us. cbn [read_fraction]. unfold fields_ok. rewrite Hok. reflexivity.
  - cbn [read_fraction]. rewrite Ascii.eqb_refl. rewrite read_digits_6 by lia.
    unfold fields_ok. rewrite Hok. reflexivity.
Qed.

End DatetimeFacts.

(** ** refresh_token, whatever the state *)

Lemma refresh_early_failure svc st :
  (configs (self st) !! svc = None
   \/ Dict.get svc (tokens (self st)) = None
   \/ (exists l, Dict.get svc (tokens (self st)) = Some l
         /\ match heap st !! l with
            | Some tok => py_truthy (OAuth2Token.refresh_token tok) = false
            | None => True
            end)) ->
  exists e, OAuth2Manager.refresh_token svc st = (Raise e, st).
Proof.
  intros H. unfold OAuth2Manager.refresh_token. mrun.
  destruct (configs (self st) !! svc) as [config|]; [|eauto].
  destruct (Dict.get svc (tokens (self st))) as [l|] eqn:Hl; [|eauto].
  unfold deref. simpl.
  destruct H as [H | [H | (l' & Hl' & H)]]; try discriminate.
  inversion Hl'; subst l'.
  destruct (heap st !! l) as [tok|]; [|eauto].
  rewrite H. simpl. eauto.
Qed.

Lemma refresh_cases svc st :
  (exists e, OAuth2Manager.refresh_token svc st = (Raise e, st))
  \/ (exists config l tok,
        configs (self st) !! svc = Some config
        /\ Dict.get svc (tokens (self st)) = Some l
        /\ heap st !! l = Some tok
        /\ py_truthy (OAuth2Token.refresh_token tok) = true).
Proof.
  destruct (configs (self st) !! svc) as [config|] eqn:Hc;
    [|left; apply refresh_early_failure; auto].
  destruct (Dict.get svc (tokens (self st))) as [l|] eqn:Hl;
    [|left; apply refresh_early_failure; auto].
  destruct (heap st !! l) as [tok|] eqn:Hh;
    [|left; apply refresh_early_failure; right; right; exists l; rewrite Hh; auto].
  destruct (py_truthy (OAuth2Token.refresh_token tok)) eqn:Ht;
    [|left; apply refresh_early_failure; right; right; exists l; rewrite Hh; auto].
  right. eauto 10.
Qed.

Lemma refresh_failure_atomic svc st e st' :
  OAuth2Manager.refresh_token svc st = (Raise e, st') ->
  self st' = self st /\ heap st' = heap st /\ disk st' = disk st /\ env st' = env st
  /\ (posts (trace st') <= S (posts (trace st)))%nat.
Proof.
  intros Hrun.
  destruct (refresh_cases svc st) as [(e' & He) | (config & l & tok & Hc & Hl & Hh & Ht)].
  - rewrite He in Hrun. inversion Hrun; subst. repeat split; lia.
  - pose proof (refresh_outcome svc st config l tok Hc Hl Hh Ht) as H. simpl in H.
    rewrite Hrun in H. destruct H as (Hs & He & Hp & _ & Hheap & Hdisk).
    repeat split; try assumption. lia.
Qed.

Lemma refresh_success svc st l st' :
  OAuth2Manager.refresh_token svc st = (Ok l, st') ->
  exists config tok status token_data access expiry st2,
    configs (self st) !! svc = Some config
    /\ Dict.get svc (tokens (self st)) = Some l
    /\ heap st !! l = Some tok
    /\ py_truthy (OAuth2Token.refresh_token tok) = true
    /\ env_http (env st) (posts (trace st)) (OAuth2Config.token_url config)
         (OAuth2Manager.refresh_token_grant config (OAuth2Token.refresh_token tok))
       = Response status (Some token_data)
    /\ error_status status = false
    /\ py_getitem "access_token" token_data = Ok access
    /\ expiry_read (env_clock (env st) (ticks st)) token_data expiry
    /\ self st' = self st
    /\ env st' = env st
    /\ posts (trace st') = S (posts (trace st))
    /\ (exists evs,
          trace st' = evs ++ EvPost (OAuth2Config.token_url config)
                               (OAuth2Manager.refresh_token_grant config
                                  (OAuth2Token.refresh_token tok))
                               form_headers :: trace st)
    /\ heap st' = <[l := refreshed tok token_data access expiry]> (heap st)
    /\ heap st2 = heap st' /\ self st2 = self st /\ disk st2 = disk st /\ env st2 = env st
    /\ st' = saved st2.
Proof.
  intros Hrun.
  destruct (refresh_cases svc st) as [(e' & He) | (config & l0 & tok & Hc & Hl & Hh & Ht)].
  - rewrite He in Hrun. discriminate.
  - pose proof (refresh_outcome svc st config l0 tok Hc Hl Hh Ht) as H. simpl in H.
    rewrite Hrun in H.
    destruct H as (Hs & He & Hp & Htr & status & td & access & expiry & Hout & Hok & Hacc & Hexp
                   & -> & Hheap & st2 & H1 & H2 & H3 & H4 & H5).
    exists config, tok, status, td, access, expiry, st2. repeat split; assumption.
Qed.

Lemma persisted_saved st : persisted (saved st).
Proof.
  unfold persisted. destruct (saved_frame st) as (Hs & Hh & He & _).
  rewrite Hs, Hh, He. intros Hpath Hw d Hd.
  unfold saved. rewrite Hpath, Hd, Hw. simpl. apply lookup_insert_eq.
Qed.

(** ** get_valid_token, case by case *)

Lemma get_valid_token_absent svc st :
  Dict.get svc (tokens (self st)) = None ->
  OAuth2Manager.get_valid_token svc st = (Ok None, st).
Proof. intros H. unfold OAuth2Manager.get_valid_token. mrun. rewrite H. reflexivity. Qed.

Lemma get_valid_token_no_expiry svc st l tok :
  Dict.get svc (tokens (self st)) = Some l ->
  heap st !! l = Some tok ->
  OAuth2Token.expires_at tok = None ->
  OAuth2Manager.get_valid_token svc st = (Ok (Some l), st).
Proof.
  intros Hl Hh He. unfold OAuth2Manager.get_valid_token. mrun. rewrite Hl.
  unfold deref. simpl. rewrite Hh, He. reflexivity.
Qed.

Lemma get_valid_token_current svc st l tok expiry :
  Dict.get svc (tokens (self st)) = Some l ->
  heap st !! l = Some tok ->
  OAuth2Token.expires_at tok = Some expiry ->
  Datetime.ge (env_clock (env st) (ticks st)) expiry = false ->
  OAuth2Manager.get_valid_token svc st = (Ok (Some l), with_ticks S st).
Proof.
  intros Hl Hh He Hge. unfold OAuth2Manager.get_valid_token. mrun. rewrite Hl.
  unfold deref, datetime_now. simpl. rewrite Hh, He. simpl. rewrite Hge. reflexivity.
Qed.

Lemma get_valid_token_expired svc st l tok expiry :
  Dict.get svc (tokens (self st)) = Some l ->
  heap st !! l = Some tok ->
  OAuth2Token.expires_at tok = Some expiry ->
  Datetime.ge (env_clock (env st) (ticks st)) expiry = true ->
  OAuth2Manager.get_valid_token svc st =
  match OAuth2Manager.refresh_token svc (with_ticks S st) with
  | (Ok t, st1) => (Ok (Some t), st1)
  | (Raise e, st1) => (Ok None, with_trace (cons (refresh_failure_logged svc e)) st1)
  end.
Proof.
  intros Hl Hh He Hge. unfold OAuth2Manager.get_valid_token. mrun. rewrite Hl.
  unfold deref, datetime_now. simpl. rewrite Hh, He. simpl. rewrite Hge.
  destruct (OAuth2Manager.refresh_token svc (with_ticks S st)) as [[t|e] st1]; reflexivity.
Qed.

(** ** Loading and saving the token file *)

Lemma same_elsewhere_refl st : same_elsewhere st st.
Proof. repeat split. Qed.

Lemma load_entry_eq svc tok st :
  OAuth2Manager.load_entry (svc, tok) st =
  match read_entry tok with
  | Ok t =>
      (Ok tt, with_self (fun m => set_tokens (Dict.set svc (length (heap st)) (tokens m)) m)
                (with_heap (fun h => h ++ [t]) st))
  | Raise e => (Raise e, st)
  end.
Proof.
  unfold OAuth2Manager.load_entry, read_entry. mrun.
  destruct tok; simpl; try reflexivity.
  destruct (py_truthy (default JNull (Dict.get "expires_at" d))); simpl; [|reflexivity].
  destruct (Datetime.fromisoformat (default JNull (Dict.get "expires_at" d))); reflexivity.
Qed.

Lemma for_each_load items st :
  exists st',
    for_each items OAuth2Manager.load_entry st =
      (match fst (fst (load_all items (tokens (self st)) (heap st))) with
       | None => Ok tt
       | Some e => Raise e
       end, st')
    /\ tokens (self st') = snd (fst (load_all items (tokens (self st)) (heap st)))
    /\ heap st' = snd (load_all items (tokens (self st)) (heap st))
    /\ same_elsewhere st st'.
Proof.
  revert st. induction items as [|[svc tok] rest IH]; intros st.
  - exists st. simpl. repeat split.
  - cbn [for_each load_all]. unfold bind. rewrite load_entry_eq.
    destruct (read_entry tok) as [t|e].
    + destruct (IH (with_self (fun m => set_tokens (Dict.set svc (length (heap st)) (tokens m)) m)
                      (with_heap (fun h => h ++ [t]) st))) as (st' & Hrun & Ht & Hh & Hs).
      exists st'. simpl in *. rewrite Hrun. repeat split; try tauto.
      all: destruct Hs as (? & ? & ? & ? & ? & ? & ? & ?); assumption.
    + exists st. simpl. repeat split.
Qed.

Lemma py_truthy_isoformat d : py_truthy (JStr (Datetime.isoformat d)) = true.
Proof. reflexivity. Qed.

Lemma read_entry_record tok :
  expiry_valid tok -> read_entry (OAuth2Manager.token_record tok) = Ok tok.
Proof.
  destruct tok as [a r [d|] t s]; unfold expiry_valid; intros Hv; [|reflexivity].
  cbn [OAuth2Token.expires_at] in Hv.
  unfold read_entry, OAuth2Manager.token_record, OAuth2Manager.opt_json.
  cbn -[Datetime.isoformat Datetime.fromisoformat py_truthy].
  rewrite py_truthy_isoformat, fromisoformat_isoformat by exact Hv. reflexivity.
Qed.

Lemma NoDup_app_cons_move {A} (xs : list A) x ys :
  NoDup (xs ++ x :: ys) -> NoDup ((xs ++ [x]) ++ ys) /\ ~ In x xs.
Proof.
  intros H. split.
  - rewrite <- app_assoc. exact H.
  - apply NoDup_app in H as (_ & H & _). intros Hin. apply list_elem_of_In in Hin.
    apply (H x Hin). left.
Qed.

Lemma serialized_records h items pairs acc :
  Forall2 (fun kl p => fst kl = fst p /\ h !! snd kl = Some (snd p)) items pairs ->
  NoDup (Dict.keys acc ++ map fst pairs) ->
  serialized h items acc = Some (acc ++ map record_item pairs).
Proof.
  intros HF. revert acc. induction HF as [|[svc l] [svc' tok] items pairs [Hk Hl] HF IH];
    intros acc Hnd; simpl.
  - rewrite app_nil_r. reflexivity.
  - simpl in Hk, Hl. subst svc'. rewrite Hl. simpl in Hnd.
    apply NoDup_app_cons_move in Hnd as [Hnd Hfresh].
    rewrite dict_set_fresh by (apply dict_get_None_keys; exact Hfresh).
    rewrite IH.
    + rewrite <- app_assoc. reflexivity.
    + unfold Dict.keys in *. rewrite map_app. exact Hnd.
Qed.

Lemma view_app h toks toks' : view h (toks ++ toks') = view h toks ++ view h toks'.
Proof. unfold view. apply map_app. Qed.

Lemma view_extend h extra toks :
  Forall (fun kl => (snd kl < length h)%nat) toks -> view (h ++ extra) toks = view h toks.
Proof.
  intros HF. unfold view. apply map_ext_in. intros [k l] Hin.
  rewrite Forall_forall in HF. specialize (HF (k, l)).
  simpl. rewrite lookup_app_l; [reflexivity|]. apply HF. apply list_elem_of_In. exact Hin.
Qed.

Lemma load_all_records pairs toks h :
  Forall (fun p => expiry_valid (snd p)) pairs ->
  NoDup (Dict.keys toks ++ map fst pairs) ->
  Forall (fun kl => (snd kl < length h)%nat) toks ->
  exists toks' h',
    load_all (map record_item pairs) toks h = (None, toks', h')
    /\ view h' toks' = view h toks ++ map (fun p => (fst p, Some (snd p))) pairs.
Proof.
  revert toks h. induction pairs as [|[svc tok] pairs IH]; intros toks h Hv Hnd Hlocs.
  - exists toks, h. simpl. rewrite app_nil_r. split; reflexivity.
  - cbn [map load_all]. unfold record_item at 1. cbn [fst snd].
    apply Forall_cons in Hv as [Hv1 Hv]. cbn [snd] in Hv1.
    rewrite read_entry_record by exact Hv1.
    cbn [map fst] in Hnd. apply NoDup_app_cons_move in Hnd as [Hnd Hfresh].
    rewrite dict_set_fresh by (apply dict_get_None_keys; exact Hfresh).
    destruct (IH (toks ++ [(svc, length h)]) (h ++ [tok])) as (toks' & h' & Hrun & Hview).
    + exact Hv.
    + unfold Dict.keys in *. rewrite map_app. exact Hnd.
    + apply Forall_app. split.
      * eapply Forall_impl; [exact Hlocs|]. intros kl Hkl. simpl in *. rewrite length_app. simpl. lia.
      * constructor; [|constructor]. simpl. rewrite length_app. simpl. lia.
    + exists toks', h'. split; [exact Hrun|]. rewrite Hview.
      rewrite view_app, view_extend by exact Hlocs.
      rewrite <- app_assoc. f_equal. simpl. f_equal.
      unfold view. simpl. rewrite list_lookup_middle by reflexivity. reflexivity.
Qed.

Lemma load_tokens_spec st :
  exists st',
    OAuth2Manager._load_tokens st = (Ok tt, st')
    /\ configs (self st') = configs (self st)
    /\ token_store_path (self st') = token_store_path (self st)
    /\ _code_verifiers (self st') = _code_verifiers (self st)
    /\ disk st' = disk st /\ env st' = env st
    /\ match file_items st with
       | Some items =>
           tokens (self st') = snd (fst (load_all items (tokens (self st)) (heap st)))
           /\ heap st' = snd (load_all items (tokens (self st)) (heap st))
       | None => tokens (self st') = tokens (self st) /\ heap st' = heap st
       end.
Proof.
  unfold OAuth2Manager._load_tokens, file_items. mrun.
  destruct (str_truthy (token_store_path (self st))); simpl;
    [|exists st; repeat split].
  destruct (disk st !! token_store_path (self st)) as [content|] eqn:Hfile; simpl;
    [|exists st; repeat split].
  unfold OAuth2Manager.read_json. rewrite Hfile.
  destruct content as [raw|doc]; simpl; [eexists; repeat split|].
  destruct doc; simpl; try (eexists; repeat split; fail).
  destruct (for_each_load d st) as (st1 & Hrun & Ht & Hh & Hs).
  rewrite Hrun.
  destruct Hs as (H1 & H2 & H3 & H4 & H5 & H6 & H7 & H8).
  destruct (fst (fst (load_all d (tokens (self st)) (heap st)))); simpl;
    eexists; (split; [reflexivity|]); simpl; repeat split; assumption.
Qed.

Lemma init_spec store_arg st :
  exists st',
    OAuth2Manager.__init__ store_arg st = (Ok tt, st')
    /\ configs (self st') = ∅
    /\ token_store_path (self st')
       = OAuth2Manager.resolve_store_path store_arg (env_token_store (env st))
    /\ _code_verifiers (self st') = None
    /\ disk st' = disk st /\ env st' = env st
    /\ let path := OAuth2Manager.resolve_store_path store_arg (env_token_store (env st)) in
       match (if str_truthy path then disk st !! path else None) with
       | Some (JsonDoc (JDict items)) =>
           tokens (self st') = snd (fst (load_all items [] (heap st)))
           /\ heap st' = snd (load_all items [] (heap st))
       | _ => tokens (self st') = [] /\ heap st' = heap st
       end.
Proof.
  unfold OAuth2Manager.__init__. mrun.
  match goal with |- context [OAuth2Manager._load_tokens ?X] =>
    destruct (load_tokens_spec X) as (st' & Hrun & H1 & H2 & H3 & H4 & H5 & H6)
  end.
  rewrite Hrun. exists st'. split; [reflexivity|]. simpl in *.
  repeat (split; [assumption|]).
  unfold file_items in H6. simpl in H6.
  destruct (str_truthy (OAuth2Manager.resolve_store_path store_arg (env_token_store (env st))));
    [|exact H6].
  destruct (disk st !! OAuth2Manager.resolve_store_path store_arg (env_token_store (env st)))
    as [[raw|[]]|]; exact H6.
Qed.

Lemma token_set_view st : token_set st = view (heap st) (tokens (self st)).
Proof. reflexivity. Qed.

Lemma load_all_good good tail toks h :
  Forall (fun it => is_Some (entry_token (snd it))) good ->
  NoDup (Dict.keys toks ++ map fst good) ->
  Forall (fun kl => (snd kl < length h)%nat) toks ->
  exists toks' h',
    load_all (good ++ tail) toks h = load_all tail toks' h'
    /\ view h' toks' = view h toks ++ map (fun it => (fst it, entry_token (snd it))) good.
Proof.
  revert toks h. induction good as [|[svc tok] good IH]; intros toks h Hv Hnd Hlocs.
  - exists toks, h. simpl. rewrite app_nil_r. split; reflexivity.
  - cbn [app load_all map fst snd].
    apply Forall_cons in Hv as [[t Ht] Hv]. cbn [snd] in Ht.
    unfold entry_token in Ht |- *. destruct (read_entry tok) as [t'|] eqn:Hread; [|discriminate].
    inversion Ht; subst t'. clear Ht.
    cbn [map fst] in Hnd. apply NoDup_app_cons_move in Hnd as [Hnd Hfresh].
    rewrite dict_set_fresh by (apply dict_get_None_keys; exact Hfresh).
    destruct (IH (toks ++ [(svc, length h)]) (h ++ [t])) as (toks' & h' & Hrun & Hview).
    + exact Hv.
    + unfold Dict.keys in *. rewrite map_app. exact Hnd.
    + apply Forall_app. split.
      * eapply Forall_impl; [exact Hlocs|]. intros kl Hkl. simpl in *. rewrite length_app. simpl. lia.
      * constructor; [|constructor]. simpl. rewrite length_app. simpl. lia.
    + exists toks', h'. split; [exact Hrun|]. rewrite Hview.
      rewrite view_app, view_extend by exact Hlocs.
      rewrite <- app_assoc. f_equal. cbn [app]. f_equal.
      unfold view. cbn [map fst snd]. rewrite list_lookup_middle by reflexivity.
      reflexivity.
Qed.

Lemma well_formed_pairs st :
  well_formed st ->
  exists pairs,
    Forall2 (fun kl p => fst kl = fst p /\ heap st !! snd kl = Some (snd p)) (tokens (self st)) pairs
    /\ token_set st = map (fun p => (fst p, Some (snd p))) pairs
    /\ map fst pairs = Dict.keys (tokens (self st)).
Proof.
  intros [_ Hlive]. unfold token_set, Dict.keys.
  induction (tokens (self st)) as [|[svc l] toks IH].
  - exists []. repeat split. constructor.
  - apply Forall_cons in Hlive as [[tok Htok] Hlive]. simpl in Htok.
    destruct (IH Hlive) as (pairs & HF & Hset & Hkeys).
    exists ((svc, tok) :: pairs). split; [|split].
    + constructor; [split; [reflexivity | exact Htok] | exact HF].
    + simpl. rewrite Htok, Hset. reflexivity.
    + simpl. rewrite Hkeys. reflexivity.
Qed.

(** ** The invariant of the token dict *)

Lemma dict_keys_set {V} k (v : V) d :
  Dict.keys (Dict.set k v d) = if Dict.mem k d then Dict.keys d else Dict.keys d ++ [k].
Proof.
  unfold Dict.mem. destruct (Dict.get k d) as [x|] eqn:Hget.
  - apply dict_keys_set_present. eauto.
  - rewrite dict_set_fresh by exact Hget. unfold Dict.keys. rewrite map_app. reflexivity.
Qed.

Lemma dict_keys_set_NoDup {V} k (v : V) d :
  NoDup (Dict.keys d) -> NoDup (Dict.keys (Dict.set k v d)).
Proof.
  intros Hnd. rewrite dict_keys_set. unfold Dict.mem.
  destruct (Dict.get k d) eqn:Hget; [exact Hnd|].
  apply NoDup_app. split; [exact Hnd|]. split; [|apply NoDup_singleton].
  intros x Hx Hx'. apply list_elem_of_singleton in Hx'. subst x.
  apply dict_get_None_keys in Hget. apply Hget. apply list_elem_of_In. exact Hx.
Qed.

Lemma dict_set_elem {V} k (v : V) d kv :
  kv ∈ Dict.set k v d -> kv ∈ d \/ kv = (k, v).
Proof.
  induction d as [|[k' v'] d IH]; simpl.
  - intros H. apply list_elem_of_singleton in H. right. exact H.
  - destruct (String.eqb k' k) eqn:E.
    + apply String.eqb_eq in E. subst k'. intros H. apply elem_of_cons in H as [H|H].
      * right. exact H.
      * left. apply elem_of_cons. right. exact H.
    + intros H. apply elem_of_cons in H as [H|H].
      * left. apply elem_of_cons. left. exact H.
      * destruct (IH H) as [H'|H']; [left; apply elem_of_cons; right; exact H' | right; exact H'].
Qed.

Lemma dict_del_elem {V} k d (kv : string * V) : kv ∈ Dict.del k d -> kv ∈ d.
Proof.
  induction d as [|[k' v'] d IH]; simpl; [tauto|].
  destruct (String.eqb k' k).
  - intros H. apply elem_of_cons. right. apply IH. exact H.
  - intros H. apply elem_of_cons in H as [H|H]; apply elem_of_cons; [left | right; apply IH]; exact H.
Qed.

Lemma dict_keys_del_NoDup {V} k (d : list (string * V)) :
  NoDup (Dict.keys d) -> NoDup (Dict.keys (Dict.del k d)).
Proof.
  unfold Dict.keys. induction d as [|[k' v'] d IH]; simpl; [tauto|].
  intros Hnd. apply NoDup_cons in Hnd as [Hnotin Hnd].
  destruct (String.eqb k' k); [apply IH; exact Hnd|].
  simpl. apply NoDup_cons. split; [|apply IH; exact Hnd].
  intros Hin. apply Hnotin. apply list_elem_of_fmap in Hin as ([k0 v0] & Hk & Hin).
  apply list_elem_of_fmap. exists (k0, v0). split; [exact Hk|]. eapply dict_del_elem. exact Hin.
Qed.

Lemma make_valid y mo d h mi s us dt :
  Datetime.make y mo d h mi s us = Ok dt -> Datetime.valid dt = true.
Proof.
  unfold Datetime.make. destruct (Datetime.fields_ok y mo d h mi s us) eqn:Hok; [|discriminate].
  intros [= <-]. exact Hok.
Qed.

Lemma add_seconds_valid now n dt :
  Datetime.add_seconds now n = Ok dt -> Datetime.valid dt = true.
Proof.
  unfold Datetime.add_seconds.
  destruct (999999999 <? Z.abs (n / 86400)); [discriminate|].
  match goal with |- context [if ?b then _ else _] => destruct b end; [|discriminate].
  destruct (Datetime.ord2ymd _) as [[y m] d]. apply make_valid.
Qed.

Lemma fromisoformat_valid x dt :
  Datetime.fromisoformat x = Ok dt -> Datetime.valid dt = true.
Proof.
  unfold Datetime.fromisoformat. destruct x; try discriminate.
  destruct (Datetime.read_iso s) as [[[[y mo] d] [[[h mi] sec] us]]|]; [|discriminate].
  apply make_valid.
Qed.

Lemma read_entry_valid j tok : read_entry j = Ok tok -> expiry_valid tok.
Proof.
  unfold read_entry. destruct j; try discriminate.
  destruct (py_truthy (default JNull (Dict.get "expires_at" d))).
  - destruct (Datetime.fromisoformat (default JNull (Dict.get "expires_at" d))) as [dt|] eqn:Hd;
      [|discriminate].
    intros [= <-]. unfold expiry_valid. simpl. eapply fromisoformat_valid. exact Hd.
  - intros [= <-]. exact I.
Qed.

Lemma expiry_read_valid now token_data expiry :
  expiry_read now token_data expiry ->
  match expiry with Some d => Datetime.valid d = true | None => True end.
Proof.
  intros [[_ ->] | (_ & raw & seconds & d & _ & _ & Hadd & ->)]; [exact I|].
  eapply add_seconds_valid. exact Hadd.
Qed.

Lemma invariant_dict st : invariant st <-> dict_invariant (heap st) (tokens (self st)).
Proof.
  unfold invariant, dict_invariant, well_formed, expiries_valid, token_set, view.
  rewrite Forall_map. simpl. tauto.
Qed.

(** Adding a token object under a service keeps the invariant. *)
Lemma dict_invariant_store h toks svc tok :
  dict_invariant h toks ->
  expiry_valid tok ->
  dict_invariant (h ++ [tok]) (Dict.set svc (length h) toks).
Proof.
  intros (Hnd & Hlive & Hexp) Hv. split; [|split].
  - apply dict_keys_set_NoDup. exact Hnd.
  - apply Forall_forall. intros kl Hin. apply dict_set_elem in Hin as [Hin | ->].
    + rewrite Forall_forall in Hlive. destruct (Hlive kl Hin) as [x Hx].
      exists x. apply lookup_app_l_Some. exact Hx.
    + simpl. exists tok. apply list_lookup_middle. reflexivity.
  - apply Forall_forall. intros kl Hin.
    apply dict_set_elem in Hin as [Hin | ->].
    + rewrite Forall_forall in Hlive. destruct (Hlive kl Hin) as [x Hx].
      rewrite (lookup_app_l_Some _ _ _ _ Hx).
      rewrite Forall_forall in Hexp. specialize (Hexp kl Hin). simpl in Hexp.
      rewrite Hx in Hexp. exact Hexp.
    + simpl. rewrite list_lookup_middle by reflexivity. exact Hv.
Qed.

(** Updating a token object in place keeps the invariant. *)
Lemma dict_invariant_update h toks (l : loc) tok :
  dict_invariant h toks ->
  expiry_valid tok ->
  dict_invariant (<[l := tok]> h) toks.
Proof.
  intros (Hnd & Hlive & Hexp) Hv. split; [|split].
  - exact Hnd.
  - eapply Forall_impl; [exact Hlive|]. intros kl Hkl. simpl in *.
    apply lookup_lt_is_Some. rewrite length_insert. apply lookup_lt_is_Some. exact Hkl.
  - eapply Forall_impl; [exact Hexp|]. intros kl Hkl. simpl in *.
    destruct (decide (l = snd kl)) as [Heq|Hne].
    + rewrite <- Heq in *. destruct (h !! l) as [x|] eqn:Hx.
      * rewrite list_lookup_insert_eq by (eapply lookup_lt_Some; exact Hx). exact Hv.
      * rewrite list_insert_ge by (apply lookup_ge_None; exact Hx). rewrite Hx. exact I.
    + rewrite list_lookup_insert_ne by exact Hne. exact Hkl.
Qed.

Lemma dict_invariant_delete h toks svc :
  dict_invariant h toks -> dict_invariant h (Dict.del svc toks).
Proof.
  intros (Hnd & Hlive & Hexp). split; [|split].
  - apply dict_keys_del_NoDup. exact Hnd.
  - apply Forall_forall. intros kl Hin. rewrite Forall_forall in Hlive.
    apply Hlive. eapply dict_del_elem. exact Hin.
  - apply Forall_forall. intros kl Hin. rewrite Forall_forall in Hexp.
    apply Hexp. eapply dict_del_elem. exact Hin.
Qed.

Lemma dict_invariant_empty h : dict_invariant h [].
Proof. split; [apply NoDup_nil_2 | split; constructor]. Qed.

Lemma load_all_invariant items toks h :
  dict_invariant h toks ->
  dict_invariant (snd (load_all items toks h)) (snd (fst (load_all items toks h))).
Proof.
  revert toks h. induction items as [|[svc j] items IH]; intros toks h Hinv; [exact Hinv|].
  cbn [load_all]. destruct (read_entry j) as [tok|e] eqn:Hread; [|exact Hinv].
  apply IH. apply dict_invariant_store; [exact Hinv|]. eapply read_entry_valid. exact Hread.
Qed.

Lemma invariant_same st st' :
  invariant st -> heap st' = heap st -> tokens (self st') = tokens (self st) -> invariant st'.
Proof. rewrite !invariant_dict. intros Hinv -> ->. exact Hinv. Qed.

(** A new manager satisfies the invariant, whatever the token file holds. *)
Theorem init_invariant store_arg st r st' :
  OAuth2Manager.__init__ store_arg st = (r, st') -> invariant st'.
Proof.
  intros Hrun. destruct (init_spec store_arg st) as (st1 & Hrun1 & _ & _ & _ & _ & _ & Hload).
  rewrite Hrun1 in Hrun. inversion Hrun; subst r st1. apply invariant_dict.
  cbv zeta in Hload.
  destruct (str_truthy _); [|destruct Hload as [-> _]; apply dict_invariant_empty].
  destruct (disk st !! _) as [[raw|doc]|]; try (destruct Hload as [-> _]; apply dict_invariant_empty).
  destruct doc; try (destruct Hload as [-> _]; apply dict_invariant_empty).
  destruct Hload as [-> ->]. apply load_all_invariant, dict_invariant_empty.
Qed.

Theorem exchange_invariant service_name code state st r st' :
  invariant st ->
  OAuth2Manager.exchange_code_for_token service_name code state st = (r, st') ->
  invariant st'.
Proof.
  intros Hinv Hrun.
  destruct (configs (self st) !! service_name) as [config|] eqn:Hc.
  - destruct (cached_verifier service_name state st) as [v|] eqn:Hv.
    + pose proof (exchange_outcome service_name code state st config v Hc Hv) as H.
      simpl in H. rewrite Hrun in H. destruct H as (_ & _ & _ & _ & H).
      destruct r as [l|e].
      * destruct H as (status & td & tok & _ & _ & _ & Hexp & -> & Hh & Ht).
        apply invariant_dict. rewrite Hh, Ht. apply dict_invariant_store.
        -- apply invariant_dict. exact Hinv.
        -- apply (expiry_read_valid _ _ _ Hexp).
      * destruct H as (Ht & Hh & _). eapply invariant_same; eassumption.
    + destruct (exchange_missing_verifier service_name code state st) as (e & He & _); eauto.
      rewrite He in Hrun. inversion Hrun; subst. exact Hinv.
  - rewrite exchange_unconfigured in Hrun by exact Hc. inversion Hrun; subst. exact Hinv.
Qed.

Theorem refresh_invariant service_name st r st' :
  invariant st ->
  OAuth2Manager.refresh_token service_name st = (r, st') ->
  invariant st'.
Proof.
  intros Hinv Hrun. destruct r as [l|e].
  - destruct (refresh_success _ _ _ _ Hrun)
      as (config & tok & status & td & access & expiry & st2 & _ & _ & _ & _ & _ & _ & _
          & Hexp & Hs & _ & _ & _ & Hh & _).
    apply invariant_dict. rewrite Hh, Hs. apply dict_invariant_update.
    + apply invariant_dict. exact Hinv.
    + apply (expiry_read_valid _ _ _ Hexp).
  - destruct (refresh_failure_atomic _ _ _ _ Hrun) as (Hs & Hh & _).
    eapply invariant_same; [exact Hinv | exact Hh | rewrite Hs; reflexivity].
Qed.

Theorem get_valid_token_invariant service_name st r st' :
  invariant st ->
  OAuth2Manager.get_valid_token service_name st = (r, st') ->
  invariant st'.
Proof.
  intros Hinv Hrun.
  destruct (Dict.get service_name (tokens (self st))) as [l|] eqn:Hl.
  - destruct (heap st !! l) as [tok|] eqn:Hh.
    + destruct (OAuth2Token.expires_at tok) as [expiry|] eqn:He.
      * destruct (Datetime.ge (env_clock (env st) (ticks st)) expiry) eqn:Hge.
        -- rewrite (get_valid_token_expired _ _ _ _ _ Hl Hh He Hge) in Hrun.
           destruct (OAuth2Manager.refresh_token service_name (with_ticks S st))
             as [[t|e] st1] eqn:Hr; inversion Hrun; subst.
           ++ apply (refresh_invariant service_name (with_ticks S st) (Ok t) st'); [|exact Hr].
              apply (invariant_same st); [exact Hinv | reflexivity | reflexivity].
           ++ apply (invariant_same st1); [|reflexivity|reflexivity].
              apply (refresh_invariant service_name (with_ticks S st) (Raise e) st1); [|exact Hr].
              apply (invariant_same st); [exact Hinv | reflexivity | reflexivity].
        -- rewrite (get_valid_token_current _ _ _ _ _ Hl Hh He Hge) in Hrun.
           inversion Hrun; subst. apply (invariant_same st); [exact Hinv | reflexivity | reflexivity].
      * rewrite (get_valid_token_no_expiry _ _ _ _ Hl Hh He) in Hrun.
        inversion Hrun; subst. exact Hinv.
    + destruct Hinv as [[_ Hlive] _]. exfalso.
      assert (Hin : (service_name, l) ∈ tokens (self st)).
      { clear -Hl. induction (tokens (self st)) as [|[k v] d IH]; simpl in Hl; [discriminate|].
        destruct (String.eqb k service_name) eqn:E.
        - apply String.eqb_eq in E. inversion Hl; subst. apply elem_of_cons. left. reflexivity.
        - apply elem_of_cons. right. apply IH. exact Hl. }
      rewrite Forall_forall in Hlive. destruct (Hlive _ Hin) as [x Hx]. simpl in Hx. congruence.
  - rewrite get_valid_token_absent in Hrun by exact Hl. inversion Hrun; subst. exact Hinv.
Qed.

Theorem revoke_invariant service_name st r st' :
  invariant st ->
  OAuth2Manager.revoke_token service_name st = (r, st') ->
  invariant st'.
Proof.
  intros Hinv Hrun. rewrite revoke_token_eq in Hrun. inversion Hrun; subst r st'.
  destruct (Dict.mem service_name (tokens (self st))); [|exact Hinv].
  apply invariant_dict.
  match goal with |- context [saved ?X] => destruct (saved_frame X) as (Hs & Hh & _) end.
  rewrite Hs, Hh. simpl. apply dict_invariant_delete. apply invariant_dict. exact Hinv.
Qed.

Theorem generate_invariant service_name state st r st' :
  invariant st ->
  OAuth2Manager.generate_authorization_url service_name state st = (r, st') ->
  invariant st'.
Proof.
  intros Hinv. unfold OAuth2Manager.generate_authorization_url. mrun.
  destruct (configs (self st) !! service_name); [|intros [= <- <-]; exact Hinv].
  destruct state as [[|c s]|]; simpl; unfold OAuth2Manager._store_code_verifier; mrun;
    intros [= <- <-]; (apply (invariant_same st); [exact Hinv | reflexivity | reflexivity]).
Qed.

(* ===================================================================== *)
(** ** Properties *)
(* ===================================================================== *)

(** ** The authorization URL *)



(** ** Code exchange *)

Lemma configuration_error_is_no_state_mismatch service_name e :
  ConfigurationError service_name e -> ~ StateMismatchError e.
Proof. intros -> [H|H]; discriminate H. Qed.






(** C10. The verifier is taken out of the cache before the request is
    sent: when the request then fails (transport error or error status),
    no token is stored, the entry for (service, state) is gone, and a
    retry with the same state is refused as a state mismatch without any
    request being sent. *)
Theorem exchange_failure_consumes_verifier
    (service_name code state : string) (st : State)
    (config : OAuth2Config.t) (verifier : string) :
  configs (self st) !! service_name = Some config ->
  cached_verifier service_name state st = Some verifier ->
  (let answer := env_http (env st) (posts (trace st)) (OAuth2Config.token_url config)
                   (OAuth2Manager.authorization_code_grant config code verifier) in
   answer = TransportFailure
   \/ exists status body, answer = Response status body /\ error_status status = true) ->
  exists e st1,
    OAuth2Manager.exchange_code_for_token service_name code state st = (Raise e, st1)
    /\ posts (trace st1) = S (posts (trace st))
    /\ token_set st1 = token_set st
    /\ cached_verifier service_name state st1 = None
    /\ forall code2, exists e2,
         OAuth2Manager.exchange_code_for_token service_name code2 state st1 = (Raise e2, st1)
         /\ StateMismatchError e2.
Proof.
  intros Hcfg Hv Hfail.
  pose proof (exchange_outcome service_name code state st config verifier Hcfg Hv) as H.
  simpl in H, Hfail.
  destruct (OAuth2Manager.exchange_code_for_token service_name code state st) as [[l|e] st1].
  - exfalso. destruct H as (_ & _ & _ & _ & status' & token_data & tok & Heq & Hok & _).
    destruct Hfail as [Hf | (status & body & Hf & Hs)]; rewrite Hf in Heq; [discriminate|].
    inversion Heq; subst. congruence.
  - destruct H as (Hc & Hgone & _ & Hposts & Ht & Hh & _).
    exists e, st1. split; [reflexivity|]. split; [exact Hposts|].
    split; [unfold token_set; rewrite Ht, Hh; reflexivity|].
    split; [exact Hgone|].
    intros code2. apply exchange_missing_verifier; [rewrite Hc, Hcfg; eauto | exact Hgone].
Qed.

Lemma exchange_failure_consumes_verifier_witness :
  let st := pending TransportFailure in
  exists e st1,
    OAuth2Manager.exchange_code_for_token "svc" "abc123" "xyz" st = (Raise e, st1)
    /\ posts (trace st1) = S (posts (trace st))
    /\ token_set st1 = token_set st
    /\ cached_verifier "svc" "xyz" st1 = None
    /\ forall code2, exists e2,
         OAuth2Manager.exchange_code_for_token "svc" code2 "xyz" st1 = (Raise e2, st1)
         /\ StateMismatchError e2.
Proof.
  apply (exchange_failure_consumes_verifier "svc" "abc123" "xyz" _ sample_config "verifier").
  - reflexivity.
  - reflexivity.
  - left. reflexivity.
Defined.

(** ** Expiry and refresh *)

Lemma lex_compare_antisym xs ys :
  Datetime.lex_compare ys xs = CompOpp (Datetime.lex_compare xs ys).
Proof.
  revert ys. induction xs as [|x xs IH]; intros [|y ys]; simpl; try reflexivity.
  rewrite (Z.compare_antisym x y). destruct (x ?= y); simpl; [apply IH | reflexivity | reflexivity].
Qed.

Lemma past_is_expired expiry now :
  in_the_past expiry now -> Datetime.ge now expiry = true.
Proof.
  unfold in_the_past, Datetime.ge, Datetime.compare. intros H.
  rewrite lex_compare_antisym, H. reflexivity.
Qed.



(** C8. A token without an expiry is returned as it is, the state
    untouched: no refresh, no request. A token whose expiry is in the
    past is only ever returned out of a successful [refresh_token] run,
    whose refresh request is on the trace. *)
Theorem expiry_decides_refresh
    (service_name : string) (st : State) (l : loc) (tok : OAuth2Token.t) :
  Dict.get service_name (tokens (self st)) = Some l ->
  heap st !! l = Some tok ->
  (OAuth2Token.expires_at tok = None ->
     OAuth2Manager.get_valid_token service_name st = (Ok (Some l), st))
  /\ (forall expiry t st',
        OAuth2Token.expires_at tok = Some expiry ->
        in_the_past expiry (env_clock (env st) (ticks st)) ->
        OAuth2Manager.get_valid_token service_name st = (Ok (Some t), st') ->
        OAuth2Manager.refresh_token service_name (with_ticks S st) = (Ok t, st')
        /\ posts (trace st') = S (posts (trace st))
        /\ exists config evs,
             configs (self st) !! service_name = Some config
             /\ trace st' = evs ++ EvPost (OAuth2Config.token_url config)
                                     (OAuth2Manager.refresh_token_grant config
                                        (OAuth2Token.refresh_token tok))
                                     form_headers :: trace st).
Proof.
  intros Hl Hh. split.
  - intros He. eapply get_valid_token_no_expiry; eassumption.
  - intros expiry t st' He Hpast Hrun.
    rewrite (get_valid_token_expired service_name st l tok expiry Hl Hh He
               (past_is_expired _ _ Hpast)) in Hrun.
    destruct (OAuth2Manager.refresh_token service_name (with_ticks S st)) as [[t1|e] st1] eqn:Hr;
      [|discriminate].
    inversion Hrun; subst t1 st1. split; [reflexivity|].
    destruct (refresh_success _ _ _ _ Hr)
      as (config & tok0 & status & td & access & expiry' & st2 & Hc & Hl' & Hh' & _ & _ & _ & _
          & _ & _ & _ & Hp & (evs & Htr) & _).
    simpl in Hc, Hl', Hh', Hp, Htr.
    rewrite Hl in Hl'. inversion Hl'; subst t. rewrite Hh in Hh'. inversion Hh'; subst tok0.
    split; [exact Hp|]. exists config, evs. split; assumption.
Qed.

Lemma expiry_decides_refresh_witness :
  let st := authenticated lasting_token (Response 500 None) in
  (OAuth2Token.expires_at lasting_token = None ->
     OAuth2Manager.get_valid_token "svc" st = (Ok (Some 0%nat), st))
  /\ (forall expiry t st',
        OAuth2Token.expires_at lasting_token = Some expiry ->
        in_the_past expiry (env_clock (env st) (ticks st)) ->
        OAuth2Manager.get_valid_token "svc" st = (Ok (Some t), st') ->
        OAuth2Manager.refresh_token "svc" (with_ticks S st) = (Ok t, st')
        /\ posts (trace st') = S (posts (trace st))
        /\ exists config evs,
             configs (self st) !! "svc" = Some config
             /\ trace st' = evs ++ EvPost (OAuth2Config.token_url config)
                                     (OAuth2Manager.refresh_token_grant config
                                        (OAuth2Token.refresh_token lasting_token))
                                     form_headers :: trace st).
Proof.
  apply (expiry_decides_refresh "svc" (authenticated lasting_token (Response 500 None))
           0%nat lasting_token); reflexivity.
Defined.



(** ** Revocation *)

(** C9. [revoke_token] never raises, and afterwards the token set has no
    entry for the service; a second call, or a call for a service without
    a token, changes nothing at all. *)
Theorem revoke_token_idempotent_total (service_name : string) (st : State) :
  exists st1,
    OAuth2Manager.revoke_token service_name st = (Ok tt, st1)
    /\ Dict.get service_name (tokens (self st1)) = None
    /\ stored_token service_name st1 = None
    /\ OAuth2Manager.revoke_token service_name st1 = (Ok tt, st1)
    /\ (Dict.get service_name (tokens (self st)) = None -> st1 = st).
Proof.
  rewrite revoke_token_eq.
  set (st1 := if Dict.mem service_name (tokens (self st)) then _ else st).
  assert (Hgone : Dict.get service_name (tokens (self st1)) = None).
  { subst st1. unfold Dict.mem.
    destruct (Dict.get service_name (tokens (self st))) eqn:Hget; [|exact Hget].
    match goal with |- context [saved ?X] => destruct (saved_frame X) as [Hself _] end.
    rewrite Hself. simpl. apply dict_get_del_eq. }
  exists st1. split; [reflexivity|]. split; [exact Hgone|].
  split; [unfold stored_token; rewrite Hgone; reflexivity|].
  split.
  - rewrite revoke_token_eq. unfold Dict.mem. rewrite Hgone. reflexivity.
  - intros Habs. subst st1. unfold Dict.mem. rewrite Habs. reflexivity.
Qed.

(** ** Persistence *)






(* ===================================================================== *)
(** ** Authorization URLs *)
(* ===================================================================== *)

Lemma sextet_urlsafe n : is_urlsafe_char (Base64.sextet n) = true.
Proof.
  unfold is_urlsafe_char, Base64.sextet.
  assert (H : (Z.to_nat (n mod 64) < 64)%nat).
  { pose proof (Z.mod_pos_bound n 64 ltac:(lia)). lia. }
  revert H. generalize (Z.to_nat (n mod 64)). intros k Hk.
  do 64 (destruct k as [|k]; [reflexivity|]). lia.
Qed.

Lemma urlsafe_not_pad c : is_urlsafe_char c = true -> Ascii.eqb c "="%char = false.
Proof.
  intros H. destruct (Ascii.eqb c "="%char) eqn:E; [|reflexivity].
  apply Ascii.eqb_eq in E. subst c. vm_compute in H. discriminate.
Qed.

Lemma b64url_nopad_32 bs : length bs = 32%nat -> urlsafe_token (Base64.b64url_nopad bs).
Proof.
  intros H.
  do 32 (destruct bs as [|? bs]; [discriminate H|]).
  destruct bs; [|discriminate H]. clear H.
  unfold Base64.b64url_nopad, rstrip, str_rev. cbn [Base64.urlsafe_b64encode str_rev_onto].
  cbn [drop_leading Ascii.eqb Bool.eqb].
  rewrite (urlsafe_not_pad _ (sextet_urlsafe _)).
  cbn [str_rev_onto]. split; [reflexivity|].
  cbn [all_chars]. rewrite !sextet_urlsafe. reflexivity.
Qed.

Lemma round_length st kw : length st = 8%nat -> length (SHA256.round st kw) = 8%nat.
Proof.
  intros H. do 8 (destruct st as [|? st]; [discriminate H|]).
  destruct st; [reflexivity | discriminate H].
Qed.

Lemma rounds_length kws st :
  length st = 8%nat -> length (fold_left SHA256.round kws st) = 8%nat.
Proof.
  revert st. induction kws as [|kw kws IH]; intros st H; simpl; [exact H|].
  apply IH. apply round_length. exact H.
Qed.

Lemma compress_length h block :
  length h = 8%nat -> length (SHA256.compress h block) = 8%nat.
Proof.
  intros H. unfold SHA256.compress.
  rewrite length_map, length_combine, rounds_length by exact H. rewrite H. reflexivity.
Qed.

Lemma sha256_length msg : length (SHA256.sha256 msg) = 32%nat.
Proof.
  unfold SHA256.sha256.
  set (bl := SHA256.blocks _ _).
  assert (H : length (fold_left SHA256.compress bl SHA256.H0) = 8%nat).
  { generalize bl. intros l. generalize SHA256.H0, (eq_refl : length SHA256.H0 = 8%nat).
    induction l as [|b l IH]; intros h Hh; simpl; [exact Hh|].
    apply IH. apply compress_length. exact Hh. }
  revert H. generalize (fold_left SHA256.compress bl SHA256.H0). intros h H.
  do 8 (destruct h as [|? h]; [discriminate H|]).
  destruct h; [reflexivity | discriminate H].
Qed.

Lemma entropy_bytes_length e from n : length (entropy_bytes e from n) = n.
Proof. unfold entropy_bytes. rewrite length_map, length_seq. reflexivity. Qed.

(** What [generate_authorization_url] does for a configured service, in
    closed form: [from] is where the verifier's entropy starts. *)
Lemma generate_eq service_name state st config :
  configs (self st) !! service_name = Some config ->
  let fresh := negb (opt_truthy state) in
  let state' := if fresh then Base64.b64url_nopad (entropy_bytes (env st) (drawn st) 32)
                else opt_str state in
  let from := if fresh then (drawn st + 32)%nat else drawn st in
  let verifier := Base64.b64url_nopad (entropy_bytes (env st) from 32) in
  let challenge := Base64.b64url_nopad (SHA256.sha256 (str_encode verifier)) in
  OAuth2Manager.generate_authorization_url service_name state st
  = (Ok (OAuth2Config.authorization_url config +:+ "?"
         +:+ UrlParse.urlencode (OAuth2Manager.authorization_params config state' challenge),
         state'),
     with_self (set_code_verifiers
                  (Some (<[OAuth2Manager.verifier_key service_name state' := verifier]>
                           (default ∅ (_code_verifiers (self st))))))
       (with_drawn (fun _ => (from + 32)%nat) st)).
Proof.
  intros Hcfg.
  unfold OAuth2Manager.generate_authorization_url, OAuth2Manager._store_code_verifier,
    token_urlsafe, token_bytes, OAuth2Manager.get_attr, OAuth2Manager.set_attr,
    bind, ret, raise, gets, modify.
  cbv beta iota. rewrite Hcfg.
  destruct state as [[|c s]|]; reflexivity.
Qed.



(** X2. A state the caller passes is used as it is; without one (or with an
    empty one) the state is made from 32 fresh entropy bytes and the
    verifier from the 32 after them. *)
Theorem authorization_state_choice
    (service_name : string) (state : option string) (st : State) (config : OAuth2Config.t) :
  configs (self st) !! service_name = Some config ->
  exists url state' st' verifier,
    OAuth2Manager.generate_authorization_url service_name state st = (Ok (url, state'), st')
    /\ cached_verifier service_name state' st' = Some verifier
    /\ (forall s, state = Some s -> str_truthy s = true ->
          state' = s
          /\ verifier = Base64.b64url_nopad (entropy_bytes (env st) (drawn st) 32)
          /\ drawn st' = (drawn st + 32)%nat)
    /\ (state = None \/ state = Some EmptyString ->
          state' = Base64.b64url_nopad (entropy_bytes (env st) (drawn st) 32)
          /\ verifier = Base64.b64url_nopad (entropy_bytes (env st) (drawn st + 32) 32)
          /\ drawn st' = (drawn st + 64)%nat
          /\ urlsafe_token state').
Proof.
  intros Hcfg. rewrite (generate_eq _ _ _ _ Hcfg). cbv zeta.
  do 4 eexists. split; [reflexivity|].
  split; [unfold cached_verifier; simpl; apply lookup_insert_eq|].
  split.
  - intros s -> Hs. simpl. rewrite Hs. simpl. repeat split.
  - intros Hnone.
    assert (Hf : opt_truthy state = false) by (destruct Hnone as [-> | ->]; reflexivity).
    rewrite Hf. simpl. repeat split; try lia.
    + apply b64url_nopad_32, entropy_bytes_length.
    + apply b64url_nopad_32, entropy_bytes_length.
Qed.

Lemma authorization_state_choice_witness :
  exists url state' st' verifier,
    OAuth2Manager.generate_authorization_url "svc" None (pending TransportFailure)
    = (Ok (url, state'), st')
    /\ cached_verifier "svc" state' st' = Some verifier
    /\ state' = "AAECAwQFBgcICQoLDA0ODxAREhMUFRYXGBkaGxwdHh8"
    /\ verifier = "ICEiIyQlJicoKSorLC0uLzAxMjM0NTY3ODk6Ozw9Pj8"
    /\ drawn st' = 64%nat.
Proof.
  destruct (authorization_state_choice "svc" None (pending TransportFailure) sample_config eq_refl)
    as (url & state' & st' & verifier & Hrun & Hv & _ & Hfresh).
  destruct (Hfresh (or_introl eq_refl)) as (Hs & Hver & Hd & _).
  exists url, state', st', verifier.
  split; [exact Hrun|]. split; [exact Hv|].
  split; [rewrite Hs; vm_compute; reflexivity|].
  split; [rewrite Hver; vm_compute; reflexivity|]. exact Hd.
Defined.

(** X3. The PKCE verifier and its challenge are 43 characters of the URL-safe
    base64 alphabet each. *)
Theorem pkce_verifier_and_challenge_shape
    (service_name : string) (state : option string) (st : State) (config : OAuth2Config.t) :
  configs (self st) !! service_name = Some config ->
  exists url state' st' verifier,
    OAuth2Manager.generate_authorization_url service_name state st = (Ok (url, state'), st')
    /\ cached_verifier service_name state' st' = Some verifier
    /\ urlsafe_token verifier
    /\ urlsafe_token (Base64.b64url_nopad (SHA256.sha256 (str_encode verifier))).
Proof.
  intros Hcfg. rewrite (generate_eq _ _ _ _ Hcfg). cbv zeta.
  do 4 eexists. split; [reflexivity|].
  split; [unfold cached_verifier; simpl; apply lookup_insert_eq|].
  assert (Hv : forall from, urlsafe_token (Base64.b64url_nopad (entropy_bytes (env st) from 32))).
  { intros from. apply b64url_nopad_32, entropy_bytes_length. }
  split; [apply Hv | apply b64url_nopad_32, sha256_length].
Qed.

Lemma pkce_verifier_and_challenge_shape_witness :
  exists url state' st' verifier,
    OAuth2Manager.generate_authorization_url "svc" None (pending TransportFailure)
    = (Ok (url, state'), st')
    /\ cached_verifier "svc" state' st' = Some verifier
    /\ urlsafe_token verifier
    /\ urlsafe_token (Base64.b64url_nopad (SHA256.sha256 (str_encode verifier))).
Proof.
  apply (pkce_verifier_and_challenge_shape "svc" None (pending TransportFailure) sample_config).
  reflexivity.
Defined.

Lemma generate_unconfigured service_name state st :
  configs (self st) !! service_name = None ->
  OAuth2Manager.generate_authorization_url service_name state st
  = (Raise (OAuth2Manager.not_configured service_name), st).
Proof.
  intros Hcfg. unfold OAuth2Manager.generate_authorization_url. mrun. rewrite Hcfg. reflexivity.
Qed.

Lemma refresh_unconfigured service_name st :
  configs (self st) !! service_name = None ->
  OAuth2Manager.refresh_token service_name st
  = (Raise (OAuth2Manager.not_configured service_name), st).
Proof.
  intros Hcfg. unfold OAuth2Manager.refresh_token. mrun. rewrite Hcfg. reflexivity.
Qed.

(** X4. A service without a registered config is refused by every step of the
    flow with the same [ValueError], before the verifier cache or the
    token dict is looked at and without any change of state; an expired
    token held for such a service is never handed out. *)
Theorem unconfigured_service_is_refused (service_name : string) (st : State) :
  configs (self st) !! service_name = None ->
  let refused := ValueError ("Service " +:+ service_name +:+ " not configured") in
  (forall state,
     OAuth2Manager.generate_authorization_url service_name state st = (Raise refused, st))
  /\ (forall code state,
        OAuth2Manager.exchange_code_for_token service_name code state st = (Raise refused, st))
  /\ OAuth2Manager.refresh_token service_name st = (Raise refused, st)
  /\ (forall l tok,
        Dict.get service_name (tokens (self st)) = Some l ->
        heap st !! l = Some tok ->
        token_expired (env_clock (env st) (ticks st)) tok = true ->
        OAuth2Manager.get_valid_token service_name st
        = (Ok None, with_trace (cons (refresh_failure_logged service_name refused))
                      (with_ticks S st))).
Proof.
  intros Hcfg refused.
  split; [intros state; apply generate_unconfigured; exact Hcfg|].
  split; [intros code state; apply exchange_unconfigured; exact Hcfg|].
  split; [apply refresh_unconfigured; exact Hcfg|].
  intros l tok Hl Hh Hexp. unfold token_expired in Hexp.
  destruct (OAuth2Token.expires_at tok) as [expiry|] eqn:He; [|discriminate].
  rewrite (get_valid_token_expired service_name st l tok expiry Hl Hh He Hexp).
  rewrite refresh_unconfigured by exact Hcfg. reflexivity.
Qed.

Lemma unconfigured_service_is_refused_witness :
  let st := fresh_process no_manager (sample_env TransportFailure noon) in
  let refused := ValueError "Service svc not configured" in
  (forall state, OAuth2Manager.generate_authorization_url "svc" state st = (Raise refused, st))
  /\ (forall code state,
        OAuth2Manager.exchange_code_for_token "svc" code state st = (Raise refused, st))
  /\ OAuth2Manager.refresh_token "svc" st = (Raise refused, st).
Proof.
  intros st refused.
  destruct (unconfigured_service_is_refused "svc" st eq_refl) as (H1 & H2 & H3 & _).
  split; [exact H1|]. split; [exact H2 | exact H3].
Defined.

(** X5. [generate_authorization_url] reads no clock, sends nothing, writes no
    file and leaves the tokens and the configs alone: it draws entropy and
    puts one entry into the verifier cache, the entries under other keys
    staying as they were. *)
Theorem generate_authorization_url_frame
    (service_name : string) (state : option string) (st : State) :
  let '(r, st') := OAuth2Manager.generate_authorization_url service_name state st in
  tokens (self st') = tokens (self st)
  /\ configs (self st') = configs (self st)
  /\ token_store_path (self st') = token_store_path (self st)
  /\ heap st' = heap st /\ disk st' = disk st
  /\ trace st' = trace st /\ ticks st' = ticks st
  /\ match r with
     | Ok (_, state') =>
         forall s t,
           OAuth2Manager.verifier_key s t <> OAuth2Manager.verifier_key service_name state' ->
           cached_verifier s t st' = cached_verifier s t st
     | Raise _ => st' = st
     end.
Proof.
  destruct (configs (self st) !! service_name) as [config|] eqn:Hcfg.
  - rewrite (generate_eq _ _ _ _ Hcfg). cbv zeta. simpl.
    repeat (split; [reflexivity|]).
    intros s t Hne. unfold cached_verifier. simpl.
    rewrite lookup_insert_ne by congruence.
    destruct (_code_verifiers (self st)); [reflexivity | apply lookup_empty].
  - rewrite generate_unconfigured by exact Hcfg. repeat split.
Qed.

(* ===================================================================== *)
(** ** What an exchange stores, what no method writes *)
(* ===================================================================== *)

Lemma posts_app evs tr : posts (evs ++ tr) = (posts evs + posts tr)%nat.
Proof. unfold posts. rewrite filter_app, length_app. reflexivity. Qed.

Lemma exchange_success_state service_name code state st config verifier status d access expiry :
  configs (self st) !! service_name = Some config ->
  cached_verifier service_name state st = Some verifier ->
  env_http (env st) (posts (trace st)) (OAuth2Config.token_url config)
    (OAuth2Manager.authorization_code_grant config code verifier)
  = Response status (Some (JDict d)) ->
  error_status status = false ->
  Dict.get "access_token" d = Some access ->
  expiry_read (env_clock (env st) (ticks st)) (JDict d) expiry ->
  exists st0,
    OAuth2Manager.exchange_code_for_token service_name code state st
    = (Ok (length (heap st)),
       with_trace (cons (EvLog INFO ("Successfully obtained OAuth2 token for " +:+ service_name)
                           NoDetail))
         (saved st0))
    /\ heap st0 = heap st ++ [issued_token d access expiry]
    /\ tokens (self st0) = Dict.set service_name (length (heap st)) (tokens (self st))
    /\ configs (self st0) = configs (self st)
    /\ token_store_path (self st0) = token_store_path (self st)
    /\ disk st0 = disk st
    /\ env st0 = env st
    /\ trace st0 = EvPost (OAuth2Config.token_url config)
                     (OAuth2Manager.authorization_code_grant config code verifier)
                     form_headers :: trace st.
Proof.
  intros Hcfg Hv Hout Hok Hacc Hexp.
  unfold cached_verifier in Hv.
  destruct (_code_verifiers (self st)) as [verifiers|] eqn:Hcache; [|discriminate].
  unfold OAuth2Manager.exchange_code_for_token. mrun. rewrite Hcfg.
  unfold OAuth2Manager._get_code_verifier. mrun. rewrite Hcache, Hv. simpl.
  unfold requests_post. simpl. rewrite Hout. simpl.
  unfold OAuth2Manager.compute_expires_at, raise_for_status, response_json, datetime_now, new_token. mrun.
  rewrite Hok. simpl. rewrite Hacc.
  destruct Hexp as [[Hc ->] | (Hc & raw & seconds & dt & Hraw & Hsec & Hadd & ->)];
    simpl in Hc; injection Hc as Hc; rewrite Hc.
  - rewrite save_tokens_eq. eexists. split; [reflexivity|]. repeat split.
  - simpl in Hraw. destruct (Dict.get "expires_in" d) as [v|]; [|discriminate].
    injection Hraw as ->. rewrite Hsec. simpl. rewrite Hadd.
    rewrite save_tokens_eq. eexists. split; [reflexivity|]. repeat split.
Qed.



Lemma saved_disk_other st p :
  p <> token_store_path (self st) -> disk (saved st) !! p = disk st !! p.
Proof.
  intros Hp. unfold saved.
  destruct (negb (str_truthy (token_store_path (self st)))); [reflexivity|].
  destruct (serialized (heap st) (tokens (self st)) []); [|reflexivity].
  destruct (env_writable (env st) (token_store_path (self st))); [|reflexivity].
  simpl. apply lookup_insert_ne. congruence.
Qed.

Lemma saved_disk_unset st :
  str_truthy (token_store_path (self st)) = false -> saved st = st.
Proof. intros H. unfold saved. rewrite H. reflexivity. Qed.

Lemma store_frame_refl st : store_frame st st.
Proof. repeat split. Qed.

Lemma store_frame_trans st1 st2 st3 :
  store_frame st1 st2 -> store_frame st2 st3 -> store_frame st1 st3.
Proof.
  intros (Hp1 & He1 & Hd1 & Hu1) (Hp2 & He2 & Hd2 & Hu2).
  split; [congruence|]. split; [congruence|]. split.
  - intros p Hp. rewrite Hd2 by congruence. apply Hd1. exact Hp.
  - intros Hu. rewrite Hu2 by congruence. apply Hu1. exact Hu.
Qed.

Lemma store_frame_saved st : store_frame st (saved st).
Proof.
  destruct (saved_frame st) as (Hs & _ & He & _).
  split; [rewrite Hs; reflexivity|]. split; [exact He|]. split.
  - intros p Hp. apply saved_disk_other. exact Hp.
  - intros Hu. rewrite saved_disk_unset by exact Hu. reflexivity.
Qed.

(** States that differ in nothing the frame looks at. *)
Lemma store_frame_same st st' :
  token_store_path (self st') = token_store_path (self st) ->
  env st' = env st -> disk st' = disk st -> store_frame st st'.
Proof. intros Hp He Hd. split; [exact Hp|]. split; [exact He|]. rewrite Hd. split; reflexivity. Qed.

Lemma exchange_store_frame service_name code state st :
  store_frame st (snd (OAuth2Manager.exchange_code_for_token service_name code state st)).
Proof.
  unfold OAuth2Manager.exchange_code_for_token. mrun.
  unfold OAuth2Manager._get_code_verifier. mrun.
  unfold requests_post. simpl.
  unfold OAuth2Manager.compute_expires_at, raise_for_status, response_json, datetime_now, new_token. mrun.
  crunch.
  all: try (apply store_frame_same; reflexivity).
  all: match goal with
       | |- context [saved ?X] =>
           apply (store_frame_trans st X); [apply store_frame_same; reflexivity|];
           apply (store_frame_trans X (saved X)); [apply store_frame_saved|];
           apply store_frame_same; reflexivity
       end.
Qed.

Lemma refresh_store_frame service_name st :
  store_frame st (snd (OAuth2Manager.refresh_token service_name st)).
Proof.
  unfold OAuth2Manager.refresh_token. mrun.
  unfold deref, requests_post. simpl.
  unfold OAuth2Manager.compute_expires_at, raise_for_status, response_json, datetime_now. mrun.
  crunch.
  all: try (apply store_frame_same; reflexivity).
  all: match goal with
       | |- context [saved ?X] =>
           apply (store_frame_trans st X); [apply store_frame_same; reflexivity|];
           apply (store_frame_trans X (saved X)); [apply store_frame_saved|];
           apply store_frame_same; reflexivity
       end.
Qed.

Lemma get_valid_token_store_frame service_name st :
  store_frame st (snd (OAuth2Manager.get_valid_token service_name st)).
Proof.
  unfold OAuth2Manager.get_valid_token. mrun. unfold deref, datetime_now.
  destruct (Dict.get service_name (tokens (self st))) as [l|]; [|apply store_frame_refl].
  destruct (heap st !! l) as [tok|]; [|apply store_frame_refl].
  destruct (OAuth2Token.expires_at tok) as [expiry|]; simpl; [|apply store_frame_refl].
  destruct (Datetime.ge _ expiry); simpl; [|apply store_frame_same; reflexivity].
  pose proof (refresh_store_frame service_name (with_ticks S st)) as H.
  destruct (OAuth2Manager.refresh_token service_name (with_ticks S st)) as [[t|e] st1]; simpl in *.
  - eapply store_frame_trans; [|exact H]. apply store_frame_same; reflexivity.
  - eapply store_frame_trans; [|eapply store_frame_trans; [exact H|]];
      apply store_frame_same; reflexivity.
Qed.

Lemma revoke_store_frame service_name st :
  store_frame st (snd (OAuth2Manager.revoke_token service_name st)).
Proof.
  rewrite revoke_token_eq. simpl.
  destruct (Dict.mem service_name (tokens (self st))); [|apply store_frame_refl].
  match goal with
  | |- context [saved ?X] =>
      apply (store_frame_trans st X); [apply store_frame_same; reflexivity|];
      apply store_frame_saved
  end.
Qed.

Lemma generate_store_frame service_name state st :
  store_frame st (snd (OAuth2Manager.generate_authorization_url service_name state st)).
Proof.
  destruct (configs (self st) !! service_name) as [config|] eqn:Hcfg.
  - rewrite (generate_eq _ _ _ _ Hcfg). apply store_frame_same; reflexivity.
  - rewrite generate_unconfigured by exact Hcfg. apply store_frame_refl.
Qed.

(* ===================================================================== *)
(** ** Pending authorizations *)
(* ===================================================================== *)

Lemma verifier_key_injective s1 t1 s2 t2 :
  has_char ":" s1 = false -> has_char ":" s2 = false ->
  OAuth2Manager.verifier_key s1 t1 = OAuth2Manager.verifier_key s2 t2 ->
  s1 = s2 /\ t1 = t2.
Proof.
  unfold OAuth2Manager.verifier_key.
  revert s2. induction s1 as [|c s1 IH]; intros [|c2 s2]; simpl; intros H1 H2 Heq.
  - split; [reflexivity|]. injection Heq as Heq. exact Heq.
  - exfalso. injection Heq as Hc _. subst c2. rewrite Ascii.eqb_refl in H2. discriminate.
  - exfalso. injection Heq as Hc _. subst c. rewrite Ascii.eqb_refl in H1. discriminate.
  - injection Heq as Hc Hrest. apply orb_false_elim in H1, H2.
    destruct (IH s2 (proj2 H1) (proj2 H2) Hrest) as [-> ->]. subst c2. split; reflexivity.
Qed.

(** X6. Authorizations pending for different (service, state) pairs do not
    interfere, as long as service names hold no colon: caching a verifier
    for one pair, and taking it out again, leaves the verifier of any
    other pair as it was; taking it out returns what was cached. *)
Theorem pending_authorizations_are_independent
    (s1 t1 s2 t2 v : string) (st : State) :
  has_char ":" s1 = false -> has_char ":" s2 = false ->
  (s1, t1) <> (s2, t2) ->
  exists st1 st2,
    OAuth2Manager._store_code_verifier s1 t1 v st = (Ok tt, st1)
    /\ cached_verifier s1 t1 st1 = Some v
    /\ cached_verifier s2 t2 st1 = cached_verifier s2 t2 st
    /\ OAuth2Manager._get_code_verifier s1 t1 st1 = (Ok v, st2)
    /\ cached_verifier s1 t1 st2 = None
    /\ cached_verifier s2 t2 st2 = cached_verifier s2 t2 st.
Proof.
  intros H1 H2 Hne.
  assert (Hk : OAuth2Manager.verifier_key s1 t1 <> OAuth2Manager.verifier_key s2 t2).
  { intros Heq. destruct (verifier_key_injective _ _ _ _ H1 H2 Heq) as [-> ->]. congruence. }
  unfold OAuth2Manager._store_code_verifier, OAuth2Manager._get_code_verifier. mrun.
  eexists _, _. split; [reflexivity|]. unfold cached_verifier. simpl.
  rewrite lookup_insert_eq. simpl.
  split; [reflexivity|].
  assert (Hother : (<[OAuth2Manager.verifier_key s1 t1 := v]>
                      (default ∅ (_code_verifiers (self st))))
                   !! OAuth2Manager.verifier_key s2 t2
                   = match _code_verifiers (self st) with
                     | Some verifiers => verifiers !! OAuth2Manager.verifier_key s2 t2
                     | None => None
                     end).
  { rewrite lookup_insert_ne by exact Hk.
    destruct (_code_verifiers (self st)); [reflexivity | apply lookup_empty]. }
  split; [exact Hother|]. split; [reflexivity|]. simpl.
  split; [apply lookup_delete_eq|].
  rewrite lookup_delete_ne by exact Hk. exact Hother.
Qed.

Lemma pending_authorizations_are_independent_witness :
  exists st1 st2,
    OAuth2Manager._store_code_verifier "crm" "other" "v2" (pending TransportFailure) = (Ok tt, st1)
    /\ cached_verifier "crm" "other" st1 = Some "v2"
    /\ cached_verifier "svc" "xyz" st1 = cached_verifier "svc" "xyz" (pending TransportFailure)
    /\ OAuth2Manager._get_code_verifier "crm" "other" st1 = (Ok "v2", st2)
    /\ cached_verifier "crm" "other" st2 = None
    /\ cached_verifier "svc" "xyz" st2 = cached_verifier "svc" "xyz" (pending TransportFailure).
Proof.
  apply (pending_authorizations_are_independent "crm" "other" "svc" "xyz" "v2"
           (pending TransportFailure)).
  - reflexivity.
  - reflexivity.
  - discriminate.
Defined.

(* ===================================================================== *)
(** ** Refreshing and asking *)
(* ===================================================================== *)

Lemma refresh_success_state service_name st config l tok status d access expiry :
  configs (self st) !! service_name = Some config ->
  Dict.get service_name (tokens (self st)) = Some l ->
  heap st !! l = Some tok ->
  py_truthy (OAuth2Token.refresh_token tok) = true ->
  env_http (env st) (posts (trace st)) (OAuth2Config.token_url config)
    (OAuth2Manager.refresh_token_grant config (OAuth2Token.refresh_token tok))
  = Response status (Some (JDict d)) ->
  error_status status = false ->
  Dict.get "access_token" d = Some access ->
  expiry_read (env_clock (env st) (ticks st)) (JDict d) expiry ->
  exists st0,
    OAuth2Manager.refresh_token service_name st = (Ok l, saved st0)
    /\ heap st0 = <[l := refreshed tok (JDict d) access expiry]> (heap st)
    /\ self st0 = self st
    /\ disk st0 = disk st
    /\ env st0 = env st
    /\ trace st0 = EvLog INFO ("Successfully refreshed OAuth2 token for " +:+ service_name) NoDetail
                   :: EvPost (OAuth2Config.token_url config)
                        (OAuth2Manager.refresh_token_grant config (OAuth2Token.refresh_token tok))
                        form_headers :: trace st.
Proof.
  intros Hcfg Htok Hheap Hrt Hout Hok Hacc Hexp.
  unfold OAuth2Manager.refresh_token. mrun. rewrite Hcfg, Htok.
  unfold deref. simpl. rewrite Hheap, Hrt. simpl.
  unfold requests_post. simpl. rewrite Hout. simpl.
  unfold OAuth2Manager.compute_expires_at, raise_for_status, response_json, datetime_now. mrun.
  rewrite Hok. simpl. rewrite Hacc.
  destruct Hexp as [[Hc ->] | (Hc & raw & seconds & dt & Hraw & Hsec & Hadd & ->)];
    simpl in Hc; injection Hc as Hc; rewrite Hc.
  - erewrite assign_eq by heap_lookup. erewrite assign_eq by heap_lookup.
    unfold Dict.mem. destruct (Dict.get "refresh_token" d) as [fresh|] eqn:Hf; simpl;
      [erewrite assign_eq by heap_lookup|]; rewrite save_tokens_eq;
      (eexists; split; [reflexivity|]); simpl; rewrite ?list_insert_insert_eq;
      repeat split; unfold refreshed; simpl; rewrite Hf; reflexivity.
  - simpl in Hraw. destruct (Dict.get "expires_in" d) as [v|]; [|discriminate].
    injection Hraw as ->. rewrite Hsec. simpl. rewrite Hadd.
    erewrite assign_eq by heap_lookup. erewrite assign_eq by heap_lookup.
    unfold Dict.mem. destruct (Dict.get "refresh_token" d) as [fresh|] eqn:Hf; simpl;
      [erewrite assign_eq by heap_lookup|]; rewrite save_tokens_eq;
      (eexists; split; [reflexivity|]); simpl; rewrite ?list_insert_insert_eq;
      repeat split; unfold refreshed; simpl; rewrite Hf; reflexivity.
Qed.

(** X9. What [refresh_token] asks for before it sends anything, in this
    order: a config for the service, a token on record, and a refresh
    token that is truthy (not [None], not empty). Each refusal is a
    [ValueError] naming what is missing, and leaves the state as it was. *)
Theorem refresh_token_preconditions (service_name : string) (st : State) :
  (configs (self st) !! service_name = None ->
     OAuth2Manager.refresh_token service_name st
     = (Raise (ValueError ("Service " +:+ service_name +:+ " not configured")), st))
  /\ (is_Some (configs (self st) !! service_name) ->
      Dict.get service_name (tokens (self st)) = None ->
      OAuth2Manager.refresh_token service_name st
      = (Raise (ValueError ("No token available for " +:+ service_name)), st))
  /\ (forall l tok,
        is_Some (configs (self st) !! service_name) ->
        Dict.get service_name (tokens (self st)) = Some l ->
        heap st !! l = Some tok ->
        py_truthy (OAuth2Token.refresh_token tok) = false ->
        OAuth2Manager.refresh_token service_name st
        = (Raise (ValueError ("No refresh token available for " +:+ service_name)), st)).
Proof.
  split; [apply refresh_unconfigured|]. split.
  - intros [config Hcfg] Hnone. unfold OAuth2Manager.refresh_token. mrun.
    rewrite Hcfg, Hnone. reflexivity.
  - intros l tok [config Hcfg] Hl Hh Hrt. unfold OAuth2Manager.refresh_token. mrun.
    rewrite Hcfg, Hl. unfold deref. simpl. rewrite Hh, Hrt. reflexivity.
Qed.

Lemma refresh_token_preconditions_witness :
  let tok := OAuth2Token.mk (JStr "tok1") JNull None (JStr "Bearer") JNull in
  let st := authenticated tok TransportFailure in
  OAuth2Manager.refresh_token "svc" st
  = (Raise (ValueError "No refresh token available for svc"), st).
Proof.
  intros tok st.
  destruct (refresh_token_preconditions "svc" st) as (_ & _ & H).
  apply (H 0%nat tok).
  - simpl. eauto.
  - reflexivity.
  - reflexivity.
  - reflexivity.
Defined.

(** X10. A refresh answered without [expires_in] clears the expiry of the
    token: from then on [get_valid_token] hands the token out as it is,
    without reading the clock or sending anything. *)
Theorem refresh_without_expires_in_clears_expiry
    (service_name : string) (st : State) (config : OAuth2Config.t) (l : loc)
    (tok : OAuth2Token.t) (status : Z) (d : list (string * json)) (access : json) :
  configs (self st) !! service_name = Some config ->
  Dict.get service_name (tokens (self st)) = Some l ->
  heap st !! l = Some tok ->
  py_truthy (OAuth2Token.refresh_token tok) = true ->
  env_http (env st) (posts (trace st)) (OAuth2Config.token_url config)
    (OAuth2Manager.refresh_token_grant config (OAuth2Token.refresh_token tok))
  = Response status (Some (JDict d)) ->
  error_status status = false ->
  Dict.get "access_token" d = Some access ->
  Dict.get "expires_in" d = None ->
  exists st',
    OAuth2Manager.refresh_token service_name st = (Ok l, st')
    /\ stored_token service_name st'
       = Some (OAuth2Token.mk access
                 (default (OAuth2Token.refresh_token tok) (Dict.get "refresh_token" d))
                 None (OAuth2Token.token_type tok) (OAuth2Token.scope tok))
    /\ OAuth2Manager.get_valid_token service_name st' = (Ok (Some l), st').
Proof.
  intros Hcfg Hl Hh Hrt Hout Hok Hacc Hnone.
  destruct (refresh_success_state service_name st config l tok status d access None
              Hcfg Hl Hh Hrt Hout Hok Hacc) as (st0 & Hrun & Hheap & Hself & _).
  { left. split; [|reflexivity]. simpl. unfold Dict.mem. rewrite Hnone. reflexivity. }
  destruct (saved_frame st0) as (Hs & Hhs & _).
  assert (Hstored : heap (saved st0) !! l
                    = Some (refreshed tok (JDict d) access None)).
  { rewrite Hhs, Hheap. apply list_lookup_insert_eq. eapply lookup_lt_Some. exact Hh. }
  exists (saved st0). split; [exact Hrun|]. split.
  - unfold stored_token. rewrite Hs, Hself, Hl. exact Hstored.
  - eapply get_valid_token_no_expiry; [rewrite Hs, Hself; exact Hl | exact Hstored | reflexivity].
Qed.

Lemma refresh_without_expires_in_clears_expiry_witness :
  let st := authenticated stale_token
              (Response 200 (Some (JDict [("access_token", JStr "tok2")]))) in
  exists st',
    OAuth2Manager.refresh_token "svc" st = (Ok 0%nat, st')
    /\ stored_token "svc" st'
       = Some (OAuth2Token.mk (JStr "tok2") (JStr "ref1") None (JStr "Bearer") JNull)
    /\ OAuth2Manager.get_valid_token "svc" st' = (Ok (Some 0%nat), st').
Proof.
  apply (refresh_without_expires_in_clears_expiry "svc"
           (authenticated stale_token (Response 200 (Some (JDict [("access_token", JStr "tok2")]))))
           sample_config 0%nat stale_token 200 [("access_token", JStr "tok2")] (JStr "tok2"));
    reflexivity.
Defined.

Lemma lex_compare_refl xs : Datetime.lex_compare xs xs = Eq.
Proof. induction xs as [|x xs IH]; simpl; [reflexivity|]. rewrite Z.compare_refl. exact IH. Qed.

(** X11. The expiry test is [now >= expires_at]: a token whose expiry is
    exactly the clock reading already counts as expired, and is only
    handed out through a refresh. *)
Theorem token_expiring_now_is_refreshed
    (service_name : string) (st : State) (l : loc) (tok : OAuth2Token.t) :
  Dict.get service_name (tokens (self st)) = Some l ->
  heap st !! l = Some tok ->
  OAuth2Token.expires_at tok = Some (env_clock (env st) (ticks st)) ->
  exists r st1,
    OAuth2Manager.refresh_token service_name (with_ticks S st) = (r, st1)
    /\ OAuth2Manager.get_valid_token service_name st
       = match r with
         | Ok t => (Ok (Some t), st1)
         | Raise e => (Ok None, with_trace (cons (refresh_failure_logged service_name e)) st1)
         end.
Proof.
  intros Hl Hh He.
  rewrite (get_valid_token_expired service_name st l tok _ Hl Hh He).
  - destruct (OAuth2Manager.refresh_token service_name (with_ticks S st)) as [[t|e] st1];
      eexists _, _; split; reflexivity.
  - unfold Datetime.ge, Datetime.compare. rewrite lex_compare_refl. reflexivity.
Qed.

Lemma token_expiring_now_is_refreshed_witness :
  let tok := OAuth2Token.mk (JStr "tok1") JNull (Some noon) (JStr "Bearer") JNull in
  let st := authenticated tok TransportFailure in
  exists e,
    OAuth2Manager.get_valid_token "svc" st
    = (Ok None, with_trace (cons (refresh_failure_logged "svc" e)) (with_ticks S st)).
Proof.
  intros tok st.
  destruct (token_expiring_now_is_refreshed "svc" st 0%nat tok eq_refl eq_refl eq_refl)
    as (r & st1 & Hr & Hget).
  vm_compute in Hr. injection Hr as <- <-.
  eexists. exact Hget.
Defined.

Lemma dict_get_elem {V} k (v : V) d : Dict.get k d = Some v -> (k, v) ∈ d.
Proof.
  induction d as [|[k' v'] d IH]; simpl; [discriminate|].
  destruct (String.eqb k' k) eqn:E.
  - apply String.eqb_eq in E. subst k'. intros [= ->]. apply list_elem_of_here.
  - intros H. apply list_elem_of_further. exact (IH H).
Qed.

Lemma well_formed_lookup st service_name l :
  well_formed st -> Dict.get service_name (tokens (self st)) = Some l ->
  is_Some (heap st !! l).
Proof.
  intros [_ Hlive] Hl. rewrite Forall_forall in Hlive.
  exact (Hlive _ (dict_get_elem _ _ _ Hl)).
Qed.



(* ===================================================================== *)
(** ** Lifetimes and restarts *)
(* ===================================================================== *)

Lemma is_authenticated_state service_name st :
  snd (OAuth2Manager.is_authenticated service_name st)
  = snd (OAuth2Manager.get_valid_token service_name st).
Proof.
  unfold OAuth2Manager.is_authenticated. mrun.
  destruct (OAuth2Manager.get_valid_token service_name st) as [[t|e] st1]; reflexivity.
Qed.

Lemma after_invariant c st : invariant st -> invariant (after c st).
Proof.
  intros Hinv. destruct c; simpl.
  - apply (invariant_same st); [exact Hinv | reflexivity | reflexivity].
  - destruct (OAuth2Manager.generate_authorization_url service_name state st) as [r st'] eqn:Hr.
    exact (generate_invariant _ _ _ _ _ Hinv Hr).
  - destruct (OAuth2Manager.exchange_code_for_token service_name authorization_code state st)
      as [r st'] eqn:Hr.
    exact (exchange_invariant _ _ _ _ _ _ Hinv Hr).
  - destruct (OAuth2Manager.refresh_token service_name st) as [r st'] eqn:Hr.
    exact (refresh_invariant _ _ _ _ Hinv Hr).
  - destruct (OAuth2Manager.get_valid_token service_name st) as [r st'] eqn:Hr.
    exact (get_valid_token_invariant _ _ _ _ Hinv Hr).
  - rewrite is_authenticated_state.
    destruct (OAuth2Manager.get_valid_token service_name st) as [r st'] eqn:Hr.
    exact (get_valid_token_invariant _ _ _ _ Hinv Hr).
  - destruct (OAuth2Manager.revoke_token service_name st) as [r st'] eqn:Hr.
    exact (revoke_invariant _ _ _ _ Hinv Hr).
Qed.

Lemma calls_invariant calls st :
  invariant st -> invariant (fold_left (fun st c => after c st) calls st).
Proof.
  revert st. induction calls as [|c calls IH]; intros st Hinv; simpl; [exact Hinv|].
  apply IH, after_invariant, Hinv.
Qed.

(** X18. Every state a manager can be in, from its construction on and
    whatever is called on it, has a token dict with one item per service
    whose references are live and whose expiries are valid dates. *)
Theorem reachable_states_are_well_formed
    (token_store_path : option string) (calls : list call) (st : State) :
  invariant (lifetime token_store_path calls st).
Proof.
  unfold lifetime. apply calls_invariant.
  destruct (OAuth2Manager.__init__ token_store_path st) as [r st'] eqn:Hr.
  exact (init_invariant _ _ _ _ Hr).
Qed.

Lemma after_store_frame c st : store_frame st (after c st).
Proof.
  destruct c; simpl.
  - apply store_frame_same; reflexivity.
  - apply generate_store_frame.
  - apply exchange_store_frame.
  - apply refresh_store_frame.
  - apply get_valid_token_store_frame.
  - rewrite is_authenticated_state. apply get_valid_token_store_frame.
  - apply revoke_store_frame.
Qed.

Lemma calls_store_frame calls st :
  store_frame st (fold_left (fun st c => after c st) calls st).
Proof.
  revert st. induction calls as [|c calls IH]; intros st; simpl; [apply store_frame_refl|].
  eapply store_frame_trans; [apply after_store_frame | apply IH].
Qed.

(** X19. The store path is fixed when the manager is built (the argument if it
    is not empty, else [OAUTH2_TOKEN_STORE], else [.oauth_tokens.json])
    and no call changes it; whatever is called, no file but the one at
    the store path is ever created or changed, and none at all when the
    store path is empty. *)
Theorem only_the_token_store_is_written
    (token_store_path' : option string) (calls : list call) (st : State) :
  let path := OAuth2Manager.resolve_store_path token_store_path' (env_token_store (env st)) in
  let st' := lifetime token_store_path' calls st in
  token_store_path (self st') = path
  /\ (forall p, p <> path -> disk st' !! p = disk st !! p)
  /\ (str_truthy path = false -> disk st' = disk st).
Proof.
  intros path st'. subst st'. unfold lifetime.
  destruct (init_spec token_store_path' st) as (st1 & Hrun & _ & Hpath & _ & Hdisk & Henv & _).
  rewrite Hrun. simpl. fold path in Hpath.
  destruct (calls_store_frame calls st1) as (Hp & _ & Hd & Hu).
  rewrite Hpath in Hp, Hd, Hu. rewrite Hdisk in Hd, Hu.
  split; [exact Hp|]. split; assumption.
Qed.

(** ** Restarting *)

Lemma view_set h toks svc t :
  Forall (fun kl => (snd kl < length h)%nat) toks ->
  view (h ++ [t]) (Dict.set svc (length h) toks) = Dict.set svc (Some t) (view h toks).
Proof.
  induction toks as [|[k l] toks IH]; intros Hlocs; simpl.
  - rewrite list_lookup_middle by reflexivity. reflexivity.
  - apply Forall_cons in Hlocs as [Hl Hlocs]. simpl in Hl.
    destruct (String.eqb k svc); simpl.
    + rewrite list_lookup_middle by reflexivity. f_equal.
      apply view_extend. exact Hlocs.
    + rewrite lookup_app_l by exact Hl. f_equal. apply IH. exact Hlocs.
Qed.

Lemma load_all_view items toks h :
  Forall (fun kl => (snd kl < length h)%nat) toks ->
  view (snd (load_all items toks h)) (snd (fst (load_all items toks h)))
  = load_view items (view h toks).
Proof.
  revert toks h. induction items as [|[svc j] items IH]; intros toks h Hlocs; [reflexivity|].
  cbn [load_all load_view]. destruct (read_entry j) as [t|e]; [|reflexivity].
  rewrite IH.
  - rewrite view_set by exact Hlocs. reflexivity.
  - apply Forall_forall. intros kl Hin. rewrite length_app. simpl.
    apply dict_set_elem in Hin as [Hin | ->]; [|simpl; lia].
    rewrite Forall_forall in Hlocs. specialize (Hlocs kl Hin). lia.
Qed.

(** The token set a new manager starts with is read off the file at the
    store path alone. *)
Lemma init_token_set store_arg st :
  let path := OAuth2Manager.resolve_store_path store_arg (env_token_store (env st)) in
  token_set (snd (OAuth2Manager.__init__ store_arg st))
  = match (if str_truthy path then disk st !! path else None) with
    | Some (JsonDoc (JDict items)) => load_view items []
    | _ => []
    end.
Proof.
  intros path.
  destruct (init_spec store_arg st) as (st1 & Hrun & _ & _ & _ & _ & _ & Hload).
  rewrite Hrun. simpl. fold path in Hload. cbv zeta in Hload. unfold token_set.
  destruct (if str_truthy path then disk st !! path else None) as [[raw|doc]|];
    try (destruct Hload as [-> _]; reflexivity).
  destruct doc; try (destruct Hload as [-> _]; reflexivity).
  destruct Hload as [-> ->].
  apply (load_all_view d ([] : list (string * loc)) (heap st)). constructor.
Qed.

(** The file [_save_tokens] writes is read back as the token set it was
    written from. *)
Lemma restart_after_save store_arg st :
  invariant st ->
  str_truthy (token_store_path (self st)) = true ->
  env_writable (env st) (token_store_path (self st)) = true ->
  OAuth2Manager.resolve_store_path store_arg (env_token_store (env st))
    = token_store_path (self st) ->
  token_set (snd (OAuth2Manager.__init__ store_arg (saved st))) = token_set st.
Proof.
  intros [Hwf Hexp] Hpath Hw Hres.
  destruct (well_formed_pairs st Hwf) as (pairs & HF & Hset & Hkeys).
  assert (Hser : serialized (heap st) (tokens (self st)) [] = Some (map record_item pairs)).
  { apply (serialized_records (heap st) (tokens (self st)) pairs []); [exact HF|].
    simpl. rewrite Hkeys. apply Hwf. }
  destruct (init_spec store_arg (saved st)) as (st2 & Hrun & _ & _ & _ & _ & _ & Hload).
  rewrite Hrun. simpl.
  destruct (saved_frame st) as (Hs & Hh & He & _).
  cbv zeta in Hload. rewrite He, Hres, Hpath in Hload.
  assert (Hdisk : disk (saved st) !! token_store_path (self st)
                  = Some (JsonDoc (JDict (map record_item pairs)))).
  { unfold saved. rewrite Hpath, Hser, Hw. simpl. apply lookup_insert_eq. }
  rewrite Hdisk, Hh in Hload. destruct Hload as [Ht Hhp].
  destruct (load_all_records pairs ([] : list (string * loc)) (heap st))
    as (toks' & h' & Hall & Hview).
  - unfold expiries_valid in Hexp. rewrite Hset in Hexp.
    rewrite Forall_map in Hexp. exact Hexp.
  - simpl. rewrite Hkeys. apply Hwf.
  - constructor.
  - rewrite Hall in Ht, Hhp. simpl in Ht, Hhp.
    rewrite token_set_view, Ht, Hhp, Hview, Hset. reflexivity.
Qed.

Lemma settles_same st st' :
  heap st' = heap st -> tokens (self st') = tokens (self st) -> disk st' = disk st ->
  settles st st'.
Proof. intros Hh Ht Hd. left. unfold token_set. rewrite Hh, Ht. split; [reflexivity | exact Hd]. Qed.

Lemma settles_trans st1 st2 st3 :
  token_store_path (self st2) = token_store_path (self st1) ->
  env st2 = env st1 ->
  settles st1 st2 -> settles st2 st3 -> settles st1 st3.
Proof.
  intros Hp He [[Ht1 Hd1] | (x & Hx & Hxp & Hxe & Hxt & Hxd)]
               [[Ht2 Hd2] | (y & Hy & Hyp & Hye & Hyt & Hyd)].
  - left. split; congruence.
  - right. exists y. split; [exact Hy|]. repeat split; congruence.
  - right. exists x. split; [exact Hx|]. repeat split; congruence.
  - right. exists y. split; [exact Hy|]. repeat split; congruence.
Qed.

Lemma token_set_saved st : token_set (saved st) = token_set st.
Proof. destruct (saved_frame st) as (Hs & Hh & _). unfold token_set. rewrite Hs, Hh. reflexivity. Qed.

Lemma exchange_settles service_name code state st :
  invariant st ->
  settles st (snd (OAuth2Manager.exchange_code_for_token service_name code state st)).
Proof.
  intros Hinv.
  destruct (configs (self st) !! service_name) as [config|] eqn:Hc.
  2:{ rewrite exchange_unconfigured by exact Hc. apply settles_same; reflexivity. }
  destruct (cached_verifier service_name state st) as [v|] eqn:Hv.
  2:{ destruct (exchange_missing_verifier service_name code state st) as (e & He & _); eauto.
      rewrite He. apply settles_same; reflexivity. }
  pose proof (exchange_outcome service_name code state st config v Hc Hv) as H. simpl in H.
  destruct (OAuth2Manager.exchange_code_for_token service_name code state st) as [[l|e] st'] eqn:Hrun;
    simpl.
  - destruct H as (_ & _ & _ & _ & status & td & tok & Hout & Hok & Hacc & Hexp & _).
    destruct td as [| | | | | |d]; simpl in Hacc; try discriminate.
    destruct (Dict.get "access_token" d) as [access|] eqn:Ha; [|discriminate].
    destruct (exchange_success_state service_name code state st config v status d access
                (OAuth2Token.expires_at tok) Hc Hv Hout Hok Ha Hexp)
      as (st0 & Hrun0 & Hheap & Htok & _ & Hpath & _ & Henv & _).
    rewrite Hrun in Hrun0. injection Hrun0 as _ ->.
    right. exists st0. split; [|split; [exact Hpath | split; [exact Henv|]]].
    + apply invariant_dict. rewrite Hheap, Htok. apply dict_invariant_store.
      * apply invariant_dict. exact Hinv.
      * apply (expiry_read_valid _ _ _ Hexp).
    + split; [|reflexivity]. exact (token_set_saved st0).
  - destruct H as (_ & _ & _ & _ & Ht & Hh & Hd & _). apply settles_same; assumption.
Qed.

Lemma refresh_settles service_name st :
  invariant st ->
  settles st (snd (OAuth2Manager.refresh_token service_name st)).
Proof.
  intros Hinv.
  destruct (OAuth2Manager.refresh_token service_name st) as [[l|e] st'] eqn:Hrun; simpl.
  - destruct (refresh_success _ _ _ _ Hrun)
      as (config & tok & status & td & access & expiry & st2 & _ & _ & _ & _ & _ & _ & _
          & Hexp & _ & _ & _ & _ & Hh & Hh2 & Hs2 & Hd2 & He2 & Hsaved).
    right. exists st2. split; [|split; [rewrite Hs2; reflexivity | split; [exact He2|]]].
    + apply invariant_dict. rewrite Hh2, Hh, Hs2. apply dict_invariant_update.
      * apply invariant_dict. exact Hinv.
      * apply (expiry_read_valid _ _ _ Hexp).
    + rewrite Hsaved. split; [apply token_set_saved | reflexivity].
  - destruct (refresh_failure_atomic _ _ _ _ Hrun) as (Hs & Hh & Hd & _).
    apply settles_same; [exact Hh | rewrite Hs; reflexivity | exact Hd].
Qed.

Lemma get_valid_token_settles service_name st :
  invariant st ->
  settles st (snd (OAuth2Manager.get_valid_token service_name st)).
Proof.
  intros Hinv.
  unfold OAuth2Manager.get_valid_token. mrun. unfold deref, datetime_now.
  destruct (Dict.get service_name (tokens (self st))) as [l|]; [|apply settles_same; reflexivity].
  destruct (heap st !! l) as [tok|]; [|apply settles_same; reflexivity].
  destruct (OAuth2Token.expires_at tok) as [expiry|]; simpl; [|apply settles_same; reflexivity].
  destruct (Datetime.ge _ expiry); simpl; [|apply settles_same; reflexivity].
  assert (Hinv' : invariant (with_ticks S st)).
  { apply (invariant_same st); [exact Hinv | reflexivity | reflexivity]. }
  pose proof (refresh_settles service_name (with_ticks S st) Hinv') as H.
  destruct (OAuth2Manager.refresh_token service_name (with_ticks S st)) as [[t|e] st1]; simpl in *.
  - apply (settles_trans st (with_ticks S st)); [reflexivity | reflexivity | | exact H].
    apply settles_same; reflexivity.
  - apply (settles_trans st (with_ticks S st)); [reflexivity | reflexivity | |].
    + apply settles_same; reflexivity.
    + destruct H as [[Ht Hd] | (x & Hx & Hxp & Hxe & Hxt & Hxd)].
      * left. split; assumption.
      * right. exists x. split; [exact Hx|]. repeat split; assumption.
Qed.

Lemma revoke_settles service_name st :
  invariant st ->
  settles st (snd (OAuth2Manager.revoke_token service_name st)).
Proof.
  intros Hinv. rewrite revoke_token_eq. simpl.
  destruct (Dict.mem service_name (tokens (self st))); [|apply settles_same; reflexivity].
  right. eexists. split; [|split; [|split; [|split; [apply token_set_saved | reflexivity]]]].
  - apply invariant_dict. simpl. apply dict_invariant_delete. apply invariant_dict. exact Hinv.
  - reflexivity.
  - reflexivity.
Qed.

Lemma after_settles c st : invariant st -> settles st (after c st).
Proof.
  intros Hinv. destruct c; simpl.
  - apply settles_same; reflexivity.
  - destruct (configs (self st) !! service_name) as [config|] eqn:Hcfg.
    + rewrite (generate_eq _ _ _ _ Hcfg). apply settles_same; reflexivity.
    + rewrite generate_unconfigured by exact Hcfg. apply settles_same; reflexivity.
  - apply exchange_settles. exact Hinv.
  - apply refresh_settles. exact Hinv.
  - apply get_valid_token_settles. exact Hinv.
  - rewrite is_authenticated_state. apply get_valid_token_settles. exact Hinv.
  - apply revoke_settles. exact Hinv.
Qed.

Lemma settles_durable store_arg st st' :
  str_truthy (token_store_path (self st)) = true ->
  env_writable (env st) (token_store_path (self st)) = true ->
  OAuth2Manager.resolve_store_path store_arg (env_token_store (env st))
    = token_store_path (self st) ->
  env st' = env st ->
  settles st st' -> durable store_arg st -> durable store_arg st'.
Proof.
  intros Hpath Hw Hres He Hset Hdur. unfold durable in *.
  rewrite init_token_set in *. cbv zeta in *. rewrite He.
  destruct Hset as [[Ht Hd] | (x & Hx & Hxp & Hxe & Hxt & Hxd)].
  - rewrite Hd, Ht. exact Hdur.
  - rewrite Hxd, Hxt. rewrite <- Hxp in Hpath. rewrite <- Hxp, <- Hxe in Hw, Hres.
    rewrite <- (restart_after_save store_arg x Hx Hpath Hw Hres).
    rewrite init_token_set. cbv zeta.
    destruct (saved_frame x) as (_ & _ & Hes & _). rewrite Hes, Hxe. reflexivity.
Qed.

Lemma calls_durable store_arg calls st :
  invariant st ->
  str_truthy (token_store_path (self st)) = true ->
  env_writable (env st) (token_store_path (self st)) = true ->
  OAuth2Manager.resolve_store_path store_arg (env_token_store (env st))
    = token_store_path (self st) ->
  durable store_arg st ->
  durable store_arg (fold_left (fun st c => after c st) calls st).
Proof.
  revert st. induction calls as [|c calls IH]; intros st Hinv Hpath Hw Hres Hdur; [exact Hdur|].
  simpl. destruct (after_store_frame c st) as (Hp & He & _).
  apply IH.
  - apply after_invariant. exact Hinv.
  - rewrite Hp. exact Hpath.
  - rewrite Hp, He. exact Hw.
  - rewrite Hp, He. exact Hres.
  - eapply settles_durable; try eassumption. apply after_settles. exact Hinv.
Qed.

Lemma lifetime_durable store_arg calls st :
  let path := OAuth2Manager.resolve_store_path store_arg (env_token_store (env st)) in
  str_truthy path = true ->
  env_writable (env st) path = true ->
  durable store_arg (lifetime store_arg calls st).
Proof.
  intros path Hpath Hw. unfold lifetime.
  destruct (init_spec store_arg st) as (st0 & Hrun & _ & Hp & _ & Hdisk & Henv & _).
  fold path in Hp. rewrite Hrun. simpl.
  apply calls_durable.
  - exact (init_invariant _ _ _ _ Hrun).
  - rewrite Hp. exact Hpath.
  - rewrite Hp, Henv. exact Hw.
  - rewrite Hp, Henv. reflexivity.
  - unfold durable. rewrite !init_token_set. cbv zeta.
    pose proof (init_token_set store_arg st) as H0. cbv zeta in H0.
    rewrite Hrun in H0. simpl in H0. rewrite H0, Henv, Hdisk. reflexivity.
Qed.



(* ===================================================================== *)
(** ** The token file *)
(* ===================================================================== *)

Lemma token_set_keys st : map fst (token_set st) = Dict.keys (tokens (self st)).
Proof. unfold token_set, view, Dict.keys. rewrite map_map. reflexivity. Qed.

Lemma lifetime_snoc store_arg calls c st :
  lifetime store_arg (calls ++ [c]) st = after c (lifetime store_arg calls st).
Proof. unfold lifetime. rewrite fold_left_app. reflexivity. Qed.



Lemma serialized_lookup (h : list OAuth2Token.t) (items : list (string * loc)) pairs svc l tok :
  Forall2 (fun kl p => fst kl = fst p /\ h !! snd kl = Some (snd p)) items pairs ->
  Dict.get svc items = Some l -> h !! l = Some tok ->
  Dict.get svc (map record_item pairs) = Some (OAuth2Manager.token_record tok).
Proof.
  induction 1 as [|[k l0] [k' t] items pairs [Hk Hl0] HF IH]; simpl; [discriminate|].
  simpl in Hk, Hl0. subst k'.
  destruct (String.eqb k svc); [|exact IH].
  intros [= ->] Hh. rewrite Hl0 in Hh. injection Hh as ->. reflexivity.
Qed.

(** X14. [_save_tokens] never raises and never changes the manager or its
    tokens. With an empty store path it does nothing; when the file
    cannot be written it logs one warning and leaves the disk alone;
    otherwise it replaces the file by one object with an entry per
    service, in the order of the token dict, each the record of the
    token held for that service. *)
Theorem save_tokens_is_best_effort (st : State) :
  well_formed st ->
  let path := token_store_path (self st) in
  exists st',
    OAuth2Manager._save_tokens st = (Ok tt, st')
    /\ self st' = self st /\ heap st' = heap st
    /\ (str_truthy path = false -> st' = st)
    /\ (str_truthy path = true -> env_writable (env st) path = false ->
          disk st' = disk st
          /\ trace st'
             = EvLog WARNING "Failed to save OAuth2 tokens: " (Cause OSError) :: trace st)
    /\ (str_truthy path = true -> env_writable (env st) path = true ->
          trace st' = trace st
          /\ exists d,
               disk st' = <[path := JsonDoc (JDict d)]> (disk st)
               /\ Dict.keys d = Dict.keys (tokens (self st))
               /\ forall svc l tok,
                    Dict.get svc (tokens (self st)) = Some l ->
                    heap st !! l = Some tok ->
                    Dict.get svc d
                    = Some (JDict [ ("access_token", OAuth2Token.access_token tok);
                                    ("refresh_token", OAuth2Token.refresh_token tok);
                                    ("expires_at",
                                      match OAuth2Token.expires_at tok with
                                      | Some at_ => JStr (Datetime.isoformat at_)
                                      | None => JNull
                                      end);
                                    ("token_type", OAuth2Token.token_type tok);
                                    ("scope", OAuth2Token.scope tok) ])).
Proof.
  intros Hwf path. rewrite save_tokens_eq. exists (saved st). split; [reflexivity|].
  destruct (saved_frame st) as (Hs & Hh & _).
  split; [exact Hs|]. split; [exact Hh|].
  destruct (well_formed_pairs st Hwf) as (pairs & HF & Hset & Hkeys).
  assert (Hser : serialized (heap st) (tokens (self st)) [] = Some (map record_item pairs)).
  { apply (serialized_records (heap st) (tokens (self st)) pairs []); [exact HF|].
    simpl. rewrite Hkeys. apply Hwf. }
  unfold saved. fold path. rewrite Hser.
  split; [intros ->; reflexivity|]. split.
  - intros -> ->. simpl. split; reflexivity.
  - intros -> ->. simpl. split; [reflexivity|].
    exists (map record_item pairs). split; [reflexivity|]. split.
    + rewrite <- Hkeys. unfold Dict.keys. rewrite map_map. reflexivity.
    + intros svc l tok Hl Hheap.
      rewrite (serialized_lookup _ _ _ _ _ _ HF Hl Hheap).
      unfold OAuth2Manager.token_record, OAuth2Manager.opt_json.
      destruct (OAuth2Token.expires_at tok); reflexivity.
Qed.

Lemma save_tokens_is_best_effort_witness :
  let st := authenticated lasting_token TransportFailure in
  exists st',
    OAuth2Manager._save_tokens st = (Ok tt, st')
    /\ disk st' !! ".oauth_tokens.json"
       = Some (JsonDoc (JDict [("svc", JDict [ ("access_token", JStr "tok1");
                                               ("refresh_token", JStr "ref1");
                                               ("expires_at", JNull);
                                               ("token_type", JStr "Bearer");
                                               ("scope", JNull) ])])).
Proof.
  intros st.
  destruct (save_tokens_is_best_effort st) as (st' & Hrun & _ & _ & _ & _ & Hok).
  - split; [simpl; apply NoDup_singleton | repeat constructor; simpl; eauto].
  - exists st'. split; [exact Hrun|].
    destruct (Hok eq_refl eq_refl) as (_ & d & Hdisk & Hkeys & Hget).
    rewrite Hdisk. simpl. rewrite lookup_insert_eq.
    specialize (Hget "svc" 0%nat lasting_token eq_refl eq_refl). simpl in Hget.
    destruct d as [|[k v] [|? ?]]; try discriminate Hkeys.
    simpl in Hkeys. injection Hkeys as ->. simpl in Hget. injection Hget as ->. reflexivity.
Defined.

Lemma load_tokens_trace st :
  let st' := snd (OAuth2Manager._load_tokens st) in
  trace st' = load_report st (Dict.keys (tokens (self st'))) ++ trace st.
Proof.
  unfold OAuth2Manager._load_tokens, load_report. mrun.
  destruct (str_truthy (token_store_path (self st))); simpl; [|reflexivity].
  destruct (disk st !! token_store_path (self st)) as [content|] eqn:Hfile; simpl; [|reflexivity].
  unfold OAuth2Manager.read_json. rewrite Hfile.
  destruct content as [raw|doc]; simpl; [reflexivity|].
  destruct doc; simpl; try reflexivity.
  destruct (for_each_load d st) as (st1 & Hrun & Ht & Hh & Hs).
  rewrite Hrun.
  destruct Hs as (H1 & H2 & H3 & H4 & H5 & H6 & H7 & H8).
  destruct (fst (fst (load_all d (tokens (self st)) (heap st)))); simpl; rewrite H5; reflexivity.
Qed.

Lemma load_all_complete items toks h :
  Forall (fun it => is_Some (entry_token (snd it))) items ->
  fst (fst (load_all items toks h)) = None.
Proof.
  revert toks h. induction items as [|[svc j] items IH]; intros toks h Hgood; [reflexivity|].
  apply Forall_cons in Hgood as [[t Ht] Hgood]. cbn [load_all]. unfold entry_token in Ht.
  simpl in Ht. destruct (read_entry j); [apply IH; exact Hgood | discriminate].
Qed.

Lemma stored_token_view service_name st :
  stored_token service_name st = mjoin (Dict.get service_name (token_set st)).
Proof.
  unfold stored_token, token_set, view.
  induction (tokens (self st)) as [|[k l] toks IH]; simpl; [reflexivity|].
  destruct (String.eqb k service_name); [reflexivity | exact IH].
Qed.

Lemma dict_get_map_NoDup {A V} (f : string * A -> V) (items : list (string * A)) k a :
  NoDup (map fst items) -> In (k, a) items ->
  Dict.get k (map (fun it => (fst it, f it)) items) = Some (f (k, a)).
Proof.
  induction items as [|[k' a'] items IH]; simpl; [intros _ []|].
  intros Hnd [Heq | Hin].
  - injection Heq as -> ->. rewrite String.eqb_refl. reflexivity.
  - apply NoDup_cons in Hnd as [Hfresh Hnd].
    destruct (String.eqb k' k) eqn:E.
    + apply String.eqb_eq in E. subst k'. exfalso. apply Hfresh.
      apply list_elem_of_In. apply in_map_iff. exists (k, a). split; [reflexivity | exact Hin].
    + apply IH; assumption.
Qed.



(** X16. A manager starts blank: it knows no service and holds no pending
    authorization, whatever manager ran before over the same store. So
    an authorization begun before a restart cannot be completed after
    it: the exchange is refused as not configured and, once the config
    is registered again, for want of any verifier. *)
Theorem new_manager_starts_blank (token_store_path' : option string) (st : State) :
  exists st',
    OAuth2Manager.__init__ token_store_path' st = (Ok tt, st')
    /\ configs (self st') = ∅
    /\ _code_verifiers (self st') = None
    /\ (forall service_name state,
          OAuth2Manager.generate_authorization_url service_name state st'
          = (Raise (ValueError ("Service " +:+ service_name +:+ " not configured")), st'))
    /\ (forall service_name code state,
          OAuth2Manager.exchange_code_for_token service_name code state st'
          = (Raise (ValueError ("Service " +:+ service_name +:+ " not configured")), st'))
    /\ (forall service_name config code state st1,
          OAuth2Manager.add_service_config service_name config st' = (Ok tt, st1) ->
          OAuth2Manager.exchange_code_for_token service_name code state st1
          = (Raise (ValueError "No code verifier found"), st1)).
Proof.
  destruct (init_spec token_store_path' st) as (st' & Hrun & Hcfg & _ & Hcache & _).
  exists st'. split; [exact Hrun|]. split; [exact Hcfg|]. split; [exact Hcache|].
  split; [|split].
  - intros service_name state. apply generate_unconfigured. rewrite Hcfg. apply lookup_empty.
  - intros service_name code state. apply exchange_unconfigured. rewrite Hcfg. apply lookup_empty.
  - intros service_name config code state st1 [= <-].
    unfold OAuth2Manager.exchange_code_for_token, OAuth2Manager._get_code_verifier. mrun.
    rewrite lookup_insert_eq. simpl. rewrite Hcache. reflexivity.
Qed.

(** X17. [add_service_config] registers the config under the name, replacing
    any earlier one, and touches nothing else: the other configs, the
    tokens, the pending authorizations and the disk stay as they were.
    From then on an authorization URL for the service is issued, on the
    endpoint of the new config. *)
Theorem add_service_config_registers
    (service_name : string) (config : OAuth2Config.t) (st : State) :
  exists st',
    OAuth2Manager.add_service_config service_name config st = (Ok tt, st')
    /\ configs (self st') !! service_name = Some config
    /\ (forall other, other <> service_name ->
          configs (self st') !! other = configs (self st) !! other)
    /\ tokens (self st') = tokens (self st)
    /\ _code_verifiers (self st') = _code_verifiers (self st)
    /\ token_store_path (self st') = token_store_path (self st)
    /\ heap st' = heap st /\ disk st' = disk st /\ trace st' = trace st
    /\ (forall state, exists query state' st'',
          OAuth2Manager.generate_authorization_url service_name state st'
          = (Ok (OAuth2Config.authorization_url config +:+ "?" +:+ query, state'), st'')).
Proof.
  eexists. split; [reflexivity|]. simpl.
  split; [apply lookup_insert_eq|].
  split; [intros other Hne; apply lookup_insert_ne; congruence|].
  do 6 (split; [reflexivity|]).
  intros state. eexists _, _, _. apply generate_eq. simpl. apply lookup_insert_eq.
Qed.

(* ===================================================================== *)
(** ** Exchanges and the other tokens *)
(* ===================================================================== *)

Lemma exchange_other_verifiers service_name code state st s t :
  OAuth2Manager.verifier_key s t <> OAuth2Manager.verifier_key service_name state ->
  cached_verifier s t (snd (OAuth2Manager.exchange_code_for_token service_name code state st))
  = cached_verifier s t st.
Proof.
  intros Hne.
  unfold OAuth2Manager.exchange_code_for_token. mrun.
  unfold OAuth2Manager._get_code_verifier. mrun.
  unfold requests_post. simpl.
  unfold OAuth2Manager.compute_expires_at, raise_for_status, response_json, datetime_now, new_token. mrun.
  crunch.
  all: unfold cached_verifier; simpl; use_saved; simpl.
  all: try reflexivity.
  all: match goal with
       | H : _code_verifiers _ = Some _ |- _ => rewrite H
       end.
  all: apply lookup_delete_ne; congruence.
Qed.

(** X8. An exchange, whatever its outcome, changes no token object that
    exists: a token it obtains is a new object. The tokens of the other
    services, and the authorizations pending under other keys, stay as
    they were. *)
Theorem exchange_leaves_other_tokens (service_name code state : string) (st : State) :
  well_formed st ->
  let st' := snd (OAuth2Manager.exchange_code_for_token service_name code state st) in
  (forall l tok, heap st !! l = Some tok -> heap st' !! l = Some tok)
  /\ (forall other, other <> service_name ->
        Dict.get other (tokens (self st')) = Dict.get other (tokens (self st))
        /\ stored_token other st' = stored_token other st)
  /\ (forall s t,
        OAuth2Manager.verifier_key s t <> OAuth2Manager.verifier_key service_name state ->
        cached_verifier s t st' = cached_verifier s t st).
Proof.
  intros Hwf st'.
  assert (Hcases :
    (heap st' = heap st /\ tokens (self st') = tokens (self st))
    \/ (exists tok, heap st' = heap st ++ [tok]
          /\ tokens (self st') = Dict.set service_name (length (heap st)) (tokens (self st)))).
  { subst st'.
    destruct (configs (self st) !! service_name) as [config|] eqn:Hc.
    2:{ rewrite exchange_unconfigured by exact Hc. left. split; reflexivity. }
    destruct (cached_verifier service_name state st) as [v|] eqn:Hv.
    2:{ destruct (exchange_missing_verifier service_name code state st) as (e & He & _); eauto.
        rewrite He. left. split; reflexivity. }
    pose proof (exchange_outcome service_name code state st config v Hc Hv) as H. simpl in H.
    destruct (OAuth2Manager.exchange_code_for_token service_name code state st) as [[l|e] st1];
      simpl.
    - destruct H as (_ & _ & _ & _ & status & td & tok & _ & _ & _ & _ & -> & Hh & Ht).
      right. exists tok. split; assumption.
    - destruct H as (_ & _ & _ & _ & Ht & Hh & _). left. split; assumption. }
  split; [|split].
  - intros l tok Hl. destruct Hcases as [[-> _] | (tok' & -> & _)]; [exact Hl|].
    apply lookup_app_l_Some. exact Hl.
  - intros other Hne.
    destruct Hcases as [[Hh Ht] | (tok' & Hh & Ht)]; unfold stored_token; rewrite Ht, Hh.
    + split; reflexivity.
    + rewrite dict_get_set_ne by congruence. split; [reflexivity|].
      destruct (Dict.get other (tokens (self st))) as [l|] eqn:Hl; [|reflexivity].
      destruct (well_formed_lookup st other l Hwf Hl) as [tok Htok].
      rewrite Htok. apply lookup_app_l_Some. exact Htok.
  - intros s t Hne. apply exchange_other_verifiers. exact Hne.
Qed.

Lemma exchange_leaves_other_tokens_witness :
  let st := with_self (set_code_verifiers (Some {[ "svc:xyz" := "verifier" ]}))
              (authenticated lasting_token token_response) in
  let st' := snd (OAuth2Manager.exchange_code_for_token "svc" "abc123" "xyz" st) in
  heap st' !! 0%nat = Some lasting_token
  /\ stored_token "svc" st'
     = Some (OAuth2Token.mk (JStr "tok1") (JStr "ref1") (Some (Datetime.mk 2024 1 1 13 0 0 0))
               (JStr "Bearer") JNull).
Proof.
  intros st st'.
  destruct (exchange_leaves_other_tokens "svc" "abc123" "xyz" st) as (Hobj & _).
  - split; [simpl; apply NoDup_singleton | repeat constructor; simpl; eauto].
  - split; [apply (Hobj 0%nat lasting_token); reflexivity | vm_compute; reflexivity].
Defined.

(* ===================================================================== *)
(** ** Revocation *)
(* ===================================================================== *)

Lemma dict_keys_del {V} k (d : list (string * V)) :
  Dict.keys (Dict.del k d) = filter (fun k' => k' <> k) (Dict.keys d).
Proof.
  induction d as [|[k' v] d IH]; simpl; [reflexivity|].
  destruct (String.eqb k' k) eqn:E.
  - apply String.eqb_eq in E. subst k'.
    rewrite filter_cons_False by (intros H; apply H; reflexivity). exact IH.
  - apply String.eqb_neq in E. rewrite filter_cons_True by exact E.
    simpl. rewrite IH. reflexivity.
Qed.

(** X13. [revoke_token] only forgets: it sends no request, changes no token
    object (whoever holds the revoked token object still sees its
    fields), and leaves the configs, the pending authorizations and the
    tokens of the other services, in their order, as they were. *)
Theorem revoke_token_only_forgets (service_name : string) (st : State) :
  exists st',
    OAuth2Manager.revoke_token service_name st = (Ok tt, st')
    /\ configs (self st') = configs (self st)
    /\ _code_verifiers (self st') = _code_verifiers (self st)
    /\ heap st' = heap st
    /\ posts (trace st') = posts (trace st)
    /\ Dict.keys (tokens (self st'))
       = filter (fun other => other <> service_name) (Dict.keys (tokens (self st)))
    /\ (forall other, other <> service_name ->
          Dict.get other (tokens (self st')) = Dict.get other (tokens (self st))
          /\ stored_token other st' = stored_token other st).
Proof.
  rewrite revoke_token_eq. eexists. split; [reflexivity|].
  unfold Dict.mem. destruct (Dict.get service_name (tokens (self st))) as [l|] eqn:Hl.
  - match goal with |- context [saved ?X] =>
      destruct (saved_frame X) as (Hs & Hh & _ & _ & _ & Hp)
    end.
    unfold stored_token. rewrite Hs, Hh, Hp. simpl.
    do 4 (split; [reflexivity|]). split; [apply dict_keys_del|].
    intros other Hne. rewrite dict_get_del_ne by congruence. split; reflexivity.
  - do 4 (split; [reflexivity|]). split.
    + rewrite <- dict_keys_del, dict_del_absent by exact Hl. reflexivity.
    + intros other Hne. split; reflexivity.
Qed.

(* ===================================================================== *)
(** ** The predefined configs *)
(* ===================================================================== *)

Section PredefinedConfigs.
Import OAuth2APIConfig.

Lemma when_add_config_run cond service_name config st :
  exists st',
    when cond (OAuth2Manager.add_service_config service_name config) st = (Ok tt, st')
    /\ configs (self st') = put cond service_name config (configs (self st)).
Proof. destruct cond; eexists; split; reflexivity. Qed.

Lemma lookup_put_eq cond k v m : put cond k v m !! k = if cond then Some v else m !! k.
Proof. destruct cond; [apply lookup_insert_eq | reflexivity]. Qed.

Lemma lookup_put_ne cond k v m k' : k <> k' -> put cond k v m !! k' = m !! k'.
Proof. intros Hne. destruct cond; [apply lookup_insert_ne; exact Hne | reflexivity]. Qed.

Lemma lookup_put_Some cond k v m k' v' :
  put cond k v m !! k' = Some v' -> (cond = true /\ k' = k /\ v' = v) \/ m !! k' = Some v'.
Proof.
  destruct cond; [|right; assumption]. unfold put.
  rewrite lookup_insert_Some. intros [[<- <-] | [_ H]]; [left; repeat split | right; exact H].
Qed.

(** X23. [OAuth2APIConfig(...)] registers a service exactly when every
    credential it needs is set and not empty (Shopify also needs the shop
    domain, Zendesk the subdomain), with the predefined config of that
    service and the callback [{redirect_uri}/{service}]; no other name is
    ever registered. *)
Theorem setup_registers_complete_credentials (c : OAuth2APIConfig.t) (st : State) :
  exists st',
    OAuth2APIConfig.__init__ c st = (Ok tt, st')
    /\ configs (self st') !! "salesforce"
       = (if opt_truthy (crm_client_id c) && opt_truthy (crm_client_secret c)
          then Some (ServiceOAuth2Configs.salesforce
                       (opt_str (crm_client_id c)) (opt_str (crm_client_secret c))
                       (redirect_uri c +:+ "/salesforce") (crm_is_sandbox c))
          else None)
    /\ configs (self st') !! "shopify"
       = (if opt_truthy (shopify_client_id c) && opt_truthy (shopify_client_secret c)
             && opt_truthy (shopify_shop_domain c)
          then Some (ServiceOAuth2Configs.shopify
                       (opt_str (shopify_client_id c)) (opt_str (shopify_client_secret c))
                       (redirect_uri c +:+ "/shopify") (opt_str (shopify_shop_domain c)))
          else None)
    /\ configs (self st') !! "hubspot"
       = (if opt_truthy (hubspot_client_id c) && opt_truthy (hubspot_client_secret c)
          then Some (ServiceOAuth2Configs.hubspot
                       (opt_str (hubspot_client_id c)) (opt_str (hubspot_client_secret c))
                       (redirect_uri c +:+ "/hubspot"))
          else None)
    /\ configs (self st') !! "slack"
       = (if opt_truthy (slack_client_id c) && opt_truthy (slack_client_secret c)
          then Some (ServiceOAuth2Configs.slack
                       (opt_str (slack_client_id c)) (opt_str (slack_client_secret c))
                       (redirect_uri c +:+ "/slack"))
          else None)
    /\ configs (self st') !! "calendly"
       = (if opt_truthy (calendly_client_id c) && opt_truthy (calendly_client_secret c)
          then Some (ServiceOAuth2Configs.calendly
                       (opt_str (calendly_client_id c)) (opt_str (calendly_client_secret c))
                       (redirect_uri c +:+ "/calendly"))
          else None)
    /\ configs (self st') !! "zendesk"
       = (if opt_truthy (zendesk_client_id c) && opt_truthy (zendesk_client_secret c)
             && opt_truthy (zendesk_subdomain c)
          then Some (ServiceOAuth2Configs.zendesk
                       (opt_str (zendesk_client_id c)) (opt_str (zendesk_client_secret c))
                       (redirect_uri c +:+ "/zendesk") (opt_str (zendesk_subdomain c)))
          else None)
    /\ (forall name config,
          configs (self st') !! name = Some config ->
          In name ["salesforce"; "shopify"; "hubspot"; "slack"; "calendly"; "zendesk"]
          /\ OAuth2Config.service_name config = name
          /\ OAuth2Config.redirect_uri config = redirect_uri c +:+ "/" +:+ name
          /\ str_truthy (OAuth2Config.client_id config) = true
          /\ str_truthy (OAuth2Config.client_secret config) = true).
Proof.
  destruct (init_spec None st) as (st0 & Hrun & Hcfg & _).
  unfold OAuth2APIConfig.__init__, setup_oauth2_configs.
  unfold bind at 1. rewrite Hrun.
  set (b1 := opt_truthy (crm_client_id c) && opt_truthy (crm_client_secret c)).
  set (b2 := opt_truthy (shopify_client_id c) && opt_truthy (shopify_client_secret c)
             && opt_truthy (shopify_shop_domain c)).
  set (b3 := opt_truthy (hubspot_client_id c) && opt_truthy (hubspot_client_secret c)).
  set (b4 := opt_truthy (slack_client_id c) && opt_truthy (slack_client_secret c)).
  set (b5 := opt_truthy (calendly_client_id c) && opt_truthy (calendly_client_secret c)).
  set (b6 := opt_truthy (zendesk_client_id c) && opt_truthy (zendesk_client_secret c)
             && opt_truthy (zendesk_subdomain c)).
  match goal with |- context [when b1 (OAuth2Manager.add_service_config ?k ?v)] =>
    destruct (when_add_config_run b1 k v st0) as (st1 & Hr1 & Hc1) end.
  unfold bind at 1. rewrite Hr1.
  match goal with |- context [when b2 (OAuth2Manager.add_service_config ?k ?v)] =>
    destruct (when_add_config_run b2 k v st1) as (st2 & Hr2 & Hc2) end.
  unfold bind at 1. rewrite Hr2.
  match goal with |- context [when b3 (OAuth2Manager.add_service_config ?k ?v)] =>
    destruct (when_add_config_run b3 k v st2) as (st3 & Hr3 & Hc3) end.
  unfold bind at 1. rewrite Hr3.
  match goal with |- context [when b4 (OAuth2Manager.add_service_config ?k ?v)] =>
    destruct (when_add_config_run b4 k v st3) as (st4 & Hr4 & Hc4) end.
  unfold bind at 1. rewrite Hr4.
  match goal with |- context [when b5 (OAuth2Manager.add_service_config ?k ?v)] =>
    destruct (when_add_config_run b5 k v st4) as (st5 & Hr5 & Hc5) end.
  unfold bind at 1. rewrite Hr5.
  match goal with |- context [when b6 (OAuth2Manager.add_service_config ?k ?v)] =>
    destruct (when_add_config_run b6 k v st5) as (st6 & Hr6 & Hc6) end.
  exists st6. split; [exact Hr6|].
  rewrite Hc6, Hc5, Hc4, Hc3, Hc2, Hc1, Hcfg.
  assert (Htruthy : forall o, opt_truthy o = true -> str_truthy (opt_str o) = true).
  { intros [s|]; [intros H; exact H | discriminate]. }
  assert (Hpair : forall a b, opt_truthy a && opt_truthy b = true ->
                    str_truthy (opt_str a) = true /\ str_truthy (opt_str b) = true).
  { intros a b H. apply andb_prop in H as [? ?]. split; apply Htruthy; assumption. }
  assert (H2 : b2 = true -> str_truthy (opt_str (shopify_client_id c)) = true
                            /\ str_truthy (opt_str (shopify_client_secret c)) = true).
  { intros H. apply andb_prop in H as [H _]. apply Hpair. exact H. }
  assert (H6 : b6 = true -> str_truthy (opt_str (zendesk_client_id c)) = true
                            /\ str_truthy (opt_str (zendesk_client_secret c)) = true).
  { intros H. apply andb_prop in H as [H _]. apply Hpair. exact H. }
  do 6 (split; [repeat (rewrite lookup_put_ne by discriminate);
                rewrite lookup_put_eq;
                repeat (rewrite lookup_put_ne by discriminate);
                rewrite lookup_empty; reflexivity |]).
  intros name config H.
  repeat (apply lookup_put_Some in H as [(Hb & -> & ->) | H];
          [split; [simpl; tauto|]; (split; [reflexivity|]); (split; [reflexivity|]);
           first [apply H2 | apply H6 | apply Hpair]; exact Hb |]).
  rewrite lookup_empty in H. discriminate.
Qed.

Lemma predefined_endpoint_clean config :
  predefined config ->
  has_char "?" (OAuth2Config.authorization_url config) = false
  /\ has_char "#" (OAuth2Config.authorization_url config) = false
  /\ (forall tail, exists rest,
        OAuth2Config.authorization_url config +:+ tail = "https://" +:+ rest)
  /\ (exists rest, OAuth2Config.token_url config = "https://" +:+ rest).
Proof.
  intros [id sec uri [] | id sec uri dom H1 H2 | | | | id sec uri sub H1 H2]; simpl;
    rewrite ?has_char_app, ?H1, ?H2;
    (split; [reflexivity|]); (split; [reflexivity|]);
    (split; [intros tail|]); eexists; reflexivity.
Qed.

(** X22. With a predefined config, both endpoints are [https] URLs, and the
    authorization URL is cut by [urlsplit] into the endpoint and a query
    that is exactly the encoded parameters of the request. *)
Theorem predefined_config_authorization_url
    (service_name : string) (state : option string) (st : State) (config : OAuth2Config.t) :
  predefined config ->
  configs (self st) !! service_name = Some config ->
  exists url state' st' verifier,
    OAuth2Manager.generate_authorization_url service_name state st = (Ok (url, state'), st')
    /\ cached_verifier service_name state' st' = Some verifier
    /\ (exists rest, url = "https://" +:+ rest)
    /\ (exists rest, OAuth2Config.token_url config = "https://" +:+ rest)
    /\ UrlParse.parse_qsl (UrlParse.url_query url)
       = OAuth2Manager.authorization_params config state'
           (Base64.b64url_nopad (SHA256.sha256 (str_encode verifier))).
Proof.
  intros Hpre Hcfg.
  destruct (predefined_endpoint_clean config Hpre) as (Hq & Hf & Hauth & Htok).
  rewrite (generate_eq _ _ _ _ Hcfg). cbv zeta.
  do 4 eexists. split; [reflexivity|].
  split; [unfold cached_verifier; simpl; apply lookup_insert_eq|].
  split; [apply Hauth|]. split; [exact Htok|].
  rewrite (url_query_urlencode _ _ Hq Hf). apply parse_qsl_urlencode.
Qed.

Lemma predefined_config_authorization_url_witness :
  let config := ServiceOAuth2Configs.shopify "cid" "sec" "http://localhost:8000/oauth/callback/shopify"
                  "example.myshopify.com" in
  let st := fresh_process (set_configs {[ "shopify" := config ]} no_manager)
              (sample_env TransportFailure noon) in
  exists url state' st' verifier,
    OAuth2Manager.generate_authorization_url "shopify" (Some "xyz") st = (Ok (url, state'), st')
    /\ cached_verifier "shopify" state' st' = Some verifier
    /\ (exists rest, url = "https://" +:+ rest)
    /\ (exists rest, OAuth2Config.token_url config = "https://" +:+ rest)
    /\ UrlParse.parse_qsl (UrlParse.url_query url)
       = OAuth2Manager.authorization_params config state'
           (Base64.b64url_nopad (SHA256.sha256 (str_encode verifier))).
Proof.
  intros config st.
  apply (predefined_config_authorization_url "shopify" (Some "xyz") st config).
  - apply predefined_shopify; reflexivity.
  - reflexivity.
Defined.

End PredefinedConfigs.

(* ===================================================================== *)
(** ** The dashboard *)
(* ===================================================================== *)

Section Dashboard.
Import OAuth2DashboardManager.

Lemma get_authorization_url_eq service_name st :
  OAuth2BaseIntegration.get_authorization_url service_name st
  = match OAuth2Manager.generate_authorization_url service_name None st with
    | (Ok issued, st') => (Ok (fst issued), st')
    | (Raise e, st') => (Raise e, st')
    end.
Proof. reflexivity. Qed.

Lemma collect_authorization_urls_spec names urls st :
  Forall (fun s => has_char ":" s = false) names ->
  NoDup names ->
  (forall s, In s names -> Dict.get s urls = None) ->
  exists urls' st',
    collect_authorization_urls (map (fun s => (s, s)) names) urls st = (Ok urls', st')
    /\ self st' = set_code_verifiers (_code_verifiers (self st')) (self st)
    /\ heap st' = heap st /\ disk st' = disk st /\ posts (trace st') = posts (trace st)
    /\ Dict.keys urls'
       = Dict.keys urls ++ filter (fun s => is_Some (configs (self st) !! s)) names
    /\ (forall s url, Dict.get s urls = Some url -> Dict.get s urls' = Some url)
    /\ (forall s url, Dict.get s urls' = Some url ->
          Dict.get s urls = Some url \/ pending_authorization st st' s url)
    /\ (forall s t, has_char ":" s = false -> ~ In s names ->
          cached_verifier s t st' = cached_verifier s t st).
Proof.
  revert urls st. induction names as [|name names IH]; intros urls st Hcolon Hnd Hfresh.
  - exists urls, st. simpl. split; [reflexivity|].
    split; [destruct (self st); reflexivity|].
    rewrite app_nil_r. repeat split; auto.
  - apply Forall_cons in Hcolon as [Hname Hcolon]. apply NoDup_cons in Hnd as [Hnew Hnd].
    cbn [map collect_authorization_urls]. unfold bind at 1, try_except.
    unfold bind at 1. rewrite get_authorization_url_eq.
    destruct (configs (self st) !! name) as [config|] eqn:Hcfg.
    + rewrite (generate_eq _ _ _ _ Hcfg). cbv zeta. simpl negb. cbv iota.
      set (state := Base64.b64url_nopad (entropy_bytes (env st) (drawn st) 32)).
      set (verifier := Base64.b64url_nopad (entropy_bytes (env st) (drawn st + 32) 32)).
      set (url := OAuth2Config.authorization_url config +:+ "?" +:+ _).
      set (st1 := with_self _ _).
      unfold ret at 1. cbn [fst].
      destruct (IH (Dict.set name url urls) st1 Hcolon Hnd)
        as (urls' & st' & Hrun & Hself & Hheap & Hdisk & Hposts & Hkeys & Hold & Hnewer & Hcache).
      { intros s Hs. rewrite dict_get_set_ne; [apply Hfresh; right; exact Hs|].
        intros ->. apply Hnew. apply list_elem_of_In. exact Hs. }
      exists urls', st'. split; [exact Hrun|].
      split; [rewrite Hself at 1; reflexivity|].
      split; [exact Hheap|]. split; [exact Hdisk|]. split; [exact Hposts|].
      assert (Hv : cached_verifier name state st' = Some verifier).
      { rewrite Hcache; [|exact Hname|intros Hin; apply Hnew, list_elem_of_In, Hin].
        unfold cached_verifier. simpl. apply lookup_insert_eq. }
      split; [|split; [|split]].
      * rewrite Hkeys, dict_keys_set. unfold Dict.mem.
        rewrite (Hfresh name (or_introl eq_refl)). rewrite <- app_assoc. f_equal.
        simpl. rewrite filter_cons_True by (rewrite Hcfg; eauto). reflexivity.
      * intros s u Hs. apply Hold. rewrite dict_get_set_ne; [exact Hs|].
        intros ->. rewrite (Hfresh s (or_introl eq_refl)) in Hs. discriminate.
      * intros s u Hs. destruct (Hnewer s u Hs) as [Hin | Hp].
        -- destruct (String.eqb name s) eqn:E.
           ++ apply String.eqb_eq in E. subst s. rewrite dict_get_set_eq in Hin.
              injection Hin as <-. right. exists config, state, verifier.
              split; [exact Hcfg|]. split; [exact Hv | reflexivity].
           ++ apply String.eqb_neq in E. rewrite dict_get_set_ne in Hin by exact E.
              left. exact Hin.
        -- right. destruct Hp as (c & t & v & Hc & Hcv & Hu).
           exists c, t, v. split; [exact Hc|]. split; assumption.
      * intros s t Hs Hnot. rewrite Hcache; [|exact Hs|intros Hin; apply Hnot; right; exact Hin].
        unfold cached_verifier. simpl. rewrite lookup_insert_ne.
        -- destruct (_code_verifiers (self st)); [reflexivity | apply lookup_empty].
        -- intros Heq. destruct (verifier_key_injective _ _ _ _ Hname Hs Heq) as [-> _].
           apply Hnot. left. reflexivity.
    + rewrite generate_unconfigured by exact Hcfg.
      cbn [any_exception]. unfold bind at 1, log, modify, ret at 1.
      set (st1 := with_trace _ st).
      destruct (IH urls st1 Hcolon Hnd)
        as (urls' & st' & Hrun & Hself & Hheap & Hdisk & Hposts & Hkeys & Hold & Hnewer & Hcache).
      { intros s Hs. apply Hfresh. right. exact Hs. }
      exists urls', st'. split; [exact Hrun|].
      split; [rewrite Hself at 1; reflexivity|].
      split; [exact Hheap|]. split; [exact Hdisk|]. split; [exact Hposts|].
      split; [|split; [|split]].
      * rewrite Hkeys. f_equal. simpl.
        rewrite filter_cons_False; [reflexivity|]. rewrite Hcfg. intros [x Hx]. discriminate.
      * exact Hold.
      * intros s u Hs. destruct (Hnewer s u Hs) as [Hin | Hp]; [left; exact Hin|].
        right. exact Hp.
      * intros s t Hs Hnot. apply Hcache; [exact Hs|]. intros Hin. apply Hnot. right. exact Hin.
Qed.

(** X24. [get_authorization_urls] never raises. It returns one URL for each of
    the six services that has a config, in the order of its list, and
    none for the others; every URL returned is the authorization URL of
    that service's config, with a state and a challenge whose verifier
    is pending when the call returns, so that each of them can be
    completed. No token is touched, nothing is sent, no file written. *)
Theorem get_authorization_urls_lists_configured_services (st : State) :
  exists urls st',
    get_authorization_urls st = (Ok urls, st')
    /\ Dict.keys urls
       = filter (fun s => is_Some (configs (self st) !! s))
           ["salesforce"; "shopify"; "calendly"; "hubspot"; "zendesk"; "slack"]
    /\ (forall service_name url,
          Dict.get service_name urls = Some url ->
          exists config state verifier query,
            configs (self st) !! service_name = Some config
            /\ cached_verifier service_name state st' = Some verifier
            /\ url = OAuth2Config.authorization_url config +:+ "?" +:+ query
            /\ UrlParse.query_values "state" query = [state]
            /\ UrlParse.query_values "code_challenge" query
               = [Base64.b64url_nopad (SHA256.sha256 (str_encode verifier))])
    /\ configs (self st') = configs (self st)
    /\ tokens (self st') = tokens (self st)
    /\ heap st' = heap st /\ disk st' = disk st
    /\ posts (trace st') = posts (trace st).
Proof.
  destruct (collect_authorization_urls_spec
              ["salesforce"; "shopify"; "calendly"; "hubspot"; "zendesk"; "slack"] [] st)
    as (urls & st' & Hrun & Hself & Hheap & Hdisk & Hposts & Hkeys & _ & Hnew & _).
  - repeat constructor.
  - apply NoDup_ListNoDup. repeat constructor; simpl; intuition discriminate.
  - reflexivity.
  - exists urls, st'. split; [exact Hrun|]. split; [exact Hkeys|].
    split; [|rewrite Hself; repeat split; assumption].
    intros service_name url Hget.
    destruct (Hnew service_name url Hget) as [Hin | (config & state & verifier & Hc & Hv & ->)];
      [discriminate|].
    eexists config, state, verifier, _. split; [exact Hc|]. split; [exact Hv|].
    split; [reflexivity|].
    unfold UrlParse.query_values. rewrite parse_qsl_urlencode. split; reflexivity.
Qed.

Lemma exchange_failure_frame service_name code state st e st1 :
  OAuth2Manager.exchange_code_for_token service_name code state st = (Raise e, st1) ->
  tokens (self st1) = tokens (self st) /\ heap st1 = heap st /\ disk st1 = disk st.
Proof.
  intros Hrun.
  destruct (configs (self st) !! service_name) as [config|] eqn:Hc.
  2:{ rewrite exchange_unconfigured in Hrun by exact Hc. injection Hrun as _ <-. repeat split. }
  destruct (cached_verifier service_name state st) as [v|] eqn:Hv.
  2:{ destruct (exchange_missing_verifier service_name code state st) as (e' & He & _); eauto.
      rewrite He in Hrun. injection Hrun as _ <-. repeat split. }
  pose proof (exchange_outcome service_name code state st config v Hc Hv) as H. simpl in H.
  rewrite Hrun in H. destruct H as (_ & _ & _ & _ & Ht & Hh & Hd & _). repeat split; assumption.
Qed.

(** X25. [complete_oauth2_flow] never raises: it answers [True] or [False].
    It answers [False] whenever the exchange fails, and then the token
    set, the token file and the Slack client are as they were; for a
    service other than Slack it answers [True] whenever the exchange
    succeeds; and it answers [True] only if the exchange has put a token
    on record. *)
Theorem complete_oauth2_flow_answers
    {C : Type} (WebClient : json -> Res C)
    (service_name authorization_code state : string) (slack_client : option C) (st : State) :
  exists ok client st',
    complete_oauth2_flow WebClient service_name authorization_code state slack_client st
    = (Ok (ok, client), st')
    /\ (forall e st1,
          OAuth2Manager.exchange_code_for_token service_name authorization_code state st
          = (Raise e, st1) ->
          ok = false /\ client = slack_client
          /\ token_set st' = token_set st /\ disk st' = disk st
          /\ trace st' = EvLog ERROR ("Failed to complete OAuth2 flow for " +:+ service_name
                                      +:+ ": ") (Cause e) :: trace st1)
    /\ (forall l st1,
          OAuth2Manager.exchange_code_for_token service_name authorization_code state st
          = (Ok l, st1) ->
          service_name <> "slack" ->
          ok = true /\ client = slack_client
          /\ st' = with_trace (cons (EvLog INFO ("Successfully completed OAuth2 flow for "
                                                 +:+ service_name) NoDetail)) st1)
    /\ (ok = true ->
          exists l st1,
            OAuth2Manager.exchange_code_for_token service_name authorization_code state st
            = (Ok l, st1)
            /\ Dict.get service_name (tokens (self st1)) = Some l).
Proof.
  unfold complete_oauth2_flow, try_except. unfold bind at 1.
  destruct (OAuth2Manager.exchange_code_for_token service_name authorization_code state st)
    as [[l|e] st1] eqn:Hrun.
  - assert (Hset : Dict.get service_name (tokens (self st1)) = Some l).
    { destruct (configs (self st) !! service_name) as [config|] eqn:Hc.
      2:{ rewrite exchange_unconfigured in Hrun by exact Hc. discriminate. }
      destruct (cached_verifier service_name state st) as [v|] eqn:Hv.
      2:{ destruct (exchange_missing_verifier service_name authorization_code state st)
            as (e' & He & _); eauto. rewrite He in Hrun. discriminate. }
      pose proof (exchange_outcome service_name authorization_code state st config v Hc Hv) as H.
      simpl in H. rewrite Hrun in H.
      destruct H as (_ & _ & _ & _ & status & td & tok & _ & _ & _ & _ & _ & _ & Ht).
      rewrite Ht. apply dict_get_set_eq. }
    destruct (String.eqb service_name "slack") eqn:E.
    + unfold bind at 1.
      destruct (OAuth2SlackIntegration._refresh_slack_client WebClient slack_client st1)
        as [[client|e] st2]; simpl.
      * eexists _, _, _. split; [reflexivity|]. split; [discriminate|].
        split; [intros l0 st0 _ Hne; apply String.eqb_eq in E; contradiction|].
        intros _. exists l, st1. split; [reflexivity | exact Hset].
      * eexists _, _, _. split; [reflexivity|]. split; [discriminate|].
        split; [intros l0 st0 _ Hne; apply String.eqb_eq in E; contradiction|].
        discriminate.
    + simpl. eexists _, _, _. split; [reflexivity|]. split; [discriminate|].
      split; [intros l0 st0 [= <- <-] _; repeat split|].
      intros _. exists l, st1. split; [reflexivity | exact Hset].
  - simpl. eexists _, _, _. split; [reflexivity|].
    destruct (exchange_failure_frame _ _ _ _ _ _ Hrun) as (Ht & Hh & Hd).
    split; [|split; [discriminate|discriminate]].
    intros e0 st0 [= <- <-]. split; [reflexivity|]. split; [reflexivity|].
    split; [unfold token_set; simpl; rewrite Ht, Hh; reflexivity|].
    split; [exact Hd | reflexivity].
Qed.

Lemma is_authenticated_total service_name st :
  invariant st ->
  exists b st',
    OAuth2Manager.is_authenticated service_name st = (Ok b, st')
    /\ self st' = self st
    /\ invariant st'
    /\ (Dict.get service_name (tokens (self st)) = None -> b = false /\ st' = st)
    /\ (forall l tok, Dict.get service_name (tokens (self st)) = Some l ->
          heap st !! l = Some tok -> OAuth2Token.expires_at tok = None ->
          b = true /\ st' = st).
Proof.
  intros Hinv.
  assert (Hinv' : invariant (snd (OAuth2Manager.is_authenticated service_name st))).
  { rewrite is_authenticated_state.
    destruct (OAuth2Manager.get_valid_token service_name st) as [r st1] eqn:Hr.
    exact (get_valid_token_invariant _ _ _ _ Hinv Hr). }
  revert Hinv'. unfold OAuth2Manager.is_authenticated. mrun.
  destruct (Dict.get service_name (tokens (self st))) as [l|] eqn:Hl.
  2:{ rewrite get_valid_token_absent by exact Hl. intros Hinv'.
      exists false, st. split; [reflexivity|]. split; [reflexivity|]. split; [exact Hinv'|].
      split; [intros _; split; reflexivity|]. intros l tok H. discriminate H. }
  destruct (well_formed_lookup st service_name l (proj1 Hinv) Hl) as [tok Hh].
  destruct (OAuth2Token.expires_at tok) as [expiry|] eqn:He.
  - destruct (Datetime.ge (env_clock (env st) (ticks st)) expiry) eqn:Hge.
    + rewrite (get_valid_token_expired service_name st l tok expiry Hl Hh He Hge).
      destruct (OAuth2Manager.refresh_token service_name (with_ticks S st)) as [[t|e] st1] eqn:Hr;
        simpl; intros Hinv'.
      * destruct (refresh_success _ _ _ _ Hr)
          as (? & ? & ? & ? & ? & ? & ? & _ & _ & _ & _ & _ & _ & _ & _ & Hs & _).
        exists true, st1. split; [reflexivity|]. split; [exact Hs|]. split; [exact Hinv'|].
        split; [discriminate|]. intros l0 tok0 [= <-] Hh0. congruence.
      * destruct (refresh_failure_atomic _ _ _ _ Hr) as (Hs & _).
        eexists false, _. split; [reflexivity|]. split; [exact Hs|]. split; [exact Hinv'|].
        split; [discriminate|]. intros l0 tok0 [= <-] Hh0. congruence.
    + rewrite (get_valid_token_current service_name st l tok expiry Hl Hh He Hge).
      simpl. intros Hinv'. eexists true, _. split; [reflexivity|]. split; [reflexivity|].
      split; [exact Hinv'|]. split; [discriminate|]. intros l0 tok0 [= <-] Hh0. congruence.
  - rewrite (get_valid_token_no_expiry service_name st l tok Hl Hh He). simpl. intros Hinv'.
    exists true, st. split; [reflexivity|]. split; [reflexivity|]. split; [exact Hinv'|].
    split; [discriminate|]. intros; split; reflexivity.
Qed.

Lemma authentication_status_spec names status st :
  invariant st ->
  NoDup names ->
  (forall s, In s names -> Dict.get s status = None) ->
  exists status' st',
    authentication_status names status st = (Ok status', st')
    /\ self st' = self st
    /\ Dict.keys status' = Dict.keys status ++ names
    /\ (forall s b, Dict.get s status = Some b -> Dict.get s status' = Some b)
    /\ (forall s, In s names -> Dict.get s (tokens (self st)) = None ->
          Dict.get s status' = Some false).
Proof.
  revert status st. induction names as [|name names IH]; intros status st Hinv Hnd Hfresh.
  - exists status, st. simpl. rewrite app_nil_r. repeat split; auto. intros s [].
  - apply NoDup_cons in Hnd as [Hnew Hnd].
    cbn [authentication_status]. unfold bind.
    destruct (is_authenticated_total name st Hinv) as (b & st1 & Hrun & Hs & Hinv1 & Hnone & _).
    rewrite Hrun.
    destruct (IH (Dict.set name b status) st1 Hinv1 Hnd)
      as (status' & st' & Hrun' & Hs' & Hkeys & Hold & Hfalse).
    { intros s Hin. rewrite dict_get_set_ne; [apply Hfresh; right; exact Hin|].
      intros ->. apply Hnew, list_elem_of_In, Hin. }
    exists status', st'. split; [exact Hrun'|]. split; [congruence|].
    split; [|split].
    + rewrite Hkeys, dict_keys_set. unfold Dict.mem.
      rewrite (Hfresh name (or_introl eq_refl)), <- app_assoc. reflexivity.
    + intros s b' Hget. apply Hold. rewrite dict_get_set_ne; [exact Hget|].
      intros ->. rewrite (Hfresh s (or_introl eq_refl)) in Hget. discriminate.
    + intros s [<- | Hin] Habs.
      * apply Hold. destruct (Hnone Habs) as [-> _]. apply dict_get_set_eq.
      * apply Hfalse; [exact Hin|]. rewrite Hs. exact Habs.
Qed.





End Dashboard.

(* ===================================================================== *)
(** ** Test vectors and scenarios *)
(* ===================================================================== *)

Example sha256_abc :
  SHA256.sha256 (str_encode "abc") =
  [0xba; 0x78; 0x16; 0xbf; 0x8f; 0x01; 0xcf; 0xea; 0x41; 0x41; 0x40; 0xde;
   0x5d; 0xae; 0x22; 0x23; 0xb0; 0x03; 0x61; 0xa3; 0x96; 0x17; 0x7a; 0x9c;
   0xb4; 0x10; 0xff; 0x61; 0xf2; 0x00; 0x15; 0xad].
Proof. vm_compute. reflexivity. Qed.

Example pkce_rfc7636_vector :
  Base64.b64url_nopad (SHA256.sha256 (str_encode
    "dBjftJeZ4CVP-mB92K27uhbUJU1p1r_wW1gFWFOEjXk")) =
  "E9Melhoa2OwvFrEMTJguCHaoeK1t8URWbuGJSstw-cM".
Proof. vm_compute. reflexivity. Qed.

Example urlencode_demo :
  UrlParse.urlencode [("scope", "api refresh_token"); ("redirect_uri", "http://localhost:8000/cb?x=1&y")] =
  "scope=api+refresh_token&redirect_uri=http%3A%2F%2Flocalhost%3A8000%2Fcb%3Fx%3D1%26y".
Proof. vm_compute. reflexivity. Qed.

Example isoformat_demo :
  Datetime.isoformat (Datetime.mk 2024 2 29 23 59 7 0) = "2024-02-29T23:59:07"
  /\ Datetime.isoformat (Datetime.mk 987 12 1 0 0 0 4200) = "0987-12-01T00:00:00.004200"
  /\ Datetime.fromisoformat (JStr "2024-02-29T23:59:07") = Ok (Datetime.mk 2024 2 29 23 59 7 0)
  /\ Datetime.fromisoformat (JStr "2023-02-29T23:59:07") = Raise (ValueError "datetime field out of range")
  /\ Datetime.fromisoformat (JStr "tomorrow") = Raise (ValueError "Invalid isoformat string").
Proof. vm_compute. repeat split. Qed.

Example add_seconds_demo :
  Datetime.add_seconds (Datetime.mk 2023 12 31 23 30 0 17) 3600 = Ok (Datetime.mk 2024 1 1 0 30 0 17)
  /\ Datetime.add_seconds (Datetime.mk 2024 2 28 12 0 0 0) 86400 = Ok (Datetime.mk 2024 2 29 12 0 0 0)
  /\ Datetime.add_seconds (Datetime.mk 2024 3 1 0 0 0 0) (-1) = Ok (Datetime.mk 2024 2 29 23 59 59 0)
  /\ Datetime.add_seconds (Datetime.mk 9999 12 31 23 0 0 0) 3600 = Raise OverflowError
  /\ Datetime.add_seconds (Datetime.mk 2000 12 31 0 0 0 0) (366 * 86400) = Ok (Datetime.mk 2002 1 1 0 0 0 0).
Proof. vm_compute. repeat split. Qed.

(** The walk through the authorization flow: the token of the exchange is
    on record and counts as authenticated. *)
Example login_scenario :
  let st0 := fresh_process no_manager
               (scripted_env [token_response] [noon; noon; noon]) in
  let '(r, st) := login_then_check 0 st0 in
  r = Ok (true, [])
  /\ stored_token "svc" st
     = Some (OAuth2Token.mk (JStr "tok1") (JStr "ref1") (Some (Datetime.mk 2024 1 1 13 0 0 0))
               (JStr "Bearer") JNull)
  /\ cached_verifier "svc" "AAECAwQFBgcICQoLDA0ODxAREhMUFRYXGBkaGxwdHh8" st = None
  /\ posts (trace st) = 1%nat.
Proof. vm_compute. repeat split. Qed.

(** Two hours later the token has expired: the next call refreshes it,
    the new access token replaces the old one and the refresh token the
    response did not renew is kept; the call after that sends nothing. *)
Example refresh_scenario :
  let later := Datetime.mk 2024 1 1 14 0 0 0 in
  let st0 := fresh_process no_manager
               (scripted_env [token_response; refresh_response]
                             [noon; noon; later; later; later]) in
  let '(r, st) := login_then_check 2 st0 in
  r = Ok (true, [Some 0%nat; Some 0%nat])
  /\ stored_token "svc" st
     = Some (OAuth2Token.mk (JStr "tok2") (JStr "ref1") (Some (Datetime.mk 2024 1 1 15 0 0 0))
               (JStr "Bearer") JNull)
  /\ posts (trace st) = 2%nat.
Proof. vm_compute. repeat split. Qed.

(** The state of the authorization request cannot be replayed. *)
Example replay_scenario :
  let '(r1, st1) := OAuth2Manager.exchange_code_for_token "svc" "abc123" "xyz"
                      (pending token_response) in
  let '(r2, st2) := OAuth2Manager.exchange_code_for_token "svc" "abc123" "xyz" st1 in
  r1 = Ok 0%nat /\ r2 = Raise (ValueError "Invalid state parameter") /\ st2 = st1.
Proof. vm_compute. repeat split. Qed.

(** A token file with an entry that is not an object: the entry before it
    is loaded, the one after it is not, and a warning is logged. *)
Example damaged_file_scenario :
  let '(r, st) := OAuth2Manager.__init__ (Some "tokens.json")
                    (restarting (JsonDoc (JDict damaged_file))) in
  r = Ok tt
  /\ Dict.keys (tokens (self st)) = ["crm"]
  /\ trace st = [EvLog WARNING "Failed to load persisted OAuth2 tokens: " (Cause AttributeError)].
Proof. vm_compute. repeat split. Qed.

(** The URL issued for the sample config when the entropy bytes count up:
    32 bytes make the state, the next 32 the verifier. *)
Example authorization_url_example :
  fst (OAuth2Manager.generate_authorization_url "svc" None (pending TransportFailure))
  = Ok ("https://auth.example.com/authorize?response_type=code&client_id=cid"
        +:+ "&redirect_uri=http%3A%2F%2Flocalhost%3A8000%2Fcb&scope=api"
        +:+ "&state=AAECAwQFBgcICQoLDA0ODxAREhMUFRYXGBkaGxwdHh8"
        +:+ "&code_challenge=zwkx4Wi0nph1A8rxivb-JTtrPYKoEAjD6OHuZ8fI3FU"
        +:+ "&code_challenge_method=S256",
        "AAECAwQFBgcICQoLDA0ODxAREhMUFRYXGBkaGxwdHh8").
Proof. vm_compute. reflexivity. Qed.
